(** * Columnar genotype stores: the record-to-table transforms

    A shallow embedding of the two streaming converters of the repository,

    - [tables/vcf_to_parquet.py]     (real ingestion, module [VcfToParquet]),
    - [tables/parquet_from_gnomad.py] (synthetic calls, module [Gnomad]),

    together with the properties of their output tables.

    Modelling conventions.
    - A Python dict of column lists is a record of lists, one field per
      column; [pd.DataFrame] checks that the columns have one length.
    - A dict used as a map ([sample_map], [record.INFO]) is a [gmap].
    - An uncaught Python exception ends the run: every function that can
      raise returns [exn + _], and a run returns the exception (if any)
      together with the files written so far.
    - A parquet file is the list of row groups written to it, with the
      schema its writer was opened with.
    - Python floats are modelled by exact rationals ([Q]); the random
      generators are a stream of 53-bit integers with a read position.
    - Progress printing and the conversion of cell values to the declared
      arrow types are not modelled. *)

From Stdlib Require Import ZArith QArith Qround Qabs Lqa List String Lia Bool.
From stdpp Require Import base option list gmap strings pretty.

Local Open Scope string_scope.
Local Open Scope Z_scope.

(** ** Python values and exceptions *)

Inductive exn : Type :=
| KeyError (key : string)
| IndexError
| TypeError
| ValueError (msg : string)
| ZeroDivisionError.

Definition bind {A B : Type} (m : exn + A) (k : A -> exn + B) : exn + B :=
  match m with
  | inl e => inl e
  | inr a => k a
  end.

Notation "'try' x ':=' m 'in' k" := (bind m (fun x => k))
  (at level 10, x name, m at level 100, k at level 200).

(** [l[i]] on a Python list: [IndexError] out of range. *)
Definition getitem {A : Type} (l : list A) (i : nat) : exn + A :=
  match l !! i with
  | Some x => inr x
  | None => inl IndexError
  end.

(** [d[k]] on a dict (or on a cyvcf2 INFO field): [KeyError] when absent. *)
Definition getkey {V : Type} (d : gmap string V) (k : string) : exn + V :=
  match d !! k with
  | Some v => inr v
  | None => inl (KeyError k)
  end.

(** The values an INFO entry of a VCF record can hold. *)
Inductive info_value : Type :=
| VFlag (b : bool)
| VInt (z : Z)
| VFloat (q : Q)
| VStr (s : string)
| VTuple (l : list Q).

Definition Qzero (q : Q) : bool := Qeq_bool q 0.

(** Python truthiness. *)
Definition truthy (v : info_value) : bool :=
  match v with
  | VFlag b => b
  | VInt z => negb (z =? 0)
  | VFloat q => negb (Qzero q)
  | VStr s => negb (String.eqb s "")
  | VTuple l => match l with [] => false | _ => true end
  end.

(** [range(n)] and [enumerate(l)]. *)
Definition range (n : nat) : list Z := map Z.of_nat (seq 0 n).

Fixpoint enumerate_from {A : Type} (i : Z) (l : list A) : list (Z * A) :=
  match l with
  | [] => []
  | x :: l' => (i, x) :: enumerate_from (i + 1) l'
  end.

Definition enumerate {A : Type} (l : list A) : list (Z * A) := enumerate_from 0 l.

(** [np.where(cond)[0]]: the positions at which the condition holds. *)
Fixpoint where_from {A : Type} (P : A -> bool) (i : nat) (l : list A) : list nat :=
  match l with
  | [] => []
  | x :: l' => if P x then i :: where_from P (S i) l' else where_from P (S i) l'
  end.

Definition np_where {A : Type} (P : A -> bool) (l : list A) : list nat := where_from P 0 l.

(** [bisect.bisect_right] / [ndarray.searchsorted(side='right')] on a
    non-decreasing list (every list passed to it here is a cumulative sum
    of non-negative weights): the number of leading entries [<= x]. *)
Fixpoint bisect_right (a : list Q) (x : Q) : nat :=
  match a with
  | [] => 0%nat
  | y :: a' => if Qle_bool y x then S (bisect_right a' x) else 0%nat
  end.

(** [itertools.accumulate] / [ndarray.cumsum]. *)
Fixpoint cumsum_from (acc : Q) (l : list Q) : list Q :=
  match l with
  | [] => []
  | x :: l' => (acc + x)%Q :: cumsum_from (acc + x)%Q l'
  end.

Definition cumsum (l : list Q) : list Q := cumsum_from 0%Q l.

(** ** Random generators

    Both [random] (Python) and [np.random] (numpy) are Mersenne twisters
    whose [random()] / [random_sample()] returns [k / 2^53] for a 53-bit
    integer [k]: a double in the half-open interval from 0 to 1. The
    generator is a stream of raw integers and a read position. *)

Record mt_state : Type := { mt_bits : nat -> Z; mt_pos : nat }.

Definition two53 : Z := 2 ^ 53.

Definition random_double (st : mt_state) : Q * mt_state :=
  (Qmake (mt_bits st (mt_pos st) mod two53) (Z.to_pos two53),
   {| mt_bits := mt_bits st; mt_pos := S (mt_pos st) |}).

(** [k] successive draws. *)
Fixpoint random_sample (k : nat) (st : mt_state) : list Q * mt_state :=
  match k with
  | O => ([], st)
  | S k' =>
      let '(u, st1) := random_double st in
      let '(us, st2) := random_sample k' st1 in
      (u :: us, st2)
  end.

(** [random.choices(population, k=k)] and
    [random.choices(population, weights=weights, k=k)]. The populations
    passed are non-empty literals and the computed position is in range,
    so the lookup has no failure case. The product of the random number
    and the size (or the total weight) is the exact rational here;
    Python rounds it to a double, which can move a draw that lies
    within one rounding step of a boundary to the neighbouring entry. *)
Definition choices (population : list string) (weights : option (list Q))
    (k : nat) (st : mt_state) : list string * mt_state :=
  let n := length population in
  let '(us, st') := random_sample k st in
  match weights with
  | None =>
      (map (fun u => population !!! Z.to_nat (Qfloor (u * inject_Z (Z.of_nat n))%Q)) us, st')
  | Some w =>
      let cum_weights := cumsum w in
      let total := List.last cum_weights 0%Q in
      let hi := (n - 1)%nat in
      (map (fun u => population !!! bisect_right (take hi cum_weights) (u * total)%Q) us, st')
  end.

(** ** Arrow schemas and parquet files *)

Inductive arrow_type : Type :=
| pa_int64 | pa_int32 | pa_uint64 | pa_uint32 | pa_uint8 | pa_string | pa_bool.

Definition pa_schema : Type := list (string * arrow_type).

(** A parquet file: its path, the schema fixed when it was opened and the
    row groups written to it, oldest first. *)
Record parquet (T : Type) : Type :=
  { pq_path : string; pq_schema : pa_schema; pq_row_groups : list T }.
Arguments pq_path {T} _.
Arguments pq_schema {T} _.
Arguments pq_row_groups {T} _.

(** [pq.ParquetWriter(path, schema=schema)]. *)
Definition ParquetWriter {T : Type} (path : string) (schema : pa_schema) : parquet T :=
  {| pq_path := path; pq_schema := schema; pq_row_groups := [] |}.

(** [writer.write_table(table)]. *)
Definition write_table {T : Type} (w : parquet T) (table : T) : parquet T :=
  {| pq_path := pq_path w; pq_schema := pq_schema w;
     pq_row_groups := pq_row_groups w ++ [table] |}.

(** ** The callsets and samples tables (the same text in both scripts) *)

Record callsets_table : Type :=
  { cs_callsetId : list Z; cs_sampleId : list Z; cs_call_type : list string;
    cs_dataset : list string; cs_consent : list bool }.

Record samples_table : Type :=
  { sm_sampleId : list Z; sm_sample_name : list string; sm_ethnicity : list string;
    sm_birth_sex : list string; sm_patientId : list string;
    sm_dataset : list string; sm_consent : list bool }.

Definition callsets_schema : pa_schema :=
  [("callsetId", pa_int32); ("sampleId", pa_int32); ("call_type", pa_string);
   ("dataset", pa_string); ("consent", pa_bool)].

Definition samples_schema : pa_schema :=
  [("sampleId", pa_int32); ("sample_name", pa_string); ("ethnicity", pa_string);
   ("birth_sex", pa_string); ("patientId", pa_string); ("dataset", pa_string);
   ("consent", pa_bool)].

Definition write_callset_table (samples : list string) (dataset prefix : string)
    (consent : bool) : parquet callsets_table :=
  let n := length samples in
  let callsets :=
    {| cs_callsetId := range n;
       cs_sampleId := range n;
       cs_call_type := replicate n "germline";
       cs_dataset := replicate n dataset;
       cs_consent := replicate n consent |} in
  write_table (ParquetWriter (prefix +:+ "_callsets.parquet") callsets_schema) callsets.

Definition ethnicities : list string :=
  ["Indigenous"; "Arab/West Asian"; "Black"; "East Asian"; "South Asian";
   "Latin American"; "White"].

Definition birth_sexes : list string := ["male"; "female"; "other"].

Definition write_sample_table (samples : list string) (dataset prefix : string)
    (consent : bool) (rnd : mt_state) : parquet samples_table * mt_state :=
  let n := length samples in
  let '(eth, rnd1) := choices ethnicities None n rnd in
  let '(sex, rnd2) := choices birth_sexes (Some [1000#1; 1000#1; 1#1]%Q) n rnd1 in
  let samples_ :=
    {| sm_sampleId := range n;
       sm_sample_name := samples;
       sm_ethnicity := eth;
       sm_birth_sex := sex;
       sm_patientId := samples;
       sm_dataset := replicate n dataset;
       sm_consent := replicate n consent |} in
  (write_table (ParquetWriter (prefix +:+ "_samples.parquet") samples_schema) samples_, rnd2).

(** ** The three chunked tables (the same text in both scripts) *)

Record variant_table : Type :=
  { v_vId : list Z; v_chrom : list string; v_pos : list Z;
    v_ref : list string; v_alt : list string }.

Record annotation_table : Type :=
  { a_vId : list Z; a_geneSymbol : list info_value }.

(** The genotype column holds strings in [vcf_to_parquet.py] and small
    integers in [parquet_from_gnomad.py]. *)
Record gt_table (G : Type) : Type :=
  { g_vId : list Z; g_callsetId : list Z; g_genotype : list G }.
Arguments g_vId {G} _.
Arguments g_callsetId {G} _.
Arguments g_genotype {G} _.

Record data_tables (G : Type) : Type :=
  { variants : variant_table; annotations : annotation_table; gts : gt_table G }.
Arguments variants {G} _.
Arguments annotations {G} _.
Arguments gts {G} _.

Definition empty_tables {G : Type} : data_tables G :=
  {| variants := {| v_vId := []; v_chrom := []; v_pos := []; v_ref := []; v_alt := [] |};
     annotations := {| a_vId := []; a_geneSymbol := [] |};
     gts := {| g_vId := []; g_callsetId := []; g_genotype := [] |} |}.

(** What [get_schemas()] returns. *)
Record schemas : Type :=
  { sch_variants : pa_schema; sch_annotations : pa_schema; sch_gts : pa_schema }.

(** One open writer per table, [None] until the first flush. *)
Record writers (G : Type) : Type :=
  { w_variants : option (parquet variant_table);
    w_annotations : option (parquet annotation_table);
    w_gts : option (parquet (gt_table G)) }.
Arguments w_variants {G} _.
Arguments w_annotations {G} _.
Arguments w_gts {G} _.

Definition no_writers {G : Type} : writers G :=
  {| w_variants := None; w_annotations := None; w_gts := None |}.

(** [pd.DataFrame(columns)] raises unless all columns have one length. *)
Definition length_mismatch : exn := ValueError "All arrays must be of the same length".

Definition DataFrame_variants (t : variant_table) : exn + variant_table :=
  let n := length (v_vId t) in
  if (length (v_chrom t) =? n)%nat && (length (v_pos t) =? n)%nat
     && (length (v_ref t) =? n)%nat && (length (v_alt t) =? n)%nat
  then inr t else inl length_mismatch.

Definition DataFrame_annotations (t : annotation_table) : exn + annotation_table :=
  if (length (a_geneSymbol t) =? length (a_vId t))%nat then inr t else inl length_mismatch.

Definition DataFrame_gts {G : Type} (t : gt_table G) : exn + gt_table G :=
  let n := length (g_vId t) in
  if (length (g_callsetId t) =? n)%nat && (length (g_genotype t) =? n)%nat
  then inr t else inl length_mismatch.

(** The body of the loop of [update_files] for one table: build the data
    frame, open the writer if there is none yet, write one row group.
    [pa.Table.from_pandas(df, schema=...)] also converts every cell to
    the declared arrow type and raises when a cell cannot be converted
    (a gene symbol that is no string, a position outside 32 bits); that
    conversion is outside the model, which follows the runs whose
    flushes convert. *)
Definition update_file {T : Type} (DataFrame : T -> exn + T) (schema : pa_schema)
    (path : string) (table : T) (writer : option (parquet T)) : exn + option (parquet T) :=
  try df := DataFrame table in
  let w := match writer with
           | Some w => w
           | None => ParquetWriter path schema
           end in
  inr (Some (write_table w df)).

(** [update_files(tables, writers, prefix)]: the tables in the order
    variants, annotations, gts. An exception leaves the writers of the
    tables already handled updated. *)
Definition update_files {G : Type} (sch : schemas) (tables : data_tables G)
    (ws : writers G) (prefix : string) : option exn * writers G :=
  match update_file DataFrame_variants (sch_variants sch)
          (prefix +:+ "_variants.parquet") (variants tables) (w_variants ws) with
  | inl e => (Some e, ws)
  | inr wv =>
      let ws1 := {| w_variants := wv; w_annotations := w_annotations ws; w_gts := w_gts ws |} in
      match update_file DataFrame_annotations (sch_annotations sch)
              (prefix +:+ "_annotations.parquet") (annotations tables) (w_annotations ws1) with
      | inl e => (Some e, ws1)
      | inr wa =>
          let ws2 := {| w_variants := wv; w_annotations := wa; w_gts := w_gts ws |} in
          match update_file DataFrame_gts (sch_gts sch)
                  (prefix +:+ "_gts.parquet") (gts tables) (w_gts ws2) with
          | inl e => (Some e, ws2)
          | inr wg => (None, {| w_variants := wv; w_annotations := wa; w_gts := wg |})
          end
      end
  end.

(** The chunk test that ends an iteration (the same in both scripts,
    on [vid+1] in one and on the length of the buffered [vId] column in
    the other): [if x % chunksize == 0] flush and start empty buffers. *)
Definition flush_if_due {G : Type} (sch : schemas) (prefix : string) (chunksize x : Z)
    (dt : data_tables G) (ws : writers G) : option exn * (data_tables G * writers G) :=
  if chunksize =? 0 then (Some ZeroDivisionError, (dt, ws))
  else if x mod chunksize =? 0 then
    match update_files sch dt ws prefix with
    | (Some e, ws1) => (Some e, (dt, ws1))
    | (None, ws1) => (None, (empty_tables, ws1))
    end
  else (None, (dt, ws)).

(** The statement after the loop:
    [if len(data_tables["variants"]["vId"]): update_files(...)]. *)
Definition final_flush {G : Type} (sch : schemas) (prefix : string)
    (dt : data_tables G) (ws : writers G) : option exn * writers G :=
  if negb (length (v_vId (variants dt)) =? 0)%nat
  then update_files sch dt ws prefix
  else (None, ws).

(** Everything a run leaves on disk. *)
Record outputs (G : Type) : Type :=
  { out_callsets : option (parquet callsets_table);
    out_samples : option (parquet samples_table);
    out_writers : writers G }.
Arguments out_callsets {G} _.
Arguments out_samples {G} _.
Arguments out_writers {G} _.

(** [str(i)] of an integer and [sep.join(parts)]. *)
Definition str (i : Z) : string := pretty i.

Definition join (sep : string) (parts : list string) : string := String.concat sep parts.

(** ** Views on the tables used to state the properties *)

(** The empty tables and the column-wise concatenation of two tables. *)
Definition vt_nil : variant_table :=
  {| v_vId := []; v_chrom := []; v_pos := []; v_ref := []; v_alt := [] |}.

Definition at_nil : annotation_table := {| a_vId := []; a_geneSymbol := [] |}.

Definition gt_nil {G : Type} : gt_table G :=
  {| g_vId := []; g_callsetId := []; g_genotype := [] |}.

Definition vt_app (t1 t2 : variant_table) : variant_table :=
  {| v_vId := v_vId t1 ++ v_vId t2; v_chrom := v_chrom t1 ++ v_chrom t2;
     v_pos := v_pos t1 ++ v_pos t2; v_ref := v_ref t1 ++ v_ref t2;
     v_alt := v_alt t1 ++ v_alt t2 |}.

Definition at_app (t1 t2 : annotation_table) : annotation_table :=
  {| a_vId := a_vId t1 ++ a_vId t2; a_geneSymbol := a_geneSymbol t1 ++ a_geneSymbol t2 |}.

Definition gt_app {G : Type} (t1 t2 : gt_table G) : gt_table G :=
  {| g_vId := g_vId t1 ++ g_vId t2; g_callsetId := g_callsetId t1 ++ g_callsetId t2;
     g_genotype := g_genotype t1 ++ g_genotype t2 |}.

Definition dt_app {G : Type} (d1 d2 : data_tables G) : data_tables G :=
  {| variants := vt_app (variants d1) (variants d2);
     annotations := at_app (annotations d1) (annotations d2);
     gts := gt_app (gts d1) (gts d2) |}.

(** All columns of a table have one length: what [pd.DataFrame] checks. *)
Definition vt_ok (t : variant_table) : Prop :=
  length (v_chrom t) = length (v_vId t) /\ length (v_pos t) = length (v_vId t) /\
  length (v_ref t) = length (v_vId t) /\ length (v_alt t) = length (v_vId t).

Definition at_ok (t : annotation_table) : Prop :=
  length (a_geneSymbol t) = length (a_vId t).

Definition gt_ok {G : Type} (t : gt_table G) : Prop :=
  length (g_callsetId t) = length (g_vId t) /\ length (g_genotype t) = length (g_vId t).

Definition dt_ok {G : Type} (d : data_tables G) : Prop :=
  vt_ok (variants d) /\ at_ok (annotations d) /\ gt_ok (gts d).

(** The other two buffers are empty whenever the variants buffer is. *)
Definition tied {G : Type} (d : data_tables G) : Prop :=
  v_vId (variants d) = [] -> d = empty_tables.

(** The content of a parquet file read back: its row groups one after
    the other; nothing when the file was never opened. *)
Definition content {T : Type} (nil : T) (app : T -> T -> T) (f : option (parquet T)) : T :=
  match f with
  | None => nil
  | Some w => fold_left app (pq_row_groups w) nil
  end.

Definition written {G : Type} (ws : writers G) : data_tables G :=
  {| variants := content vt_nil vt_app (w_variants ws);
     annotations := content at_nil at_app (w_annotations ws);
     gts := content gt_nil gt_app (w_gts ws) |}.

(** The rows of the variants and genotype tables, for statements about
    single rows. *)
Definition variant_rows (t : variant_table) : list (Z * string * Z * string * string) :=
  zip (zip (zip (zip (v_vId t) (v_chrom t)) (v_pos t)) (v_ref t)) (v_alt t).

Definition gt_rows {G : Type} (t : gt_table G) : list (Z * Z * G) :=
  zip (zip (g_vId t) (g_callsetId t)) (g_genotype t).

Definition annotation_rows (t : annotation_table) : list (Z * info_value) :=
  zip (a_vId t) (a_geneSymbol t).

(** The identifier and name columns of the callsets and samples files. *)
Definition callset_ids (f : option (parquet callsets_table)) : list Z :=
  match f with
  | Some w => concat (map cs_callsetId (pq_row_groups w))
  | None => []
  end.

Definition sample_ids (f : option (parquet samples_table)) : list Z :=
  match f with
  | Some w => concat (map sm_sampleId (pq_row_groups w))
  | None => []
  end.

Definition sample_names (f : option (parquet samples_table)) : list string :=
  match f with
  | Some w => concat (map sm_sample_name (pq_row_groups w))
  | None => []
  end.

(** The schema of an output file, if the file exists. *)
Definition schema_of {T : Type} (f : option (parquet T)) : option pa_schema :=
  option_map pq_schema f.

(** Every writer is open, with the schema [sch] declares for its table. *)
Definition opened {G : Type} (sch : schemas) (ws : writers G) : Prop :=
  schema_of (w_variants ws) = Some (sch_variants sch) /\
  schema_of (w_annotations ws) = Some (sch_annotations sch) /\
  schema_of (w_gts ws) = Some (sch_gts sch).

(** Every writer that is open has the schema [sch] declares. *)
Definition schemas_fixed {G : Type} (sch : schemas) (ws : writers G) : Prop :=
  (forall w, w_variants ws = Some w -> pq_schema w = sch_variants sch) /\
  (forall w, w_annotations ws = Some w -> pq_schema w = sch_annotations sch) /\
  (forall w, w_gts ws = Some w -> pq_schema w = sch_gts sch).

(** A strictly increasing list of integers. *)
Fixpoint increasing (l : list Z) : Prop :=
  match l with
  | [] => True
  | x :: l' => match l' with [] => True | y :: _ => x < y end /\ increasing l'
  end.

(** ** Records of the input stream

    A cyvcf2 record. [gt_types] holds one code per sample
    (0, 1, 2, 3 = HOM_REF, HET, UNKNOWN, HOM_ALT) and [genotypes] one list
    per sample: the allele numbers followed by the phase flag ([True] is
    1). Both are empty for the sites-only files read by
    [parquet_from_gnomad.py]. *)
Record record : Type :=
  { CHROM : string; POS : Z; REF : string; ALT : list string;
    INFO : gmap string info_value;
    gt_types : list Z; genotypes : list (list Z) }.

(** The five appends of the variant row (the same in both scripts, with
    [vid] the enumeration index in one and the running count in the
    other). The columns before [alt] are appended before [record.ALT[0]]
    can raise; the partly filled buffer is dropped with the exception. *)
Definition append_variant (vid : Z) (r : record) (t : variant_table) : exn + variant_table :=
  try alt0 := getitem (ALT r) 0 in
  inr {| v_vId := v_vId t ++ [vid];
         v_chrom := v_chrom t ++ [CHROM r];
         v_pos := v_pos t ++ [POS r];
         v_ref := v_ref t ++ [REF r];
         v_alt := v_alt t ++ [alt0] |}.

(** ** [tables/vcf_to_parquet.py] *)

Module VcfToParquet.

(** An opened VCF: the sample names of its header and its records. *)
Record VCF : Type := { samples : list string; records : list record }.

Definition sample_to_sampleId (samples : list string) : gmap string Z :=
  fold_left (fun m '(i, sample) => <[sample := i]> m) (enumerate samples) ∅.

Definition get_schemas : schemas :=
  {| sch_variants :=
       [("vId", pa_int64); ("chrom", pa_string); ("pos", pa_int32);
        ("ref", pa_string); ("alt", pa_string)];
     sch_annotations := [("vId", pa_int64); ("geneSymbol", pa_string)];
     sch_gts := [("vId", pa_int64); ("callsetId", pa_int32); ("genotype", pa_string)] |}.

Definition gt_string (genotype : list Z) : exn + string :=
  match last genotype with
  | None => inl IndexError
  | Some flag =>
      let phase_sym := if negb (flag =? 0) then "|" else "/" in
      inr (join phase_sym (map str (removelast genotype)))
  end.

(** Lines 165-167. *)
Definition append_annotation (vid : Z) (r : record) (t : annotation_table)
    : exn + annotation_table :=
  try gene := getkey (INFO r) "geneSymbol" in
  if truthy gene
  then inr {| a_vId := a_vId t ++ [vid]; a_geneSymbol := a_geneSymbol t ++ [gene] |}
  else inr t.

(** Lines 171-175: the loop over [has_calls]. *)
Fixpoint append_calls (samples : list string) (sample_map : gmap string Z)
    (vid : Z) (r : record) (has_calls : list nat) (t : gt_table string)
    : exn + gt_table string :=
  match has_calls with
  | [] => inr t
  | idx :: rest =>
      try name := getitem samples idx in
      try sid := getkey sample_map name in
      try genotype := getitem (genotypes r) idx in
      try gt := gt_string genotype in
      append_calls samples sample_map vid r rest
        {| g_vId := g_vId t ++ [vid];
           g_callsetId := g_callsetId t ++ [sid];
           g_genotype := g_genotype t ++ [gt] |}
  end.

(** Lines 159-175: everything one record appends to the buffers. *)
Definition append_record (samples : list string) (sample_map : gmap string Z)
    (vid : Z) (r : record) (dt : data_tables string) : exn + data_tables string :=
  try v := append_variant vid r (variants dt) in
  try a := append_annotation vid r (annotations dt) in
  let has_calls := np_where (fun t => t mod 2 =? 1) (gt_types r) in
  try g := append_calls samples sample_map vid r has_calls (gts dt) in
  inr {| variants := v; annotations := a; gts := g |}.

(** The [for vid, record in enumerate(vcf_reader)] loop. The buffers are
    local to the run; the writers are what an exception leaves behind. *)
Fixpoint loop (samples : list string) (sample_map : gmap string Z)
    (prefix : string) (chunksize : Z) (vid : Z) (recs : list record)
    (dt : data_tables string) (ws : writers string)
    : option exn * (data_tables string * writers string) :=
  match recs with
  | [] => (None, (dt, ws))
  | r :: rest =>
      match append_record samples sample_map vid r dt with
      | inl e => (Some e, (dt, ws))
      | inr dt1 =>
          match flush_if_due get_schemas prefix chunksize (vid + 1) dt1 ws with
          | (Some e, s) => (Some e, s)
          | (None, (dt2, ws2)) =>
              loop samples sample_map prefix chunksize (vid + 1) rest dt2 ws2
          end
      end
  end.

(** [tables(vcfFile, dataset, prefix, chunksize, verbose)]; [rnd] is the
    state of Python's [random] module when the run starts. *)
Definition tables (vcf : VCF) (dataset prefix : string) (chunksize : Z)
    (rnd : mt_state) : option exn * outputs string :=
  let samples := samples vcf in
  let sample_map := sample_to_sampleId samples in
  let callsets := write_callset_table samples dataset prefix true in
  let '(samples_file, _) := write_sample_table samples dataset prefix true rnd in
  let out ws := {| out_callsets := Some callsets; out_samples := Some samples_file;
                   out_writers := ws |} in
  match loop samples sample_map prefix chunksize 0 (records vcf) empty_tables no_writers with
  | (Some e, (_, ws)) => (Some e, out ws)
  | (None, (dt, ws)) =>
      let '(e, ws1) := final_flush get_schemas prefix dt ws in (e, out ws1)
  end.

(** The rows one record contributes: what it appends to empty buffers. *)
Definition record_rows (samples : list string) (sample_map : gmap string Z)
    (vid : Z) (r : record) : exn + data_tables string :=
  append_record samples sample_map vid r empty_tables.

(** The unchunked reference: the rows of all records, numbered from
    [vid] on, one after the other. *)
Fixpoint all_rows (samples : list string) (sample_map : gmap string Z)
    (vid : Z) (recs : list record) : exn + data_tables string :=
  match recs with
  | [] => inr empty_tables
  | r :: rest =>
      try d := record_rows samples sample_map vid r in
      try ds := all_rows samples sample_map (vid + 1) rest in
      inr (dt_app d ds)
  end.

(** A record the loop body handles without raising: a first alternate
    allele, a [geneSymbol] INFO entry, and for every informative sample
    a name in the header and a genotype list with a phase flag. *)
Definition well_formed (samples : list string) (r : record) : bool :=
  negb (length (ALT r) =? 0)%nat &&
  bool_decide (is_Some (INFO r !! "geneSymbol")) &&
  forallb (fun idx => (idx <? length samples)%nat &&
                      match genotypes r !! idx with
                      | Some (_ :: _) => true
                      | _ => false
                      end)
          (np_where (fun t => t mod 2 =? 1) (gt_types r)).

(** The update of the sample map for one enumerated sample. *)
Definition add_sample (m : gmap string Z) (p : Z * string) : gmap string Z :=
  let '(i, sample) := p in <[sample := i]> m.


End VcfToParquet.

(** ** [tables/parquet_from_gnomad.py] *)

Module Gnomad.

Definition get_schemas : schemas :=
  {| sch_variants :=
       [("vId", pa_int64); ("chrom", pa_string); ("pos", pa_int32);
        ("ref", pa_string); ("alt", pa_string)];
     sch_annotations := [("vId", pa_int64); ("geneSymbol", pa_string)];
     sch_gts := [("vId", pa_uint64); ("callsetId", pa_uint32); ("genotype", pa_uint8)] |}.

Definition Qlt_bool (x y : Q) : bool := negb (Qle_bool y x).

Definition Qsum (l : list Q) : Q := fold_left Qplus l 0%Q.

(** [a[idx]] for an array of positions. *)
Fixpoint fancy_index {A : Type} (a : list A) (idx : list nat) : exn + list A :=
  match idx with
  | [] => inr []
  | i :: idx' =>
      try x := getitem a i in
      try xs := fancy_index a idx' in
      inr (x :: xs)
  end.

(** The tolerance of numpy's check that the probabilities sum to one:
    the square root of the float64 machine epsilon [2^-52]. *)
Definition atol : Q := 1 # (2 ^ 26).

(** [np.random.choice(a, size, p=p)] (with replacement): the checks on
    [p] come first and consume no random number; then [size] uniform
    draws are located in the normalised cumulative distribution. The
    probabilities are exact rationals: numpy's first check, that their
    sum is not NaN, has no case here (it concerns frequencies that are
    infinite, NaN or so large that their squares overflow). *)
Definition np_random_choice (a : list Z) (size : Z) (p : list Q) (st : mt_state)
    : (exn + list Z) * mt_state :=
  if negb (length p =? length a)%nat
  then (inl (ValueError "'a' and 'p' must have same size"), st)
  else if existsb (fun x => Qlt_bool x 0) p
  then (inl (ValueError "probabilities are not non-negative"), st)
  else if Qlt_bool atol (Qabs (Qsum p - 1))
  then (inl (ValueError "probabilities do not sum to 1"), st)
  else if size <? 0
  then (inl (ValueError "negative dimensions are not allowed"), st)
  else
    let cdf := cumsum p in
    let cdf := map (fun x => x / List.last cdf 0)%Q cdf in
    let '(uniform_samples, st') := random_sample (Z.to_nat size) st in
    let idx := map (bisect_right cdf) uniform_samples in
    (fancy_index a idx, st').

(** The operand [q] of [1. - q]: numbers convert to float, anything
    else is a [TypeError]. *)
Definition to_float (v : info_value) : exn + Q :=
  match v with
  | VFlag b => inr (if b then 1 else 0)%Q
  | VInt z => inr (inject_Z z)
  | VFloat q => inr q
  | VStr _ => inl TypeError
  | VTuple _ => inl TypeError
  end.

(** The Hardy-Weinberg class probabilities [[p*p, 2*p*q, q*q]]. *)
Definition hardy_weinberg (q : Q) : list Q :=
  let p := (1 - q)%Q in [p * p; 2 * p * q; q * q]%Q.

(** Lines 133-139: [None] when the record has no (or a zero) allele
    frequency and the iteration ends with [continue]; otherwise the
    genotype code drawn for each sample. *)
Definition sample_genotypes (nsamples : Z) (r : record) (rnd : mt_state)
    : (exn + option (list Z)) * mt_state :=
  match INFO r !! "AF" with
  | None => (inr None, rnd)
  | Some af =>
      if negb (truthy af) then (inr None, rnd)
      else
        match to_float af with
        | inl e => (inl e, rnd)
        | inr q =>
            match np_random_choice [0; 1; 3] nsamples (hardy_weinberg q) rnd with
            | (inl e, rnd1) => (inl e, rnd1)
            | (inr gts_, rnd1) => (inr (Some gts_), rnd1)
            end
        end
  end.

(** Lines 140-156 with [count] already incremented: [None] when no
    sample is present and the iteration ends with [continue]. *)
Definition append_record (count : Z) (r : record) (gts_ : list Z) (dt : data_tables Z)
    : exn + option (data_tables Z) :=
  let samples_present := np_where (fun g => 0 <? g) gts_ in
  try gts_present := fancy_index gts_ samples_present in
  let n_present := length samples_present in
  if (n_present =? 0)%nat then inr None
  else
    try v := append_variant count r (variants dt) in
    let g := gts dt in
    inr (Some {| variants := v;
                 annotations := annotations dt;
                 gts := {| g_vId := g_vId g ++ replicate n_present count;
                           g_callsetId := g_callsetId g ++ map Z.of_nat samples_present;
                           g_genotype := g_genotype g ++ gts_present |} |}).

(** The local variables of [tables] that live across iterations, and
    numpy's global generator. *)
Record loop_state : Type :=
  { count : Z; data : data_tables Z; ws : writers Z; np_rnd : mt_state }.

Definition set_rnd (st : loop_state) (rnd : mt_state) : loop_state :=
  {| count := count st; data := data st; ws := ws st; np_rnd := rnd |}.

(** One iteration of the loop of [tables]; [None] when it ends normally
    (also through [continue]). *)
Definition step (nsamples : Z) (prefix : string) (chunksize : Z) (r : record)
    (st : loop_state) : option exn * loop_state :=
  match sample_genotypes nsamples r (np_rnd st) with
  | (inl e, rnd1) => (Some e, set_rnd st rnd1)
  | (inr None, rnd1) => (None, set_rnd st rnd1)
  | (inr (Some gts_), rnd1) =>
      let count1 := count st + 1 in
      match append_record count1 r gts_ (data st) with
      | inl e => (Some e, set_rnd st rnd1)
      | inr None => (None, set_rnd st rnd1)
      | inr (Some dt1) =>
          let '(e, (dt2, ws2)) :=
            flush_if_due get_schemas prefix chunksize
              (Z.of_nat (length (v_vId (variants dt1)))) dt1 (ws st) in
          (e, {| count := count1; data := dt2; ws := ws2; np_rnd := rnd1 |})
      end
  end.

Fixpoint loop (nsamples : Z) (prefix : string) (chunksize : Z) (recs : list record)
    (st : loop_state) : option exn * loop_state :=
  match recs with
  | [] => (None, st)
  | r :: rest =>
      match step nsamples prefix chunksize r st with
      | (Some e, st1) => (Some e, st1)
      | (None, st1) => loop nsamples prefix chunksize rest st1
      end
  end.

Definition init (rnd0 : mt_state) : loop_state :=
  {| count := 0; data := empty_tables; ws := no_writers; np_rnd := rnd0 |}.

(** [tables(filename, nsamples, dataset, prefix, chunksize, verbose)]
    on the records of the file, started with numpy's generator in
    state [rnd0]: the exception (if any), the writers and the state of
    the generator at the end. *)
Definition tables (vcf : list record) (nsamples : Z) (prefix : string) (chunksize : Z)
    (rnd0 : mt_state) : option exn * loop_state :=
  match loop nsamples prefix chunksize vcf (init rnd0) with
  | (Some e, st) => (Some e, st)
  | (None, st) =>
      let '(e, ws1) := final_flush get_schemas prefix (data st) (ws st) in
      (e, {| count := count st; data := data st; ws := ws1; np_rnd := np_rnd st |})
  end.

(** [f"{i:05}"] for a non-negative [i]. *)
Definition pad5 (i : Z) : string :=
  let s := str i in
  String.concat "" (replicate (5 - String.length s) "0") +:+ s.

(** The script's entry point after argument parsing: [rnd] is the state
    of Python's [random], [rnd0] that of [np.random]. *)
Definition main (vcf : list record) (dataset_name parquet_prefix : string)
    (nsamples chunk : Z) (rnd rnd0 : mt_state) : option exn * outputs Z :=
  let samples := map (fun i => dataset_name +:+ "_" +:+ pad5 i) (range (Z.to_nat nsamples)) in
  let '(samples_file, _) := write_sample_table samples dataset_name parquet_prefix true rnd in
  let callsets := write_callset_table samples dataset_name parquet_prefix true in
  let '(e, st) := tables vcf nsamples parquet_prefix chunk rnd0 in
  (e, {| out_callsets := Some callsets; out_samples := Some samples_file;
         out_writers := ws st |}).

(** A record the loop body handles without raising: no allele
    frequency, a zero one, or a number between 0 and 1 together with a
    first alternate allele. *)
Definition well_formed (r : record) : bool :=
  match INFO r !! "AF" with
  | None => true
  | Some af =>
      negb (truthy af) ||
      match to_float af with
      | inl _ => false
      | inr q => Qle_bool 0 q && Qle_bool q 1 && negb (length (ALT r) =? 0)%nat
      end
  end.

(** A drawn genotype code is present when it is positive (line 140). *)
Definition present (gts_ : list Z) : bool := existsb (fun g => 0 <? g) gts_.

(** The rows one record contributes when [count] variants were emitted
    before it: what it appends to empty buffers; [None] when the record
    is skipped. *)
Definition record_rows (nsamples : Z) (count : Z) (r : record) (rnd : mt_state)
    : (exn + option (data_tables Z)) * mt_state :=
  match sample_genotypes nsamples r rnd with
  | (inl e, rnd1) => (inl e, rnd1)
  | (inr None, rnd1) => (inr None, rnd1)
  | (inr (Some gts_), rnd1) => (append_record (count + 1) r gts_ empty_tables, rnd1)
  end.

(** The unchunked reference: the rows of all records one after the
    other, with the number of variants emitted and the generator at the
    end. *)
Fixpoint all_rows (nsamples : Z) (count : Z) (recs : list record) (rnd : mt_state)
    : (exn + data_tables Z * Z) * mt_state :=
  match recs with
  | [] => (inr (empty_tables, count), rnd)
  | r :: rest =>
      match record_rows nsamples count r rnd with
      | (inl e, rnd1) => (inl e, rnd1)
      | (inr None, rnd1) => all_rows nsamples count rest rnd1
      | (inr (Some d), rnd1) =>
          match all_rows nsamples (count + 1) rest rnd1 with
          | (inl e, rnd2) => (inl e, rnd2)
          | (inr (ds, count2), rnd2) => (inr (dt_app d ds, count2), rnd2)
          end
      end
  end.

(** The genotype vector drawn for each record of a run, in input order
    (empty for a record skipped before sampling), up to the first record
    at which sampling raises. *)
Fixpoint drawn (nsamples : Z) (recs : list record) (rnd : mt_state) : list (list Z) :=
  match recs with
  | [] => []
  | r :: rest =>
      match sample_genotypes nsamples r rnd with
      | (inl _, _) => []
      | (inr None, rnd1) => [] :: drawn nsamples rest rnd1
      | (inr (Some gts_), rnd1) => gts_ :: drawn nsamples rest rnd1
      end
  end.

(** The rows of a record whose drawn genotypes are [g], numbered [cnt]. *)
Definition rows_of (cnt : Z) (r : record) (alt0 : string) (g : list Z) : data_tables Z :=
  {| variants := {| v_vId := [cnt]; v_chrom := [CHROM r]; v_pos := [POS r];
                    v_ref := [REF r]; v_alt := [alt0] |};
     annotations := at_nil;
     gts := {| g_vId := replicate (length (np_where (fun x => 0 <? x) g)) cnt;
               g_callsetId := map Z.of_nat (np_where (fun x => 0 <? x) g);
               g_genotype := List.filter (fun x => 0 <? x) g |} |}.

End Gnomad.


(** ** Example inputs *)

Definition ex_rnd : mt_state :=
  {| mt_bits := fun i => Z.of_nat i * 1234567890123457; mt_pos := 0 |}.

(** Three samples, four records: heterozygous and homozygous calls, a
    record without any informative call, a phased record, and a record
    whose gene symbol is the empty string. *)
Definition ex_vcf : VcfToParquet.VCF :=
  {| VcfToParquet.samples := ["NA001"; "NA002"; "NA003"];
     VcfToParquet.records :=
       [ {| CHROM := "1"; POS := 12345; REF := "A"; ALT := ["T"; "G"];
            INFO := {[ "geneSymbol" := VStr "BRCA1" ]};
            gt_types := [0; 1; 3];
            genotypes := [[0; 0; 0]; [0; 1; 0]; [1; 1; 0]] |};
         {| CHROM := "1"; POS := 20000; REF := "C"; ALT := ["G"];
            INFO := {[ "geneSymbol" := VStr "BRCA1" ]};
            gt_types := [0; 0; 2];
            genotypes := [[0; 0; 0]; [0; 0; 0]; [-1; -1; 0]] |};
         {| CHROM := "2"; POS := 777; REF := "G"; ALT := ["A"];
            INFO := {[ "geneSymbol" := VStr "" ]};
            gt_types := [1; 0; 0];
            genotypes := [[1; 0; 1]; [0; 0; 1]; [0; 0; 1]] |};
         {| CHROM := "X"; POS := 31; REF := "T"; ALT := ["C"];
            INFO := {[ "geneSymbol" := VStr "DMD" ]};
            gt_types := [3; 3; 1];
            genotypes := [[1; 1; 0]; [1; 1; 0]; [0; 1; 0]] |} ] |}.

(** A sites-only record with allele frequency [af]. *)
Definition ex_site (pos : Z) (af : Q) : record :=
  {| CHROM := "1"; POS := pos; REF := "A"; ALT := ["T"; "G"];
     INFO := {[ "AF" := VFloat af ]}; gt_types := []; genotypes := [] |}.

Definition ex_sites : list record :=
  [ex_site 100 (1 # 2); ex_site 200 0; ex_site 300 1; ex_site 400 (1 # 100);
   ex_site 500 (1 # 3)].

(** A header of three samples and no record. *)
Definition ex_empty_vcf : VcfToParquet.VCF :=
  {| VcfToParquet.samples := ["NA001"; "NA002"; "NA003"]; VcfToParquet.records := [] |}.

(** One record whose INFO field has no [geneSymbol] entry. *)
Definition ex_no_gene_vcf : VcfToParquet.VCF :=
  {| VcfToParquet.samples := ["NA001"; "NA002"; "NA003"];
     VcfToParquet.records :=
       [ {| CHROM := "1"; POS := 12345; REF := "A"; ALT := ["T"; "G"];
            INFO := {[ "DP" := VInt 30 ]};
            gt_types := [0; 1; 3];
            genotypes := [[0; 0; 0]; [0; 1; 0]; [1; 1; 0]] |} ] |}.

(** * Further definitions: views on the files, the loader and the first converter *)

From Stdlib Require Import Ascii.

(** The position of the last occurrence of [name] in a list. *)
Fixpoint last_position (name : string) (l : list string) : option nat :=
  match l with
  | [] => None
  | x :: l' =>
      match last_position name l' with
      | Some j => Some (S j)
      | None => if decide (x = name) then Some 0%nat else None
      end
  end.

(** The row groups of a file, oldest first; none when the file was never
    opened. *)
Definition row_groups {T : Type} (f : option (parquet T)) : list T :=
  match f with
  | Some w => pq_row_groups w
  | None => []
  end.




(** Every writer that is open writes to [prefix_<table>.parquet] with
    the schema [sch] declares for the table. *)
Definition writers_at {G : Type} (sch : schemas) (prefix : string) (ws : writers G) : Prop :=
  (forall w, w_variants ws = Some w ->
     pq_path w = prefix +:+ "_variants.parquet" /\ pq_schema w = sch_variants sch) /\
  (forall w, w_annotations ws = Some w ->
     pq_path w = prefix +:+ "_annotations.parquet" /\ pq_schema w = sch_annotations sch) /\
  (forall w, w_gts ws = Some w ->
     pq_path w = prefix +:+ "_gts.parquet" /\ pq_schema w = sch_gts sch).

(** Every variant identifier of the annotation and genotype rows is the
    identifier of a variant row of the same tables. *)
Definition references_resolve {G : Type} (d : data_tables G) : Prop :=
  Forall (fun v => v ∈ v_vId (variants d)) (a_vId (annotations d)) /\
  Forall (fun v => v ∈ v_vId (variants d)) (g_vId (gts d)).

(** The record reaches the sampler: it has a truthy allele frequency. *)
Definition has_frequency (r : record) : bool :=
  match INFO r !! "AF" with
  | Some af => truthy af
  | None => false
  end.

(** The three chunked files exist together: none was opened, or every
    one was and they hold the same positive number of row groups. *)
Definition together {G : Type} (ws : writers G) : Prop :=
  ws = no_writers \/
  exists wv wa wg,
    w_variants ws = Some wv /\ w_annotations ws = Some wa /\ w_gts ws = Some wg /\
    (0 < length (pq_row_groups wv))%nat /\
    length (pq_row_groups wa) = length (pq_row_groups wv) /\
    length (pq_row_groups wg) = length (pq_row_groups wv).

(** The three chunked files exist together or not at all. *)
Definition all_or_none {G : Type} (ws : writers G) : Prop :=
  ws = no_writers \/
  (is_Some (w_variants ws) /\ is_Some (w_annotations ws) /\ is_Some (w_gts ws)).

(** No row group of the variants file is empty. *)
Definition no_empty_group {G : Type} (ws : writers G) : Prop :=
  Forall (fun t => v_vId t <> []) (row_groups (w_variants ws)).

(** What holds of the three chunked files at any time of a run. *)
Definition files_ok {G : Type} (sch : schemas) (prefix : string) (ws : writers G) : Prop :=
  writers_at sch prefix ws /\ together ws /\ no_empty_group ws.

(** The characters of a string. *)
Fixpoint chars (s : string) : list ascii :=
  match s with
  | EmptyString => []
  | String a s' => a :: chars s'
  end.

(** [sep.join(parts)] on lists of characters, for a separator of one
    character. *)
Fixpoint joinl (sep : ascii) (parts : list (list ascii)) : list ascii :=
  match parts with
  | [] => []
  | x :: rest =>
      match rest with
      | [] => x
      | _ => x ++ sep :: joinl sep rest
      end
  end.

(** The key of each genotype row: its variant and callset identifier. *)
Definition gt_keys {G : Type} (t : gt_table G) : list (Z * Z) :=
  zip (g_vId t) (g_callsetId t).

(** Keys in strictly increasing lexicographic order. *)
Definition key_lt (p q : Z * Z) : Prop :=
  fst p < fst q \/ (fst p = fst q /\ snd p < snd q).

Fixpoint keys_sorted (l : list (Z * Z)) : Prop :=
  match l with
  | [] => True
  | p :: l' => Forall (key_lt p) l' /\ keys_sorted l'
  end.

(** ** [dbs/sqlite_from_parquet.py]

    The loader reads the five parquet files a converter run left under a
    prefix and stores them as the tables of an SQL database. The
    directory is the [outputs] of the run; a database is the map from
    table names to the data frames stored. *)

(** The empty callsets and samples tables and their concatenation: a
    file read back is its row groups one after the other. *)
Definition cs_nil : callsets_table :=
  {| cs_callsetId := []; cs_sampleId := []; cs_call_type := []; cs_dataset := [];
     cs_consent := [] |}.

Definition cs_app (t1 t2 : callsets_table) : callsets_table :=
  {| cs_callsetId := cs_callsetId t1 ++ cs_callsetId t2;
     cs_sampleId := cs_sampleId t1 ++ cs_sampleId t2;
     cs_call_type := cs_call_type t1 ++ cs_call_type t2;
     cs_dataset := cs_dataset t1 ++ cs_dataset t2;
     cs_consent := cs_consent t1 ++ cs_consent t2 |}.

Definition sm_nil : samples_table :=
  {| sm_sampleId := []; sm_sample_name := []; sm_ethnicity := []; sm_birth_sex := [];
     sm_patientId := []; sm_dataset := []; sm_consent := [] |}.

Definition sm_app (t1 t2 : samples_table) : samples_table :=
  {| sm_sampleId := sm_sampleId t1 ++ sm_sampleId t2;
     sm_sample_name := sm_sample_name t1 ++ sm_sample_name t2;
     sm_ethnicity := sm_ethnicity t1 ++ sm_ethnicity t2;
     sm_birth_sex := sm_birth_sex t1 ++ sm_birth_sex t2;
     sm_patientId := sm_patientId t1 ++ sm_patientId t2;
     sm_dataset := sm_dataset t1 ++ sm_dataset t2;
     sm_consent := sm_consent t1 ++ sm_consent t2 |}.

Module SqliteFromParquet.

(** What [pd.read_parquet] raises for a path that is no file. *)
Inductive os_error : Type :=
| FileNotFoundError (path : string).

(** [pd.read_parquet(path, engine='pyarrow')] for the file of one table:
    all its row groups as one data frame. *)
Definition read_parquet {T : Type} (nil : T) (app : T -> T -> T) (path : string)
    (file : option (parquet T)) : os_error + T :=
  match file with
  | Some w =>
      if String.eqb (pq_path w) path then inr (content nil app file)
      else inl (FileNotFoundError path)
  | None => inl (FileNotFoundError path)
  end.

(** The dict [read_tables] returns, its keys in insertion order. *)
Record frames (G : Type) : Type :=
  { f_variants : variant_table; f_callsets : callsets_table; f_samples : samples_table;
    f_gts : gt_table G; f_annotations : annotation_table }.
Arguments f_variants {G} _.
Arguments f_callsets {G} _.
Arguments f_samples {G} _.
Arguments f_gts {G} _.
Arguments f_annotations {G} _.

(** [read_tables(prefix)]: the comprehension reads the files in the
    order variants, callsets, samples, gts, annotations and stops at the
    first that is missing. *)
Definition read_tables {G : Type} (prefix : string) (disk : outputs G)
    : os_error + frames G :=
  match read_parquet vt_nil vt_app (prefix +:+ "_variants.parquet")
          (w_variants (out_writers disk)) with
  | inl e => inl e
  | inr v =>
  match read_parquet cs_nil cs_app (prefix +:+ "_callsets.parquet")
          (out_callsets disk) with
  | inl e => inl e
  | inr c =>
  match read_parquet sm_nil sm_app (prefix +:+ "_samples.parquet")
          (out_samples disk) with
  | inl e => inl e
  | inr s =>
  match read_parquet gt_nil gt_app (prefix +:+ "_gts.parquet")
          (w_gts (out_writers disk)) with
  | inl e => inl e
  | inr g =>
  match read_parquet at_nil at_app (prefix +:+ "_annotations.parquet")
          (w_annotations (out_writers disk)) with
  | inl e => inl e
  | inr a =>
      inr {| f_variants := v; f_callsets := c; f_samples := s; f_gts := g;
             f_annotations := a |}
  end end end end end.

(** A data frame of one of the five tables. *)
Inductive frame (G : Type) : Type :=
| FVariants (t : variant_table)
| FCallsets (t : callsets_table)
| FSamples (t : samples_table)
| FGts (t : gt_table G)
| FAnnotations (t : annotation_table).
Arguments FVariants {G} _.
Arguments FCallsets {G} _.
Arguments FSamples {G} _.
Arguments FGts {G} _.
Arguments FAnnotations {G} _.

(** [tables.items()] of the dict [read_tables] returns. *)
Definition items {G : Type} (fr : frames G) : list (string * frame G) :=
  [("variants", FVariants (f_variants fr)); ("callsets", FCallsets (f_callsets fr));
   ("samples", FSamples (f_samples fr)); ("gts", FGts (f_gts fr));
   ("annotations", FAnnotations (f_annotations fr))].

(** [table.to_sql(tablename, con, index=False)] on a database, the map
    from table names to the frames stored (of any type [V]): with the
    default [if_exists='fail'] an existing table of that name is a
    [ValueError]. The frames are opaque: that sqlite cannot bind a cell
    (a list or tuple, an integer beyond 64 bits) is outside the
    model. *)
Definition to_sql {V : Type} (tablename : string) (table : V) (con : gmap string V)
    : exn + gmap string V :=
  match con !! tablename with
  | Some _ => inl (ValueError ("Table '" +:+ tablename +:+ "' already exists."))
  | None => inr (<[tablename := table]> con)
  end.

(** [pd_to_sql(tables, con)] over the items of the dict. The test
    compares the literal ['tablename'], not the variable, with
    ['variants']; the other branch passes a keyword [dtypes] that
    [to_sql] does not have, a [TypeError]. *)
Fixpoint pd_to_sql {V : Type} (tables : list (string * V)) (con : gmap string V)
    : option exn * gmap string V :=
  match tables with
  | [] => (None, con)
  | (tablename, table) :: rest =>
      let res :=
        if negb (String.eqb "tablename" "variants")
        then to_sql tablename table con
        else inl TypeError in
      match res with
      | inl e => (Some e, con)
      | inr con1 => pd_to_sql rest con1
      end
  end.

(** The script after argument parsing: the prefix, the directory and the
    database the [sqlite] argument names. *)
Definition main {G : Type} (prefix : string) (disk : outputs G) (con : gmap string (frame G))
    : (os_error + option exn) * gmap string (frame G) :=
  match read_tables prefix disk with
  | inl e => (inl e, con)
  | inr tables => let '(e, con1) := pd_to_sql (items tables) con in (inr e, con1)
  end.

End SqliteFromParquet.

(** The database holds the five tables: the rows [rows] of the three
    chunked tables, and callsets and samples tables for the [n] samples
    named [names]. *)
Definition loaded {G : Type} (rows : data_tables G) (names : list string)
    (db : gmap string (SqliteFromParquet.frame G)) : Prop :=
  db !! "variants" = Some (SqliteFromParquet.FVariants (variants rows)) /\
  db !! "annotations" = Some (SqliteFromParquet.FAnnotations (annotations rows)) /\
  db !! "gts" = Some (SqliteFromParquet.FGts (gts rows)) /\
  (exists t, db !! "callsets" = Some (SqliteFromParquet.FCallsets t) /\
             cs_callsetId t = range (length names) /\
             cs_sampleId t = range (length names)) /\
  (exists t, db !! "samples" = Some (SqliteFromParquet.FSamples t) /\
             sm_sampleId t = range (length names) /\ sm_sample_name t = names).

(** ** [tables/tables_from_vcfs.py]

    The first converter, on PyVCF: no chunks, the five tables are
    returned as data frames. *)

(** The fields of a record the variant and annotation rows are made of,
    without calls. *)
Definition site_record (chrom : string) (pos : Z) (ref : string) (alt : list string)
    (info : gmap string info_value) : record :=
  {| CHROM := chrom; POS := pos; REF := ref; ALT := alt; INFO := info;
     gt_types := []; genotypes := [] |}.

Module TablesFromVcfs.

(** A call of a PyVCF record: the name of its sample, the type of the
    genotype ([None] when uncalled, else 0, 1, 2 for hom-ref, het,
    hom-alt) and the allele numbers as the GT text. *)
Record call : Type :=
  { sample : string; gt_type : option Z; gt_nums : option string }.

(** A PyVCF record; [ALT] holds the printed form [str(alt)] of each
    alternate allele. *)
Record vcf_record : Type :=
  { CHROM : string; POS : Z; REF : string; ALT : list string;
    INFO : gmap string info_value; samples : list call }.

(** An opened [vcf.Reader]: the sample names of the header and the
    records. *)
Record Reader : Type :=
  { reader_samples : list string; records : list vcf_record }.

Definition callset_table (samples : list string) (dataset : string) (consent : bool)
    : callsets_table :=
  let n := length samples in
  {| cs_callsetId := range n;
     cs_sampleId := range n;
     cs_call_type := replicate n "germline";
     cs_dataset := replicate n dataset;
     cs_consent := replicate n consent |}.

(** The samples frame of this script has a [call_type] column: the key
    is written twice in the dict, with the same value; it keeps the
    place of its first occurrence. *)
Record samples_frame : Type :=
  { sf_sampleId : list Z; sf_sample_name : list string; sf_call_type : list string;
    sf_ethnicity : list string; sf_birth_sex : list string; sf_patientId : list string;
    sf_dataset : list string; sf_consent : list bool }.

Definition sample_table (samples : list string) (dataset : string) (consent : bool)
    (rnd : mt_state) : samples_frame * mt_state :=
  let n := length samples in
  let '(eth, rnd1) := choices ethnicities None n rnd in
  let '(sex, rnd2) := choices birth_sexes (Some [1000#1; 1000#1; 1#1]%Q) n rnd1 in
  ({| sf_sampleId := range n;
      sf_sample_name := samples;
      sf_call_type := replicate n "germline";
      sf_ethnicity := eth;
      sf_birth_sex := sex;
      sf_patientId := samples;
      sf_dataset := replicate n dataset;
      sf_consent := replicate n consent |}, rnd2).

(** The same text as in [vcf_to_parquet.py]. *)
Definition sample_to_sampleId (samples : list string) : gmap string Z :=
  VcfToParquet.sample_to_sampleId samples.

(** The fields of a record the variant and annotation rows are made
    of, as a record of the other scripts: lines 94-102 are the text of
    lines 159-167 of [vcf_to_parquet.py]. *)
Definition site (r : vcf_record) : record :=
  site_record (CHROM r) (POS r) (REF r) (ALT r) (INFO r).

(** [if sample.gt_type:] holds for the types 1 and 2 only. *)
Definition called (c : call) : bool :=
  match gt_type c with
  | Some t => negb (t =? 0)
  | None => false
  end.

(** Lines 104-109: the loop over [record.samples]. *)
Fixpoint append_calls (sample_map : gmap string Z) (vid : Z) (calls : list call)
    (t : gt_table (option string)) : exn + gt_table (option string) :=
  match calls with
  | [] => inr t
  | c :: rest =>
      if called c then
        try sid := getkey sample_map (sample c) in
        append_calls sample_map vid rest
          {| g_vId := g_vId t ++ [vid];
             g_callsetId := g_callsetId t ++ [sid];
             g_genotype := g_genotype t ++ [gt_nums c] |}
      else append_calls sample_map vid rest t
  end.

(** Lines 94-109: everything one record appends to the three dicts. *)
Definition append_record (sample_map : gmap string Z) (vid : Z) (r : vcf_record)
    (dt : data_tables (option string)) : exn + data_tables (option string) :=
  try v := append_variant vid (site r) (variants dt) in
  try a := VcfToParquet.append_annotation vid (site r) (annotations dt) in
  try g := append_calls sample_map vid (samples r) (gts dt) in
  inr {| variants := v; annotations := a; gts := g |}.

Fixpoint loop (sample_map : gmap string Z) (vid : Z) (recs : list vcf_record)
    (dt : data_tables (option string)) : exn + data_tables (option string) :=
  match recs with
  | [] => inr dt
  | r :: rest =>
      try dt1 := append_record sample_map vid r dt in
      loop sample_map (vid + 1) rest dt1
  end.

(** The dict [tables] returns. *)
Record frames : Type :=
  { fr_callsets : callsets_table; fr_samples : samples_frame;
    fr_annotations : annotation_table; fr_variants : variant_table;
    fr_gts : gt_table (option string) }.

(** [tables(vcfFile, dataset)]; [rnd] is the state of Python's [random]
    module when the call starts. *)
Definition tables (vcf : Reader) (dataset : string) (rnd : mt_state) : exn + frames :=
  let samples := reader_samples vcf in
  let sample_map := sample_to_sampleId samples in
  let callsets := callset_table samples dataset true in
  let '(samples_, _) := sample_table samples dataset true rnd in
  try dt := loop sample_map 0 (records vcf) empty_tables in
  try a := DataFrame_annotations (annotations dt) in
  try v := DataFrame_variants (variants dt) in
  try g := DataFrame_gts (gts dt) in
  inr {| fr_callsets := callsets; fr_samples := samples_; fr_annotations := a;
         fr_variants := v; fr_gts := g |}.

(** A data frame of one of the five tables, the items of the dict in
    its order, and the script called with the [--sqlite] option only:
    [pd_to_sql] has the text of the one in [sqlite_from_parquet.py]. *)
Inductive frame : Type :=
| FCallsets (t : callsets_table)
| FSamples (t : samples_frame)
| FAnnotations (t : annotation_table)
| FVariants (t : variant_table)
| FGts (t : gt_table (option string)).

Definition items (fr : frames) : list (string * frame) :=
  [("callsets", FCallsets (fr_callsets fr)); ("samples", FSamples (fr_samples fr));
   ("annotations", FAnnotations (fr_annotations fr));
   ("variants", FVariants (fr_variants fr)); ("gts", FGts (fr_gts fr))].

Definition main_sqlite (vcf : Reader) (dataset : string) (rnd : mt_state)
    (con : gmap string frame) : option exn * gmap string frame :=
  match tables vcf dataset rnd with
  | inl e => (Some e, con)
  | inr fr => SqliteFromParquet.pd_to_sql (items fr) con
  end.

(** The calls that pass the test of line 105, each with the index of
    its record, in the order of the input. *)
Definition called_calls (vid : Z) (recs : list vcf_record) : list (Z * call) :=
  flat_map (fun p => map (pair (fst p)) (List.filter called (samples (snd p))))
    (enumerate_from vid recs).

(** A call the loop over [record.samples] handles without raising: it
    fails the test, or its sample is a key of the map. *)
Definition call_ok (sample_map : gmap string Z) (c : call) : bool :=
  negb (called c) || bool_decide (is_Some (sample_map !! sample c)).

(** A record the loop body handles without raising. *)
Definition well_formed (sample_map : gmap string Z) (r : vcf_record) : bool :=
  negb (length (ALT r) =? 0)%nat &&
  bool_decide (is_Some (INFO r !! "geneSymbol")) &&
  forallb (call_ok sample_map) (samples r).

(** A record whose cells the database can store: sqlite takes integers
    of 64 bits and strings, not the list of a multi-valued INFO entry. *)
Definition storable (r : vcf_record) : bool :=
  (- 2 ^ 63 <=? POS r) && (POS r <? 2 ^ 63) &&
  match INFO r !! "geneSymbol" with
  | Some (VStr _) => true
  | _ => false
  end.

End TablesFromVcfs.

(** Two samples and two records as PyVCF reads them: a het call beside
    a hom-ref one, then a hom-alt call beside an uncalled one. *)
Definition ex_pyvcf : TablesFromVcfs.Reader :=
  {| TablesFromVcfs.reader_samples := ["NA001"; "NA002"];
     TablesFromVcfs.records :=
       [ {| TablesFromVcfs.CHROM := "1"; TablesFromVcfs.POS := 12345;
            TablesFromVcfs.REF := "A"; TablesFromVcfs.ALT := ["T"; "G"];
            TablesFromVcfs.INFO := {[ "geneSymbol" := VStr "BRCA1" ]};
            TablesFromVcfs.samples :=
              [ {| TablesFromVcfs.sample := "NA001"; TablesFromVcfs.gt_type := Some 0;
                   TablesFromVcfs.gt_nums := Some "0/0" |};
                {| TablesFromVcfs.sample := "NA002"; TablesFromVcfs.gt_type := Some 1;
                   TablesFromVcfs.gt_nums := Some "0/1" |} ] |};
         {| TablesFromVcfs.CHROM := "2"; TablesFromVcfs.POS := 777;
            TablesFromVcfs.REF := "G"; TablesFromVcfs.ALT := ["A"];
            TablesFromVcfs.INFO := {[ "geneSymbol" := VStr "" ]};
            TablesFromVcfs.samples :=
              [ {| TablesFromVcfs.sample := "NA001"; TablesFromVcfs.gt_type := Some 2;
                   TablesFromVcfs.gt_nums := Some "1|1" |};
                {| TablesFromVcfs.sample := "NA002"; TablesFromVcfs.gt_type := None;
                   TablesFromVcfs.gt_nums := None |} ] |} ] |}.
(** * Properties of the shared table code *)

Section Tables.
Context {G : Type}.
Implicit Types (d : data_tables G) (ws : writers G).

Lemma vt_app_nil_l t : vt_app vt_nil t = t.
Proof. by destruct t. Qed.

Lemma vt_app_nil_r t : vt_app t vt_nil = t.
Proof. destruct t; unfold vt_app; simpl; by rewrite !app_nil_r. Qed.

Lemma vt_app_assoc t1 t2 t3 : vt_app (vt_app t1 t2) t3 = vt_app t1 (vt_app t2 t3).
Proof. unfold vt_app; simpl; by rewrite <- !app_assoc. Qed.

Lemma at_app_nil_l t : at_app at_nil t = t.
Proof. by destruct t. Qed.

Lemma at_app_nil_r t : at_app t at_nil = t.
Proof. destruct t; unfold at_app; simpl; by rewrite !app_nil_r. Qed.

Lemma at_app_assoc t1 t2 t3 : at_app (at_app t1 t2) t3 = at_app t1 (at_app t2 t3).
Proof. unfold at_app; simpl; by rewrite <- !app_assoc. Qed.

Lemma gt_app_nil_l (t : gt_table G) : gt_app gt_nil t = t.
Proof. by destruct t. Qed.

Lemma gt_app_nil_r (t : gt_table G) : gt_app t gt_nil = t.
Proof. destruct t; unfold gt_app; simpl; by rewrite !app_nil_r. Qed.

Lemma gt_app_assoc (t1 t2 t3 : gt_table G) :
  gt_app (gt_app t1 t2) t3 = gt_app t1 (gt_app t2 t3).
Proof. unfold gt_app; simpl; by rewrite <- !app_assoc. Qed.

Lemma dt_app_nil_l d : dt_app empty_tables d = d.
Proof.
  destruct d as [v a g]; unfold dt_app; simpl.
  f_equal; [apply vt_app_nil_l | apply at_app_nil_l | apply gt_app_nil_l].
Qed.

Lemma dt_app_nil_r d : dt_app d empty_tables = d.
Proof.
  destruct d as [v a g]; unfold dt_app; simpl.
  f_equal; [apply vt_app_nil_r | apply at_app_nil_r | apply gt_app_nil_r].
Qed.

Lemma dt_app_assoc d1 d2 d3 : dt_app (dt_app d1 d2) d3 = dt_app d1 (dt_app d2 d3).
Proof.
  unfold dt_app; simpl.
  by rewrite vt_app_assoc, at_app_assoc, gt_app_assoc.
Qed.

Lemma dt_ok_empty : dt_ok (@empty_tables G).
Proof. repeat split. Qed.

Lemma dt_ok_app d1 d2 : dt_ok d1 -> dt_ok d2 -> dt_ok (dt_app d1 d2).
Proof.
  unfold dt_ok, vt_ok, at_ok, gt_ok, dt_app; simpl.
  rewrite !length_app. lia.
Qed.

Lemma written_no_writers : written (@no_writers G) = empty_tables.
Proof. reflexivity. Qed.

(** A table whose columns agree in length passes [pd.DataFrame]. *)
Lemma DataFrame_variants_ok t : vt_ok t -> DataFrame_variants t = inr t.
Proof.
  intros (H1 & H2 & H3 & H4). unfold DataFrame_variants.
  rewrite H1, H2, H3, H4, !Nat.eqb_refl. reflexivity.
Qed.

Lemma DataFrame_annotations_ok t : at_ok t -> DataFrame_annotations t = inr t.
Proof.
  intros H. unfold DataFrame_annotations. rewrite H, Nat.eqb_refl. reflexivity.
Qed.

Lemma DataFrame_gts_ok (t : gt_table G) : gt_ok t -> DataFrame_gts t = inr t.
Proof.
  intros (H1 & H2). unfold DataFrame_gts.
  rewrite H1, H2, !Nat.eqb_refl. reflexivity.
Qed.

(** A flush of well-formed buffers does not raise, opens every writer
    with the declared schema and appends the buffers to the files. *)
Lemma update_files_ok sch d ws prefix :
  dt_ok d ->
  exists ws1,
    update_files sch d ws prefix = (None, ws1) /\
    written ws1 = dt_app (written ws) d /\
    (schemas_fixed sch ws -> opened sch ws1).
Proof.
  intros (Hv & Ha & Hg). unfold update_files, update_file.
  rewrite (DataFrame_variants_ok _ Hv). simpl.
  rewrite (DataFrame_annotations_ok _ Ha). simpl.
  rewrite (DataFrame_gts_ok _ Hg). simpl.
  eexists; split; [reflexivity | split].
  - destruct ws as [[wv|] [wa|] [wg|]]; unfold written, dt_app, content; simpl;
      by rewrite ?fold_left_app.
  - intros (F1 & F2 & F3). unfold opened; simpl.
    destruct ws as [[wv|] [wa|] [wg|]]; simpl in *;
      rewrite ?(F1 _ eq_refl), ?(F2 _ eq_refl), ?(F3 _ eq_refl); auto.
Qed.

Lemma opened_fixed sch ws : opened sch ws -> schemas_fixed sch ws.
Proof.
  intros (H1 & H2 & H3). unfold schemas_fixed, schema_of in *.
  repeat split; intros w Hw; rewrite Hw in *; simpl in *; congruence.
Qed.

Lemma no_writers_fixed sch : schemas_fixed sch (@no_writers G).
Proof. repeat split; intros w Hw; discriminate. Qed.

End Tables.

Section Flush.
Context {G : Type}.
Implicit Types (d : data_tables G) (ws : writers G).

(** The chunk test on well-formed buffers: it raises only on a zero
    chunk size; otherwise files followed by buffers hold the same rows
    as before, whether or not a flush took place. *)
Lemma flush_if_due_spec sch prefix c x d ws :
  dt_ok d -> schemas_fixed sch ws ->
  (c = 0 /\ flush_if_due sch prefix c x d ws = (Some ZeroDivisionError, (d, ws))) \/
  (c <> 0 /\ exists d2 ws2,
     flush_if_due sch prefix c x d ws = (None, (d2, ws2)) /\
     dt_app (written ws2) d2 = dt_app (written ws) d /\
     dt_ok d2 /\ schemas_fixed sch ws2 /\
     ((x mod c <> 0 /\ d2 = d /\ ws2 = ws) \/
      (x mod c = 0 /\ d2 = empty_tables /\ opened sch ws2))).
Proof.
  intros Hok Hfix. unfold flush_if_due.
  destruct (Z.eqb_spec c 0) as [->|Hc]; [left; auto | right; split; [done|]].
  destruct (Z.eqb_spec (x mod c) 0) as [Hdue|Hdue].
  - destruct (update_files_ok sch d ws prefix Hok) as (ws1 & -> & Hw & Hop).
    exists empty_tables, ws1. split; [done|].
    rewrite dt_app_nil_r.
    split; [done|]. split; [apply dt_ok_empty|].
    split; [apply opened_fixed; auto|]. right; auto.
  - exists d, ws. split; [done|]. split; [done|]. split; [done|]. split; [done|].
    left; auto.
Qed.

Lemma tied_empty : tied (@empty_tables G).
Proof. by intros _. Qed.

(** The statement after the loop, on well-formed buffers of which the
    other two are empty whenever the variants buffer is. *)
Lemma final_flush_spec sch prefix d ws :
  dt_ok d -> schemas_fixed sch ws -> tied d ->
  exists ws1,
    final_flush sch prefix d ws = (None, ws1) /\
    written ws1 = dt_app (written ws) d /\
    schemas_fixed sch ws1 /\
    ((d = empty_tables /\ ws1 = ws) \/ (v_vId (variants d) <> [] /\ opened sch ws1)).
Proof.
  intros Hok Hfix Hk. unfold final_flush.
  destruct (v_vId (variants d)) as [|v l] eqn:E; simpl.
  - exists ws. rewrite (Hk E), dt_app_nil_r.
    split; [done|]. split; [done|]. split; [done|]. left; auto.
  - destruct (update_files_ok sch d ws prefix Hok) as (ws1 & -> & Hw & Hop).
    exists ws1. split; [done|]. split; [done|].
    split; [apply opened_fixed; auto|]. right. split; [done | auto].
Qed.

End Flush.

(** * Properties of the code shared by the two loops *)

Lemma bind_inr_inv {A B : Type} (m : exn + A) (k : A -> exn + B) (b : B) :
  bind m k = inr b -> exists a, m = inr a /\ k a = inr b.
Proof. destruct m as [e|a]; simpl; [discriminate | eauto]. Qed.

Lemma bind_inl_inv {A B : Type} (m : exn + A) (k : A -> exn + B) (e : exn) :
  bind m k = inl e -> m = inl e \/ exists a, m = inr a /\ k a = inl e.
Proof. destruct m as [e'|a]; simpl; [intros [= ->]; auto | eauto]. Qed.

(** The variant row a record contributes under identifier [vid]. *)
Lemma append_variant_app vid r t :
  append_variant vid r t = try d := append_variant vid r vt_nil in inr (vt_app t d).
Proof. unfold append_variant. destruct (getitem (ALT r) 0); reflexivity. Qed.

Lemma append_variant_nil vid r d :
  append_variant vid r vt_nil = inr d ->
  exists alt0, ALT r !! 0%nat = Some alt0 /\
    d = {| v_vId := [vid]; v_chrom := [CHROM r]; v_pos := [POS r];
           v_ref := [REF r]; v_alt := [alt0] |}.
Proof.
  unfold append_variant, getitem.
  destruct (ALT r !! 0%nat) as [a|]; simpl; [ | discriminate].
  intros [= <-]. eauto.
Qed.

Lemma where_from_length {A : Type} (P : A -> bool) i (l : list A) :
  length (where_from P i l) = length (List.filter P l).
Proof.
  revert i. induction l as [|x l IH]; intros i; simpl; [done|].
  destruct (P x); simpl; by rewrite IH.
Qed.

Lemma where_from_bound {A : Type} (P : A -> bool) i (l : list A) :
  Forall (fun j => (i <= j < i + length l)%nat) (where_from P i l).
Proof.
  revert i. induction l as [|x l IH]; intros i; simpl; [constructor|].
  specialize (IH (S i)).
  assert (Forall (fun j => (i <= j < i + S (length l))%nat) (where_from P (S i) l)).
  { eapply Forall_impl; [exact IH|]. simpl. intros; lia. }
  destruct (P x); [constructor; [lia | done] | done].
Qed.

Lemma np_where_nil_iff {A : Type} (P : A -> bool) (l : list A) :
  np_where P l = [] <-> existsb P l = false.
Proof.
  unfold np_where. generalize 0%nat.
  induction l as [|x l IH]; intros i; simpl; [done|].
  destruct (P x); simpl; [split; discriminate | apply IH].
Qed.

Lemma increasing_app_inv l1 l2 : increasing (l1 ++ l2) -> increasing l1.
Proof.
  induction l1 as [|x l1 IH]; simpl; [done|].
  intros [H1 H2]. split; [ | auto].
  destruct l1; simpl in *; done.
Qed.

Lemma increasing_range_from (i : Z) (n : nat) :
  increasing (map (fun k => i + Z.of_nat k) (seq 0 n)).
Proof.
  generalize 0%nat as s.
  induction n as [|n IH]; intros s; simpl; [done|].
  split; [ | apply IH].
  destruct n; simpl; [done | lia].
Qed.

(** * [vcf_to_parquet.py]: the chunked run against the unchunked rows *)

Module VcfFacts.
Import VcfToParquet.

(** ** The sample map *)

Lemma sample_to_sampleId_fold ss :
  sample_to_sampleId ss = fold_left add_sample (enumerate ss) ∅.
Proof. reflexivity. Qed.

Lemma sample_fold_range (l : list string) : forall i (m : gmap string Z) name v,
  fold_left add_sample (enumerate_from i l) m !! name = Some v ->
  m !! name = Some v \/ i <= v < i + Z.of_nat (length l).
Proof.
  induction l as [|x l IH]; intros i m name v; simpl; [auto|].
  intros H. apply IH in H as [H|H]; [ | right; lia].
  destruct (decide (x = name)) as [->|Hne].
  - rewrite lookup_insert_eq in H. injection H as <-. right; lia.
  - rewrite lookup_insert_ne in H by done. auto.
Qed.

Lemma sample_fold_notin (l : list string) : forall i (m : gmap string Z) name,
  name ∉ l -> fold_left add_sample (enumerate_from i l) m !! name = m !! name.
Proof.
  induction l as [|x l IH]; intros i m name Hn; simpl; [done|].
  apply not_elem_of_cons in Hn as [Hne Hn].
  rewrite IH by done. by rewrite lookup_insert_ne.
Qed.

Lemma sample_fold_nodup (l : list string) : forall i (m : gmap string Z) j name,
  NoDup l -> l !! j = Some name ->
  fold_left add_sample (enumerate_from i l) m !! name = Some (i + Z.of_nat j).
Proof.
  induction l as [|x l IH]; intros i m j name Hnd Hj; [done|].
  apply NoDup_cons in Hnd as [Hx Hnd]. simpl.
  destruct j as [|j]; simpl in Hj.
  - injection Hj as ->. rewrite sample_fold_notin by done.
    rewrite lookup_insert_eq. f_equal; lia.
  - rewrite (IH (i + 1) _ j name Hnd Hj). f_equal; lia.
Qed.

(** Every identifier in the map is the position of a sample. *)
Lemma sample_map_range ss name v :
  sample_to_sampleId ss !! name = Some v -> 0 <= v < Z.of_nat (length ss).
Proof.
  rewrite sample_to_sampleId_fold. unfold enumerate. intros H.
  apply sample_fold_range in H as [H|H]; [ | lia].
  by rewrite lookup_empty in H.
Qed.

(** With distinct names, a sample maps to its own position. *)
Lemma sample_map_nodup ss j name :
  NoDup ss -> ss !! j = Some name -> sample_to_sampleId ss !! name = Some (Z.of_nat j).
Proof.
  intros Hnd Hj. rewrite sample_to_sampleId_fold. unfold enumerate.
  by rewrite (sample_fold_nodup ss 0 ∅ j name Hnd Hj).
Qed.

(** ** What one record appends *)

Section Record.
Variables (ss : list string) (M : gmap string Z).

Lemma append_annotation_app vid r t :
  append_annotation vid r t =
  try d := append_annotation vid r at_nil in inr (at_app t d).
Proof.
  unfold append_annotation. destruct (getkey (INFO r) "geneSymbol") as [e|g]; simpl; [done|].
  destruct (truthy g); simpl; [done|]. by rewrite at_app_nil_r.
Qed.

Lemma append_calls_app vid r hs : forall t,
  append_calls ss M vid r hs t =
  try d := append_calls ss M vid r hs gt_nil in inr (gt_app t d).
Proof.
  induction hs as [|idx hs IH]; intros t; simpl.
  - by rewrite gt_app_nil_r.
  - destruct (getitem ss idx) as [e|name]; simpl; [done|].
    destruct (getkey M name) as [e|sid]; simpl; [done|].
    destruct (getitem (genotypes r) idx) as [e|g]; simpl; [done|].
    destruct (gt_string g) as [e|gt]; simpl; [done|].
    rewrite IH. symmetry. rewrite IH.
    destruct (append_calls ss M vid r hs gt_nil) as [e|d]; simpl; [done|].
    f_equal. unfold gt_app; simpl. by rewrite <- !app_assoc.
Qed.

Lemma append_record_app vid r d :
  append_record ss M vid r d =
  try d1 := record_rows ss M vid r in inr (dt_app d d1).
Proof.
  unfold record_rows, append_record.
  change (variants empty_tables) with vt_nil.
  change (annotations empty_tables) with at_nil.
  change (gts empty_tables) with (@gt_nil string).
  rewrite (append_variant_app vid r (variants d)).
  destruct (append_variant vid r vt_nil) as [e|v]; simpl; [done|].
  rewrite (append_annotation_app vid r (annotations d)).
  destruct (append_annotation vid r at_nil) as [e|a]; simpl; [done|].
  rewrite (append_calls_app vid r _ (gts d)).
  destruct (append_calls ss M vid r _ gt_nil) as [e|g]; simpl; [done|].
  reflexivity.
Qed.

(** The genotype rows of a record: one per informative sample, all
    under the record's identifier, each naming a mapped sample. *)
Lemma append_calls_nil vid r hs : forall d,
  append_calls ss M vid r hs gt_nil = inr d ->
  g_vId d = replicate (length hs) vid /\
  length (g_callsetId d) = length hs /\
  length (g_genotype d) = length hs /\
  Forall (fun sid => exists name, M !! name = Some sid) (g_callsetId d).
Proof.
  induction hs as [|idx hs IH]; intros d; simpl.
  - intros [= <-]. simpl. auto.
  - intros H.
    apply bind_inr_inv in H as (name & _ & H).
    apply bind_inr_inv in H as (sid & Hsid & H).
    apply bind_inr_inv in H as (g & _ & H).
    apply bind_inr_inv in H as (gt & _ & H).
    rewrite append_calls_app in H.
    apply bind_inr_inv in H as (d1 & Hd1 & [= <-]).
    destruct (IH _ Hd1) as (H1 & H2 & H3 & H4). simpl.
    rewrite H1, H2, H3. repeat split; auto.
    constructor; [ | done].
    exists name. unfold getkey in Hsid. by destruct (M !! name) as [s|]; simplify_eq.
Qed.

(** The shape of the rows of one record. *)
Lemma record_rows_inv vid r d :
  record_rows ss M vid r = inr d ->
  exists alt0 gene g,
    ALT r !! 0%nat = Some alt0 /\
    INFO r !! "geneSymbol" = Some gene /\
    append_calls ss M vid r (np_where (fun t => t mod 2 =? 1) (gt_types r)) gt_nil = inr g /\
    d = {| variants := {| v_vId := [vid]; v_chrom := [CHROM r]; v_pos := [POS r];
                          v_ref := [REF r]; v_alt := [alt0] |};
           annotations := if truthy gene
                          then {| a_vId := [vid]; a_geneSymbol := [gene] |}
                          else at_nil;
           gts := g |}.
Proof.
  unfold record_rows, append_record.
  change (variants empty_tables) with vt_nil.
  change (annotations empty_tables) with at_nil.
  change (gts empty_tables) with (@gt_nil string).
  intros H.
  apply bind_inr_inv in H as (v & Hv & H).
  apply bind_inr_inv in H as (a & Ha & H).
  apply bind_inr_inv in H as (g & Hg & [= <-]).
  apply append_variant_nil in Hv as (alt0 & Halt & ->).
  unfold append_annotation, getkey in Ha.
  destruct (INFO r !! "geneSymbol") as [gene|] eqn:E; simpl in Ha; [ | discriminate].
  exists alt0, gene, g. repeat split; auto.
  destruct (truthy gene); by injection Ha as <-.
Qed.

Lemma record_rows_ok vid r d : record_rows ss M vid r = inr d -> dt_ok d.
Proof.
  intros H. apply record_rows_inv in H as (alt0 & gene & g & _ & _ & Hg & ->).
  apply append_calls_nil in Hg as (H1 & H2 & H3 & _).
  unfold dt_ok, vt_ok, at_ok, gt_ok; simpl.
  rewrite H1, H2, H3, length_replicate.
  destruct (truthy gene); simpl; auto 10.
Qed.

Lemma record_rows_vId vid r d :
  record_rows ss M vid r = inr d -> v_vId (variants d) = [vid].
Proof.
  intros H. by apply record_rows_inv in H as (alt0 & gene & g & _ & _ & _ & ->).
Qed.

End Record.
(** ** The loop *)

Section Loop.
Variables (ss : list string) (M : gmap string Z) (prefix : string) (c : Z).

Lemma all_rows_vId recs : forall vid rows,
  all_rows ss M vid recs = inr rows ->
  dt_ok rows /\
  v_vId (variants rows) = map (fun k => vid + Z.of_nat k) (seq 0 (length recs)).
Proof.
  induction recs as [|r recs IH]; intros vid rows; simpl.
  - intros [= <-]. split; [apply dt_ok_empty | done].
  - intros H. apply bind_inr_inv in H as (d1 & Hd1 & H).
    apply bind_inr_inv in H as (ds & Hds & [= <-]).
    destruct (IH _ _ Hds) as [Hok Hv]. split.
    + apply dt_ok_app; [by eapply record_rows_ok | done].
    + simpl. rewrite (record_rows_vId _ _ _ _ _ Hd1), Hv. simpl.
      f_equal; [lia|]. rewrite <- seq_shift, map_map.
      apply map_ext. intros; lia.
Qed.

(** The chunked loop against the unchunked rows. When the loop ends
    normally, files followed by buffers hold what they held before
    followed by the rows of all records. When it raises, the files are a
    column-wise prefix of the rows of the records before the failing
    one, and the exception is the one the failing record raises (or the
    division by a zero chunk size). *)
Lemma loop_spec recs : forall vid d ws,
  dt_ok d -> tied d -> schemas_fixed get_schemas ws ->
  match loop ss M prefix c vid recs d ws with
  | (None, (d', ws')) =>
      exists rows,
        all_rows ss M vid recs = inr rows /\
        dt_app (written ws') d' = dt_app (dt_app (written ws) d) rows /\
        dt_ok d' /\ tied d' /\ schemas_fixed get_schemas ws' /\
        ((ws' = ws /\ d' = dt_app d rows) \/ opened get_schemas ws')
  | (Some e, (_, ws')) =>
      exists k rows rest r,
        all_rows ss M vid (take k recs) = inr rows /\
        dt_app (written ws') rest = dt_app (dt_app (written ws) d) rows /\
        recs !! k = Some r /\
        schemas_fixed get_schemas ws' /\
        (record_rows ss M (vid + Z.of_nat k) r = inl e \/
         (e = ZeroDivisionError /\ c = 0))
  end.
Proof.
  induction recs as [|r recs IH]; intros vid d ws Hok Ht Hfix; simpl.
  - exists empty_tables. rewrite !dt_app_nil_r. auto 10.
  - rewrite append_record_app.
    destruct (record_rows ss M vid r) as [e|d1] eqn:Hr; simpl.
    + exists 0%nat, empty_tables, d, r. simpl.
      rewrite dt_app_nil_r, Z.add_0_r. auto 10.
    + assert (Hok1 : dt_ok (dt_app d d1)).
      { apply dt_ok_app; [done | by eapply record_rows_ok]. }
      destruct (flush_if_due_spec get_schemas prefix c (vid + 1) _ ws Hok1 Hfix)
        as [[Hc0 ->] | (Hc & d2 & ws2 & -> & Hw & Hok2 & Hfix2 & Hcase)].
      * exists 0%nat, empty_tables, d, r. simpl. rewrite dt_app_nil_r. auto 10.
      * assert (Ht2 : tied d2).
        { destruct Hcase as [(_ & -> & _) | (_ & -> & _)]; [ | apply tied_empty].
          intros Hnil. simpl in Hnil.
          rewrite (record_rows_vId _ _ _ _ _ Hr) in Hnil.
          by destruct (v_vId (variants d)). }
        specialize (IH (vid + 1) d2 ws2 Hok2 Ht2 Hfix2).
        destruct (loop ss M prefix c (vid + 1) recs d2 ws2) as [[e|] [d' ws']].
        -- destruct IH as (k & rows & rest & r' & Hrows & Heq & Hk & Hfix' & He).
           exists (S k), (dt_app d1 rows), rest, r'. simpl.
           rewrite Hr. simpl. rewrite Hrows. simpl.
           split; [done|]. split.
           { rewrite Heq, Hw, !dt_app_assoc. done. }
           split; [done|]. split; [done|].
           replace (vid + Z.of_nat (S k)) with (vid + 1 + Z.of_nat k) by lia. done.
        -- destruct IH as (rows & Hrows & Heq & Hok' & Ht' & Hfix' & Hop).
           exists (dt_app d1 rows). rewrite Hrows. simpl.
           split; [done|]. split.
           { rewrite Heq, Hw, !dt_app_assoc. done. }
           split; [done|]. split; [done|]. split; [done|].
           destruct Hop as [[-> ->] | Hop]; [ | by right].
           destruct Hcase as [(_ & -> & ->) | (_ & -> & Hop)].
           ++ left. by rewrite dt_app_assoc.
           ++ by right.
Qed.

End Loop.

(** ** The whole run *)

Lemma all_rows_lookup ss M recs : forall vid rows k r,
  all_rows ss M vid recs = inr rows -> recs !! k = Some r ->
  exists d, record_rows ss M (vid + Z.of_nat k) r = inr d.
Proof.
  induction recs as [|r0 recs IH]; intros vid rows k r; simpl; [done|].
  intros H Hk. apply bind_inr_inv in H as (d1 & Hd1 & H).
  apply bind_inr_inv in H as (ds & Hds & _).
  destruct k as [|k]; simpl in Hk.
  - injection Hk as <-. rewrite Z.add_0_r. eauto.
  - replace (vid + Z.of_nat (S k)) with (vid + 1 + Z.of_nat k) by lia. eauto.
Qed.

(** What a run leaves behind, against the unchunked rows of its input. *)
Lemma tables_spec vcf dataset prefix c rnd :
  let ss := samples vcf in
  let M := sample_to_sampleId ss in
  let '(e, out) := tables vcf dataset prefix c rnd in
  out_callsets out = Some (write_callset_table ss dataset prefix true) /\
  out_samples out = Some (fst (write_sample_table ss dataset prefix true rnd)) /\
  schemas_fixed get_schemas (out_writers out) /\
  match e with
  | None =>
      exists rows,
        all_rows ss M 0 (records vcf) = inr rows /\
        written (out_writers out) = rows /\
        ((records vcf = [] /\ out_writers out = no_writers) \/
         (records vcf <> [] /\ opened get_schemas (out_writers out)))
  | Some e =>
      exists k rows rest r,
        all_rows ss M 0 (take k (records vcf)) = inr rows /\
        dt_app (written (out_writers out)) rest = rows /\
        records vcf !! k = Some r /\
        (record_rows ss M (Z.of_nat k) r = inl e \/ (e = ZeroDivisionError /\ c = 0))
  end.
Proof.
  intros ss M. unfold tables. fold ss M.
  destruct (write_sample_table ss dataset prefix true rnd) as [sf rnd1]. simpl.
  destruct (records vcf) as [|r0 recs] eqn:Erecs.
  { simpl. split; [done|]. split; [done|]. split; [apply no_writers_fixed|].
    exists empty_tables. auto. }
  rewrite <- Erecs.
  pose proof (loop_spec ss M prefix c (records vcf) 0 empty_tables no_writers
                dt_ok_empty tied_empty (no_writers_fixed _)) as H.
  destruct (loop ss M prefix c 0 (records vcf) empty_tables no_writers)
    as [[e|] [d' ws']].
  - simpl. destruct H as (k & rows & rest & r & Hrows & Heq & Hk & Hfix & He).
    split; [done|]. split; [done|]. split; [done|].
    exists k, rows, rest, r.
    rewrite written_no_writers, !dt_app_nil_l in Heq. auto.
  - destruct H as (rows & Hrows & Heq & Hok & Ht & Hfix & Hop).
    destruct (final_flush_spec get_schemas prefix d' ws' Hok Hfix Ht)
      as (ws1 & -> & Hw & Hfix1 & Hcase).
    simpl. split; [done|]. split; [done|]. split; [done|].
    exists rows. split; [done|].
    rewrite written_no_writers, !dt_app_nil_l in Heq.
    split; [by rewrite Hw|].
    destruct (all_rows_vId _ _ _ _ _ Hrows) as [_ Hv].
    right. split; [by rewrite Erecs|].
    destruct Hcase as [[-> ->] | [_ Hop1]]; [ | done].
    destruct Hop as [[-> Hd] | Hop]; [ | done].
    rewrite dt_app_nil_l in Hd. subst rows. rewrite Erecs in Hv. discriminate.
Qed.

(** A run whose records all decode, with a non-zero chunk size (or no
    record at all), ends normally. *)
Lemma tables_complete vcf dataset prefix c rnd rows :
  all_rows (samples vcf) (sample_to_sampleId (samples vcf)) 0 (records vcf) = inr rows ->
  c <> 0 \/ records vcf = [] ->
  exists out,
    tables vcf dataset prefix c rnd = (None, out) /\
    written (out_writers out) = rows /\
    out_callsets out = Some (write_callset_table (samples vcf) dataset prefix true) /\
    out_samples out = Some (fst (write_sample_table (samples vcf) dataset prefix true rnd)) /\
    ((records vcf = [] /\ out_writers out = no_writers) \/
     (records vcf <> [] /\ opened get_schemas (out_writers out))).
Proof.
  intros Hrows Hc.
  pose proof (tables_spec vcf dataset prefix c rnd) as H. simpl in H.
  destruct (tables vcf dataset prefix c rnd) as [[e|] out].
  - exfalso. destruct H as (_ & _ & _ & k & rows' & rest & r & _ & _ & Hk & He).
    destruct He as [He | [_ Hc0]].
    + destruct (all_rows_lookup _ _ _ _ _ _ _ Hrows Hk) as [d Hd].
      rewrite Z.add_0_l in Hd. congruence.
    + destruct Hc as [Hc | Hnil]; [done|]. by rewrite Hnil in Hk.
  - destruct H as (Hcs & Hsm & _ & rows' & Hrows' & Hw & Hcase).
    exists out. rewrite Hrows in Hrows'. injection Hrows' as <-. auto 10.
Qed.

(** ** Well-formed input *)

Lemma sample_fold_in (l : list string) : forall i (m : gmap string Z) name,
  name ∈ l -> is_Some (fold_left add_sample (enumerate_from i l) m !! name).
Proof.
  induction l as [|x l IH]; intros i m name Hin; [by apply elem_of_nil in Hin|].
  simpl. destruct (decide (name ∈ l)) as [Hl|Hl]; [by apply IH|].
  apply elem_of_cons in Hin as [-> | Hin]; [ | done].
  rewrite sample_fold_notin by done. rewrite lookup_insert_eq. eauto.
Qed.

Lemma sample_map_total ss name :
  name ∈ ss -> is_Some (sample_to_sampleId ss !! name).
Proof. intros H. rewrite sample_to_sampleId_fold. by apply sample_fold_in. Qed.




(** The genotype rows of the unchunked run name mapped samples only,
    and there is one per informative call. *)
Lemma all_rows_gts ss M recs : forall vid rows,
  all_rows ss M vid recs = inr rows ->
  Forall (fun sid => exists name, M !! name = Some sid) (g_callsetId (gts rows)) /\
  length (g_vId (gts rows)) =
    length (concat (map (fun r => np_where (fun t => t mod 2 =? 1) (gt_types r)) recs)).
Proof.
  induction recs as [|r recs IH]; intros vid rows; simpl.
  - intros [= <-]. split; [constructor | done].
  - intros H. apply bind_inr_inv in H as (d1 & Hd1 & H).
    apply bind_inr_inv in H as (ds & Hds & [= <-]).
    destruct (IH _ _ Hds) as [H1 H2].
    apply record_rows_inv in Hd1 as (alt0 & gene & g & _ & _ & Hg & ->).
    apply append_calls_nil in Hg as (G1 & G2 & G3 & G4). simpl.
    split; [by apply Forall_app|].
    rewrite !length_app, H2, G1, length_replicate. done.
Qed.

End VcfFacts.

(** * [parquet_from_gnomad.py]: the sampler *)

Module GnomadFacts.
Import Gnomad.

Lemma random_double_unit st :
  (0 <= fst (random_double st))%Q /\ (fst (random_double st) < 1)%Q.
Proof.
  unfold random_double, Qle, Qlt. cbn [fst Qnum Qden].
  pose proof (Z.mod_pos_bound (mt_bits st (mt_pos st)) two53 eq_refl) as H.
  assert (E : Z.pos (Z.to_pos two53) = two53) by (vm_compute; reflexivity).
  rewrite E. revert H. generalize (mt_bits st (mt_pos st) mod two53), two53.
  intros; lia.
Qed.

Lemma random_sample_spec k : forall st,
  length (fst (random_sample k st)) = k /\
  mt_pos (snd (random_sample k st)) = (mt_pos st + k)%nat /\
  mt_bits (snd (random_sample k st)) = mt_bits st /\
  Forall (fun u => (0 <= u)%Q /\ (u < 1)%Q) (fst (random_sample k st)).
Proof.
  induction k as [|k IH]; intros st; cbn [random_sample].
  - cbn [fst snd length]. repeat split; [lia | constructor].
  - pose proof (random_double_unit st) as Hu.
    destruct (random_double st) as [u st1] eqn:E1.
    assert (Hpos : mt_pos st1 = S (mt_pos st) /\ mt_bits st1 = mt_bits st).
    { unfold random_double in E1. by injection E1 as _ <-. }
    destruct (IH st1) as (H1 & H2 & H3 & H4).
    destruct (random_sample k st1) as [us st2]. cbn [fst snd length] in *.
    destruct Hpos as [Hp Hb].
    repeat split; [lia | lia | congruence | by constructor].
Qed.

Lemma fancy_index_spec {A : Type} (a : list A) idx : forall l,
  fancy_index a idx = inr l ->
  length l = length idx /\ Forall (fun x => x ∈ a) l.
Proof.
  induction idx as [|i idx IH]; intros l; simpl.
  - intros [= <-]. split; [done | constructor].
  - intros H. apply bind_inr_inv in H as (x & Hx & H).
    apply bind_inr_inv in H as (xs & Hxs & [= <-]).
    destruct (IH _ Hxs) as [H1 H2]. simpl. split; [lia|].
    constructor; [ | done].
    unfold getitem in Hx. destruct (a !! i) as [y|] eqn:E; [ | done].
    injection Hx as <-. by eapply list_elem_of_lookup_2.
Qed.

(** Indexing an array by the positions [np.where] returns is filtering. *)
Lemma fancy_index_where {A : Type} (P : A -> bool) (l : list A) : forall pre,
  fancy_index (pre ++ l) (where_from P (length pre) l) = inr (List.filter P l).
Proof.
  induction l as [|x l IH]; intros pre; simpl; [done|].
  specialize (IH (pre ++ [x])%list).
  rewrite length_app, <- app_assoc in IH. simpl in IH.
  rewrite Nat.add_1_r in IH.
  destruct (P x); [ | done]. simpl.
  unfold getitem. rewrite list_lookup_middle by done. simpl.
  by rewrite IH.
Qed.

Lemma fancy_index_np_where {A : Type} (P : A -> bool) (l : list A) :
  fancy_index l (np_where P l) = inr (List.filter P l).
Proof. apply (fancy_index_where P l []). Qed.

(** A successful draw has one code per sample, each taken from [a]. *)
Lemma np_random_choice_spec a size p st g st' :
  np_random_choice a size p st = (inr g, st') ->
  0 <= size /\ length g = Z.to_nat size /\ Forall (fun x => x ∈ a) g /\
  mt_pos st' = (mt_pos st + Z.to_nat size)%nat /\ mt_bits st' = mt_bits st.
Proof.
  unfold np_random_choice.
  destruct (negb _); [discriminate|].
  destruct (existsb _ p); [discriminate|].
  destruct (Qlt_bool atol _); [discriminate|].
  destruct (Z.ltb_spec size 0) as [Hs|Hs]; [discriminate|].
  destruct (random_sample_spec (Z.to_nat size) st) as (H1 & H2 & H3 & _).
  destruct (random_sample (Z.to_nat size) st) as [us st1]. simpl in *.
  intros [= Hg <-].
  apply fancy_index_spec in Hg as [Hl Hin].
  rewrite length_map in Hl. repeat split; auto; lia.
Qed.

(** The checks on the probabilities reject a negative entry before any
    random number is drawn. *)
Lemma np_random_choice_negative a size p st :
  length p = length a ->
  existsb (fun x => Qlt_bool x 0) p = true ->
  np_random_choice a size p st =
  (inl (ValueError "probabilities are not non-negative"), st).
Proof.
  intros Hl Hneg. unfold np_random_choice.
  rewrite Hl, Nat.eqb_refl, Hneg. reflexivity.
Qed.

Lemma fancy_index_total {A : Type} (a : list A) idx :
  Forall (fun i => (i < length a)%nat) idx -> exists l, fancy_index a idx = inr l.
Proof.
  induction 1 as [|i idx Hi _ [l IH]]; simpl; [eauto|].
  unfold getitem. destruct (lookup_lt_is_Some_2 a i Hi) as [x ->]. simpl.
  rewrite IH. simpl. eauto.
Qed.

Lemma bisect_right_3 c1 c2 c3 u :
  Qle_bool c3 u = false -> (bisect_right [c1; c2; c3] u < 3)%nat.
Proof.
  intros H. simpl. rewrite H.
  destruct (Qle_bool c1 u), (Qle_bool c2 u); lia.
Qed.

Lemma Qlt_bool_false x y : (y <= x)%Q -> Qlt_bool x y = false.
Proof. intros H. unfold Qlt_bool. apply Qle_bool_iff in H. by rewrite H. Qed.

Lemma Qlt_bool_true x y : (x < y)%Q -> Qlt_bool x y = true.
Proof.
  intros H. unfold Qlt_bool. destruct (Qle_bool y x) eqn:E; [ | done].
  apply Qle_bool_iff in E. exfalso. by apply (Qlt_not_le x y).
Qed.

(** The Hardy-Weinberg probabilities of a frequency between 0 and 1
    pass numpy's checks. *)
Lemma hardy_weinberg_valid q :
  (0 <= q)%Q -> (q <= 1)%Q ->
  existsb (fun x => Qlt_bool x 0) (hardy_weinberg q) = false /\
  Qlt_bool atol (Qabs (Qsum (hardy_weinberg q) - 1)) = false.
Proof.
  intros H0 H1. unfold hardy_weinberg. split.
  - cbn [existsb]. rewrite !Qlt_bool_false; [done | nra | nra | nra].
  - apply Qlt_bool_false. unfold Qsum. cbn [fold_left].
    assert (E : (0 + (1 - q) * (1 - q) + 2 * (1 - q) * q + q * q - 1 == 0)%Q) by ring.
    setoid_rewrite E. done.
Qed.

(** A frequency outside the range from 0 to 1 gives a negative
    heterozygote probability. *)
Lemma hardy_weinberg_invalid q :
  (q < 0)%Q \/ (1 < q)%Q ->
  existsb (fun x => Qlt_bool x 0) (hardy_weinberg q) = true.
Proof.
  intros H. unfold hardy_weinberg. cbn [existsb].
  assert (Hneg : (2 * (1 - q) * q < 0)%Q) by (destruct H; nra).
  rewrite (Qlt_bool_true _ _ Hneg). by rewrite orb_true_r.
Qed.

(** The draw succeeds for a frequency between 0 and 1 and a
    non-negative number of samples. *)
Lemma np_random_choice_hw q n rnd :
  (0 <= q)%Q -> (q <= 1)%Q -> 0 <= n ->
  exists g, np_random_choice [0; 1; 3] n (hardy_weinberg q) rnd =
            (inr g, snd (random_sample (Z.to_nat n) rnd)).
Proof.
  intros H0 H1 Hn. unfold np_random_choice.
  destruct (hardy_weinberg_valid q H0 H1) as [-> ->].
  change (negb (length (hardy_weinberg q) =? length [0; 1; 3])%nat) with false.
  destruct (Z.ltb_spec n 0) as [?|_]; [lia|]. cbv iota.
  destruct (random_sample_spec (Z.to_nat n) rnd) as (_ & _ & _ & Hu).
  destruct (random_sample (Z.to_nat n) rnd) as [us rnd1]. cbn [fst snd] in *.
  match goal with |- context [fancy_index ?a ?idx] =>
    destruct (fancy_index_total a idx) as [g Hg]; [ | rewrite Hg; eauto] end.
  apply Forall_map. eapply Forall_impl; [exact Hu|].
  intros u [_ Hu1]. unfold hardy_weinberg, cumsum. cbn [cumsum_from map List.last].
  apply bisect_right_3.
  destruct (Qle_bool _ u) eqn:E; [ | done].
  apply Qle_bool_iff in E. exfalso. apply (Qlt_not_le _ _ Hu1).
  assert (Et : (0 + (1 - q) * (1 - q) + 2 * (1 - q) * q + q * q == 1)%Q) by ring.
  setoid_rewrite Et in E. exact E.
Qed.

(** ** What one record appends *)

Lemma append_record_eq cnt r g d :
  append_record cnt r g d =
  if present g then
    match ALT r !! 0%nat with
    | Some alt0 => inr (Some (dt_app d (rows_of cnt r alt0 g)))
    | None => inl IndexError
    end
  else inr None.
Proof.
  unfold append_record, present. rewrite fancy_index_np_where. simpl.
  destruct (existsb (fun x => 0 <? x) g) eqn:E.
  - destruct (np_where (fun x => 0 <? x) g) as [|i l] eqn:Ew.
    { apply np_where_nil_iff in Ew. congruence. }
    simpl. unfold append_variant, getitem.
    destruct (ALT r !! 0%nat) as [alt0|]; simpl; [ | done].
    unfold dt_app, rows_of, vt_app, gt_app; simpl. rewrite Ew. simpl.
    destruct d as [v a gt]; simpl. by rewrite at_app_nil_r.
  - apply np_where_nil_iff in E. by rewrite E.
Qed.

Lemma rows_of_ok cnt r alt0 g : dt_ok (rows_of cnt r alt0 g).
Proof.
  unfold dt_ok, vt_ok, at_ok, gt_ok, rows_of; simpl.
  rewrite length_replicate, length_map. unfold np_where.
  rewrite where_from_length. auto 10.
Qed.

(** A successful draw: one code per sample, each 0, 1 or 3. *)
Lemma sample_genotypes_spec nsamples r rnd g rnd1 :
  sample_genotypes nsamples r rnd = (inr (Some g), rnd1) ->
  0 <= nsamples /\ length g = Z.to_nat nsamples /\
  Forall (fun x => x ∈ [0; 1; 3]) g /\
  mt_pos rnd1 = (mt_pos rnd + Z.to_nat nsamples)%nat /\ mt_bits rnd1 = mt_bits rnd.
Proof.
  unfold sample_genotypes.
  destruct (INFO r !! "AF") as [af|]; [ | discriminate].
  destruct (negb (truthy af)); [discriminate|].
  destruct (to_float af) as [e|q]; [discriminate|].
  destruct (np_random_choice [0; 1; 3] nsamples (hardy_weinberg q) rnd)
    as [[e|g'] rnd'] eqn:E; [discriminate|].
  intros [= <- <-]. by apply np_random_choice_spec in E.
Qed.

(** The shape of the rows of an emitted record. *)
Lemma syn_record_rows_inv nsamples cnt r rnd d rnd1 :
  record_rows nsamples cnt r rnd = (inr (Some d), rnd1) ->
  exists g alt0,
    sample_genotypes nsamples r rnd = (inr (Some g), rnd1) /\
    present g = true /\ ALT r !! 0%nat = Some alt0 /\
    d = rows_of (cnt + 1) r alt0 g.
Proof.
  unfold record_rows.
  destruct (sample_genotypes nsamples r rnd) as [[e|[g|]] rnd'];
    [discriminate | | discriminate].
  rewrite append_record_eq.
  destruct (present g) eqn:Ep; [ | discriminate].
  destruct (ALT r !! 0%nat) as [alt0|]; [ | discriminate].
  rewrite dt_app_nil_l. intros [= <- <-]. eauto 10.
Qed.

(** A skipped record: no allele frequency, or no present genotype. *)
Lemma record_rows_skip nsamples cnt r rnd rnd1 :
  record_rows nsamples cnt r rnd = (inr None, rnd1) ->
  (sample_genotypes nsamples r rnd = (inr None, rnd1)) \/
  (exists g, sample_genotypes nsamples r rnd = (inr (Some g), rnd1) /\ present g = false).
Proof.
  unfold record_rows.
  destruct (sample_genotypes nsamples r rnd) as [[e|[g|]] rnd'];
    [discriminate | | intros [= <-]; auto].
  rewrite append_record_eq.
  destruct (present g) eqn:Ep.
  - destruct (ALT r !! 0%nat); discriminate.
  - intros [= <-]. eauto.
Qed.

(** ** The loop *)

Section Loop.
Variables (nsamples : Z) (prefix : string) (c : Z).

(** One iteration against the rows of its record. *)
Lemma step_spec r st :
  dt_ok (data st) -> schemas_fixed get_schemas (ws st) ->
  match record_rows nsamples (count st) r (np_rnd st) with
  | (inl e, rnd1) => step nsamples prefix c r st = (Some e, set_rnd st rnd1)
  | (inr None, rnd1) => step nsamples prefix c r st = (None, set_rnd st rnd1)
  | (inr (Some d), rnd1) =>
      (c = 0 /\ exists st1,
         step nsamples prefix c r st = (Some ZeroDivisionError, st1) /\ ws st1 = ws st) \/
      (c <> 0 /\ exists d2 ws2,
         step nsamples prefix c r st =
           (None, {| count := count st + 1; data := d2; ws := ws2; np_rnd := rnd1 |}) /\
         dt_app (written ws2) d2 = dt_app (written (ws st)) (dt_app (data st) d) /\
         dt_ok d2 /\ tied d2 /\ schemas_fixed get_schemas ws2 /\
         ((d2 = dt_app (data st) d /\ ws2 = ws st) \/
          (d2 = empty_tables /\ opened get_schemas ws2 /\
           v_vId (variants (written ws2)) <> [])))
  end.
Proof.
  intros Hok Hfix. unfold step, record_rows.
  destruct (sample_genotypes nsamples r (np_rnd st)) as [[e|[g|]] rnd1]; [done | | done].
  rewrite !append_record_eq.
  destruct (present g); [ | done].
  destruct (ALT r !! 0%nat) as [alt0|]; [ | done].
  rewrite dt_app_nil_l.
  set (d := rows_of (count st + 1) r alt0 g).
  assert (Hok1 : dt_ok (dt_app (data st) d)).
  { apply dt_ok_app; [done | apply rows_of_ok]. }
  destruct (flush_if_due_spec get_schemas prefix c
              (Z.of_nat (length (v_vId (variants (dt_app (data st) d)))))
              _ (ws st) Hok1 Hfix)
    as [[Hc0 ->] | (Hc & d2 & ws2 & -> & Hw & Hok2 & Hfix2 & Hcase)].
  - left. split; [done|]. eexists. split; [reflexivity | done].
  - right. split; [done|]. exists d2, ws2.
    split; [done|]. split; [done|]. split; [done|]. split.
    { destruct Hcase as [(_ & -> & _) | (_ & -> & _)]; [ | apply tied_empty].
      intros Hnil. simpl in Hnil. by destruct (v_vId (variants (data st))). }
    split; [done|].
    destruct Hcase as [(_ & -> & ->) | (_ & -> & Hop)]; [auto|].
    right. split; [done|]. split; [done|].
    intros Hnil. apply (f_equal (fun t => length (v_vId (variants t)))) in Hw.
    unfold d, rows_of, dt_app, vt_app in Hw. cbn [variants v_vId] in Hw.
    rewrite Hnil, !length_app in Hw. simpl in Hw. lia.
Qed.

Lemma loop_app recs1 recs2 : forall st,
  loop nsamples prefix c (recs1 ++ recs2) st =
  match loop nsamples prefix c recs1 st with
  | (Some e, st1) => (Some e, st1)
  | (None, st1) => loop nsamples prefix c recs2 st1
  end.
Proof.
  induction recs1 as [|r recs1 IH]; intros st; simpl; [done|].
  destruct (step nsamples prefix c r st) as [[e|] st1]; [done | apply IH].
Qed.

(** The chunked loop against the unchunked rows (see the same lemma for
    [vcf_to_parquet.py]); the count and the generator advance as in the
    unchunked run. *)
Lemma syn_loop_spec recs : forall st,
  dt_ok (data st) -> tied (data st) -> schemas_fixed get_schemas (ws st) ->
  match loop nsamples prefix c recs st with
  | (None, st') =>
      exists rows,
        all_rows nsamples (count st) recs (np_rnd st) = (inr (rows, count st'), np_rnd st') /\
        dt_app (written (ws st')) (data st') =
          dt_app (dt_app (written (ws st)) (data st)) rows /\
        dt_ok (data st') /\ tied (data st') /\ schemas_fixed get_schemas (ws st') /\
        ((ws st' = ws st /\ data st' = dt_app (data st) rows) \/
         (opened get_schemas (ws st') /\ v_vId (variants (written (ws st'))) <> []))
  | (Some e, st') =>
      exists k rows cnt rndk rest r,
        all_rows nsamples (count st) (take k recs) (np_rnd st) = (inr (rows, cnt), rndk) /\
        dt_app (written (ws st')) rest =
          dt_app (dt_app (written (ws st)) (data st)) rows /\
        recs !! k = Some r /\
        schemas_fixed get_schemas (ws st') /\
        (fst (record_rows nsamples cnt r rndk) = inl e \/
         (e = ZeroDivisionError /\ c = 0 /\
          exists d, fst (record_rows nsamples cnt r rndk) = inr (Some d)))
  end.
Proof.
  induction recs as [|r recs IH]; intros st Hok Ht Hfix; simpl.
  - exists empty_tables. rewrite !dt_app_nil_r. auto 10.
  - pose proof (step_spec r st Hok Hfix) as Hs.
    destruct (record_rows nsamples (count st) r (np_rnd st)) as [[e|[d|]] rnd1] eqn:Hr.
    + rewrite Hs. exists 0%nat, empty_tables, (count st), (np_rnd st), (data st), r.
      simpl. rewrite dt_app_nil_r, Hr. auto 10.
    + destruct Hs as [(Hc0 & st1 & -> & Hws) | (Hc & d2 & ws2 & -> & Hw & Hok2 & Ht2 & Hfix2 & Hcase)].
      * exists 0%nat, empty_tables, (count st), (np_rnd st), (data st), r.
        simpl. rewrite dt_app_nil_r, Hws, Hr. simpl. eauto 10.
      * set (st1 := {| count := count st + 1; data := d2; ws := ws2; np_rnd := rnd1 |}).
        specialize (IH st1 Hok2 Ht2 Hfix2).
        destruct (loop nsamples prefix c recs st1) as [[e|] st'].
        -- destruct IH as (k & rows & cnt & rndk & rest & r' & Hrows & Heq & Hk & Hfix' & He).
           exists (S k), (dt_app d rows), cnt, rndk, rest, r'. simpl.
           rewrite Hr. simpl in Hrows. rewrite Hrows.
           split; [done|]. split.
           { simpl in Heq. rewrite Heq, Hw, !dt_app_assoc. done. }
           auto.
        -- destruct IH as (rows & Hrows & Heq & Hok' & Ht' & Hfix' & Hop).
           exists (dt_app d rows). simpl in Hrows. rewrite Hrows.
           split; [done|]. split.
           { simpl in Heq. rewrite Heq, Hw, !dt_app_assoc. done. }
           split; [done|]. split; [done|]. split; [done|].
           simpl in Hop. destruct Hop as [[Hws Hd] | Hop]; [ | by right].
           destruct Hcase as [(-> & ->) | (-> & Hop & Hne)].
           ++ left. by rewrite Hws, Hd, dt_app_assoc.
           ++ right. by rewrite Hws.
    + rewrite Hs.
      specialize (IH (set_rnd st rnd1) Hok Ht Hfix).
      destruct (loop nsamples prefix c recs (set_rnd st rnd1)) as [[e|] st'].
      * destruct IH as (k & rows & cnt & rndk & rest & r' & Hrows & Heq & Hk & Hfix' & He).
        exists (S k), rows, cnt, rndk, rest, r'. simpl. rewrite Hr. auto.
      * destruct IH as (rows & Hrows & Heq & Hok' & Ht' & Hfix' & Hop).
        exists rows. auto 10.
Qed.

End Loop.

(** ** The unchunked rows *)

Lemma rows_of_facts nsamples cnt r rnd g rnd1 alt0 :
  sample_genotypes nsamples r rnd = (inr (Some g), rnd1) ->
  let d := rows_of cnt r alt0 g in
  Forall (fun x => x = 1 \/ x = 3) (g_genotype (gts d)) /\
  Forall (fun x => 0 <= x < nsamples) (g_callsetId (gts d)) /\
  Forall (fun x => x = cnt) (g_vId (gts d)).
Proof.
  intros Hs. apply sample_genotypes_spec in Hs as (Hn & Hl & Hin & _).
  simpl. repeat split.
  - apply List.Forall_forall. intros x Hx.
    apply List.filter_In in Hx as [Hx Hpos].
    rewrite List.Forall_forall in Hin. apply Hin in Hx.
    apply Z.ltb_lt in Hpos.
    rewrite !elem_of_cons, elem_of_nil in Hx.
    destruct Hx as [-> | [-> | [-> | []]]]; auto; lia.
  - apply Forall_map. unfold np_where.
    eapply Forall_impl; [apply where_from_bound|]. simpl. intros; lia.
  - apply Forall_replicate. done.
Qed.

Lemma all_rows_spec nsamples recs : forall cnt rnd rows cnt' rnd',
  all_rows nsamples cnt recs rnd = (inr (rows, cnt'), rnd') ->
  let n := length (List.filter present (drawn nsamples recs rnd)) in
  dt_ok rows /\
  cnt' = cnt + Z.of_nat n /\
  v_vId (variants rows) = map (fun k => cnt + 1 + Z.of_nat k) (seq 0 n) /\
  length (drawn nsamples recs rnd) = length recs /\
  annotations rows = at_nil /\
  Forall (fun x => x = 1 \/ x = 3) (g_genotype (gts rows)) /\
  Forall (fun x => 0 <= x < nsamples) (g_callsetId (gts rows)) /\
  Forall (fun x => cnt < x <= cnt') (g_vId (gts rows)).
Proof.
  induction recs as [|r recs IH]; intros cnt rnd rows cnt' rnd'; simpl.
  - intros [= <- <- <-]. simpl.
    repeat split; try constructor; try lia.
  - destruct (record_rows nsamples cnt r rnd) as [[e|[d|]] rnd1] eqn:Hr; [discriminate | | ].
    + destruct (all_rows nsamples (cnt + 1) recs rnd1) as [[e|[ds cnt2]] rnd2] eqn:Ha;
        [discriminate|].
      intros [= <- <- <-].
      apply syn_record_rows_inv in Hr as (g & alt0 & Hs & Hp & Halt & ->).
      rewrite Hs. simpl. rewrite Hp. simpl.
      destruct (IH _ _ _ _ _ Ha) as (H1 & H2 & H3 & H4 & H5 & H6 & H7 & H8).
      destruct (rows_of_facts _ (cnt + 1) _ _ _ _ alt0 Hs) as (F1 & F2 & F3).
      split; [apply dt_ok_app; [apply rows_of_ok | done]|].
      split; [lia|].
      split.
      { rewrite H3. f_equal; [lia|]. rewrite <- seq_shift, map_map.
        apply map_ext. intros; lia. }
      split; [lia|].
      split; [by rewrite H5|].
      split; [apply Forall_app; auto|].
      split; [apply Forall_app; auto|].
      apply Forall_app. split.
      * eapply Forall_impl; [exact F3|]. simpl. intros; lia.
      * eapply Forall_impl; [exact H8|]. simpl. intros; lia.
    + intros Ha.
      apply record_rows_skip in Hr as [Hs | (g & Hs & Hp)]; rewrite Hs; simpl;
        rewrite ?Hp; simpl;
        destruct (IH _ _ _ _ _ Ha) as (H1 & H2 & H3 & H4 & H5 & H6 & H7 & H8);
        auto 10.
Qed.

(** ** The whole run *)

Lemma syn_tables_spec recs nsamples prefix c rnd0 :
  let '(e, st) := tables recs nsamples prefix c rnd0 in
  schemas_fixed get_schemas (ws st) /\
  match e with
  | None =>
      exists rows,
        all_rows nsamples 0 recs rnd0 = (inr (rows, count st), np_rnd st) /\
        written (ws st) = rows /\
        ((count st = 0 /\ ws st = no_writers) \/
         (0 < count st /\ opened get_schemas (ws st)))
  | Some e =>
      exists k rows cnt rndk rest r,
        all_rows nsamples 0 (take k recs) rnd0 = (inr (rows, cnt), rndk) /\
        dt_app (written (ws st)) rest = rows /\
        recs !! k = Some r /\
        (fst (record_rows nsamples cnt r rndk) = inl e \/
         (e = ZeroDivisionError /\ c = 0 /\
          exists d, fst (record_rows nsamples cnt r rndk) = inr (Some d)))
  end.
Proof.
  unfold tables.
  pose proof (syn_loop_spec nsamples prefix c recs (init rnd0)
                dt_ok_empty tied_empty (no_writers_fixed _)) as H.
  destruct (loop nsamples prefix c recs (init rnd0)) as [[e|] st].
  - destruct H as (k & rows & cnt & rndk & rest & r & Hrows & Heq & Hk & Hfix & He).
    split; [done|]. exists k, rows, cnt, rndk, rest, r.
    simpl in Heq. rewrite written_no_writers, !dt_app_nil_l in Heq. auto.
  - destruct H as (rows & Hrows & Heq & Hok & Ht & Hfix & Hop).
    destruct (final_flush_spec get_schemas prefix _ _ Hok Hfix Ht)
      as (ws1 & -> & Hw & Hfix1 & Hcase).
    simpl. split; [done|]. exists rows.
    simpl in Heq, Hrows, Hop. rewrite written_no_writers, !dt_app_nil_l in Heq.
    split; [done|]. split; [by rewrite Hw|].
    destruct (all_rows_spec _ _ _ _ _ _ _ Hrows) as (_ & Hc & Hv & _).
    assert (Hcount : count st = 0 <-> v_vId (variants rows) = []).
    { rewrite Hv, Hc. destruct (length _); simpl; split; (done || lia). }
    assert (Hge : 0 <= count st) by lia.
    destruct Hcase as [[Hd ->] | [Hne Hop1]].
    + destruct Hop as [[Hws Hd'] | [Hop Hne]].
      * left. rewrite dt_app_nil_l in Hd'.
        split; [apply Hcount; by rewrite <- Hd', Hd | done].
      * right. split; [ | done].
        destruct (Z.eq_dec (count st) 0) as [E|E]; [ | lia].
        apply Hcount in E. rewrite <- Heq, Hd in E. simpl in E.
        rewrite app_nil_r in E. done.
    + right. split; [ | done].
      destruct (Z.eq_dec (count st) 0) as [E|E]; [ | lia].
      apply Hcount in E. rewrite <- Heq in E. simpl in E.
      apply app_eq_nil in E as [_ E]. done.
Qed.

Lemma all_rows_app nsamples recs1 recs2 : forall cnt rnd,
  all_rows nsamples cnt (recs1 ++ recs2) rnd =
  match all_rows nsamples cnt recs1 rnd with
  | (inl e, rnd1) => (inl e, rnd1)
  | (inr (rows1, cnt1), rnd1) =>
      match all_rows nsamples cnt1 recs2 rnd1 with
      | (inl e, rnd2) => (inl e, rnd2)
      | (inr (rows2, cnt2), rnd2) => (inr (dt_app rows1 rows2, cnt2), rnd2)
      end
  end.
Proof.
  induction recs1 as [|r recs1 IH]; intros cnt rnd; simpl.
  - destruct (all_rows nsamples cnt recs2 rnd) as [[e|[rows2 cnt2]] rnd2]; [done|].
    by rewrite dt_app_nil_l.
  - destruct (record_rows nsamples cnt r rnd) as [[e|[d|]] rnd1]; [done | | apply IH].
    rewrite IH.
    destruct (all_rows nsamples (cnt + 1) recs1 rnd1) as [[e|[rows1 cnt1]] rnd2]; [done|].
    destruct (all_rows nsamples cnt1 recs2 rnd2) as [[e|[rows2 cnt2]] rnd3]; [done|].
    by rewrite dt_app_assoc.
Qed.



(** A run whose records all decode, with a non-zero chunk size (or with
    no variant emitted at all), ends normally with the unchunked rows. *)
Lemma syn_tables_complete recs nsamples prefix c rnd0 rows cnt rnd1 :
  all_rows nsamples 0 recs rnd0 = (inr (rows, cnt), rnd1) ->
  c <> 0 \/ cnt = 0 ->
  exists st,
    tables recs nsamples prefix c rnd0 = (None, st) /\
    written (ws st) = rows /\ count st = cnt /\ np_rnd st = rnd1 /\
    ((cnt = 0 /\ ws st = no_writers) \/ (0 < cnt /\ opened get_schemas (ws st))).
Proof.
  intros Hrows Hc.
  pose proof (syn_tables_spec recs nsamples prefix c rnd0) as H.
  destruct (tables recs nsamples prefix c rnd0) as [[e|] st].
  - exfalso. destruct H as (_ & k & rows' & cnt' & rndk & rest & r & Hk1 & _ & Hk & He).
    rewrite <- (take_drop_middle recs k r Hk), all_rows_app, Hk1 in Hrows.
    simpl in Hrows.
    destruct (record_rows nsamples cnt' r rndk) as [[e'|[d|]] rnd2] eqn:Hr; simpl in He.
    + done.
    + destruct He as [He | (_ & Hc0 & _)]; [done|].
      destruct Hc as [Hc | Hc]; [done|].
      destruct (all_rows nsamples (cnt' + 1) (drop (S k) recs) rnd2)
        as [[e'|[ds cnt2]] rnd3] eqn:Hd; [done|].
      injection Hrows as _ Hcnt _.
      apply all_rows_spec in Hk1 as (_ & Hc1 & _).
      apply all_rows_spec in Hd as (_ & Hc2 & _). lia.
    + destruct He as [He | (_ & _ & d & Hd)]; done.
  - destruct H as (_ & rows' & Hrows' & Hw & Hcase).
    rewrite Hrows in Hrows'. injection Hrows' as E1 E2 E3.
    exists st. rewrite <- E2 in Hcase. rewrite Hw. auto 10.
Qed.

End GnomadFacts.

(** * The properties of the output tables *)

Lemma increasing_lt x l : increasing (x :: l) -> Forall (fun y => x < y) l.
Proof.
  revert x. induction l as [|y l IH]; intros x; [constructor|].
  intros [Hxy Hl]. constructor; [done|].
  eapply Forall_impl; [apply (IH y Hl)|]. simpl. intros; lia.
Qed.

Lemma increasing_NoDup l : increasing l -> NoDup l.
Proof.
  induction l as [|x l IH]; [constructor|].
  intros H. pose proof (increasing_lt x l H) as Hlt. destruct H as [_ H].
  constructor; [ | auto].
  intros Hin. rewrite Forall_forall in Hlt. specialize (Hlt x Hin). lia.
Qed.

Lemma prefix_of_range (l rest : list Z) (i : Z) (n : nat) :
  (l ++ rest)%list = map (fun k => i + Z.of_nat k) (seq 0 n) ->
  increasing l /\ NoDup l.
Proof.
  intros H. assert (Hinc : increasing l).
  { apply (increasing_app_inv l rest). rewrite H. apply increasing_range_from. }
  split; [done | by apply increasing_NoDup].
Qed.

(** C8: in every run of either script, whatever its outcome, the
    variant identifiers in the variants file are strictly increasing in
    row order, hence without duplicates: an identifier is never used
    twice, also when records are skipped in between. *)
Theorem variantId_strictly_increasing :
  (forall vcf dataset prefix c rnd,
     let ids := v_vId (variants (written
                  (out_writers (snd (VcfToParquet.tables vcf dataset prefix c rnd))))) in
     increasing ids /\ NoDup ids) /\
  (forall recs nsamples prefix c rnd0,
     let ids := v_vId (variants (written
                  (Gnomad.ws (snd (Gnomad.tables recs nsamples prefix c rnd0))))) in
     increasing ids /\ NoDup ids).
Proof.
  split.
  - intros vcf dataset prefix c rnd.
    pose proof (VcfFacts.tables_spec vcf dataset prefix c rnd) as H. simpl in H.
    destruct (VcfToParquet.tables vcf dataset prefix c rnd) as [[e|] out]; cbn [snd].
    + destruct H as (_ & _ & _ & k & rows & rest & r & Hrows & Heq & _).
      apply VcfFacts.all_rows_vId in Hrows as [_ Hv].
      apply (prefix_of_range _ (v_vId (variants rest)) 0 (length (take k (VcfToParquet.records vcf)))).
      rewrite <- Hv, <- Heq. done.
    + destruct H as (_ & _ & _ & rows & Hrows & Hw & _).
      apply VcfFacts.all_rows_vId in Hrows as [_ Hv].
      apply (prefix_of_range _ [] 0 (length (VcfToParquet.records vcf))).
      rewrite app_nil_r, Hw. done.
  - intros recs nsamples prefix c rnd0.
    pose proof (GnomadFacts.syn_tables_spec recs nsamples prefix c rnd0) as H.
    destruct (Gnomad.tables recs nsamples prefix c rnd0) as [[e|] st]; cbn [snd].
    + destruct H as (_ & k & rows & cnt & rndk & rest & r & Hrows & Heq & _).
      apply GnomadFacts.all_rows_spec in Hrows as (_ & _ & Hv & _).
      eapply (prefix_of_range _ (v_vId (variants rest)) (0 + 1)).
      rewrite <- Hv, <- Heq. done.
    + destruct H as (_ & rows & Hrows & Hw & _).
      apply GnomadFacts.all_rows_spec in Hrows as (_ & _ & Hv & _).
      eapply (prefix_of_range _ [] (0 + 1)).
      rewrite app_nil_r, Hw. exact Hv.
Qed.

Lemma Forall_prefix {A : Type} (P : A -> Prop) (l rest l' : list A) :
  (l ++ rest)%list = l' -> Forall P l' -> Forall P l.
Proof. intros <- H. by apply Forall_app in H as [H _]. Qed.

Lemma NoDup_range n : NoDup (range n).
Proof. unfold range. apply (NoDup_fmap_2 Z.of_nat), NoDup_seq. Qed.

Lemma count_occ_range (n : nat) (c : Z) :
  0 <= c < Z.of_nat n -> count_occ Z.eq_dec (range n) c = 1%nat.
Proof.
  intros Hc. apply NoDup_count_occ'; [apply NoDup_ListNoDup, NoDup_range|].
  unfold range. apply in_map_iff. exists (Z.to_nat c). split; [lia|].
  apply in_seq. lia.
Qed.

Lemma callset_ids_written ss dataset prefix consent :
  callset_ids (Some (write_callset_table ss dataset prefix consent)) = range (length ss).
Proof. unfold callset_ids, write_callset_table; simpl. by rewrite app_nil_r. Qed.

Lemma sample_ids_written ss dataset prefix consent rnd :
  let f := Some (fst (write_sample_table ss dataset prefix consent rnd)) in
  sample_ids f = range (length ss) /\ sample_names f = ss.
Proof.
  unfold write_sample_table.
  destruct (choices ethnicities None (length ss) rnd) as [eth rnd1].
  destruct (choices birth_sexes _ (length ss) rnd1) as [sex rnd2].
  unfold sample_ids, sample_names; simpl. by rewrite !app_nil_r.
Qed.

Lemma main_tables recs dataset prefix nsamples c rnd rnd0 :
  let ss := map (fun i => dataset +:+ "_" +:+ Gnomad.pad5 i) (range (Z.to_nat nsamples)) in
  Gnomad.main recs dataset prefix nsamples c rnd rnd0 =
  (fst (Gnomad.tables recs nsamples prefix c rnd0),
   {| out_callsets := Some (write_callset_table ss dataset prefix true);
      out_samples := Some (fst (write_sample_table ss dataset prefix true rnd));
      out_writers := Gnomad.ws (snd (Gnomad.tables recs nsamples prefix c rnd0)) |}).
Proof.
  intros ss. unfold Gnomad.main. fold ss.
  destruct (write_sample_table ss dataset prefix true rnd) as [sf rnd1].
  by destruct (Gnomad.tables recs nsamples prefix c rnd0) as [e st].
Qed.

(** The genotype rows a run of [parquet_from_gnomad.py] leaves on disk,
    whatever its outcome: codes 1 or 3, call sets below [nsamples]. *)
Lemma gnomad_written_gts recs nsamples prefix c rnd0 :
  let g := gts (written (Gnomad.ws (snd (Gnomad.tables recs nsamples prefix c rnd0)))) in
  Forall (fun x => x = 1 \/ x = 3) (g_genotype g) /\
  Forall (fun x => 0 <= x < nsamples) (g_callsetId g).
Proof.
  pose proof (GnomadFacts.syn_tables_spec recs nsamples prefix c rnd0) as H.
  destruct (Gnomad.tables recs nsamples prefix c rnd0) as [[e|] st]; cbn [snd].
  - destruct H as (_ & k & rows & cnt & rndk & rest & r & Hrows & Heq & _).
    apply GnomadFacts.all_rows_spec in Hrows as (_ & _ & _ & _ & _ & H1 & H2 & _).
    rewrite <- Heq in H1, H2. simpl in H1, H2.
    apply Forall_app in H1 as [H1 _]. apply Forall_app in H2 as [H2 _]. done.
  - destruct H as (_ & rows & Hrows & Hw & _).
    apply GnomadFacts.all_rows_spec in Hrows as (_ & _ & _ & _ & _ & H1 & H2 & _).
    rewrite Hw. done.
Qed.

(** C10: in synthetic mode, in every run, whatever its outcome, every
    value of the genotype column of the genotype-calls file is 1
    (heterozygous) or 3 (homozygous alternate); 0 and 2 never appear. *)
Theorem synthetic_genotype_codes recs dataset prefix nsamples c rnd rnd0 :
  let out := snd (Gnomad.main recs dataset prefix nsamples c rnd rnd0) in
  Forall (fun g => (g = 1 \/ g = 3) /\ g <> 0 /\ g <> 2)
         (g_genotype (gts (written (out_writers out)))).
Proof.
  rewrite main_tables. cbn [snd out_writers].
  destruct (gnomad_written_gts recs nsamples prefix c rnd0) as [H _].
  eapply Forall_impl; [exact H|]. simpl. intros; lia.
Qed.

(** C9: in every run of either script over [n] samples, whatever its
    outcome, the callsets and samples files carry the identifiers
    0 .. n-1 in sample-list order (a function of the sample list alone,
    written before the first record is read), and every [callsetId] of
    the genotype-calls file lies in that range and so matches exactly one
    row of each. *)
Theorem callsetId_resolves :
  (forall vcf dataset prefix c rnd,
     let out := snd (VcfToParquet.tables vcf dataset prefix c rnd) in
     let ss := VcfToParquet.samples vcf in
     let n := length ss in
     out_callsets out = Some (write_callset_table ss dataset prefix true) /\
     out_samples out = Some (fst (write_sample_table ss dataset prefix true rnd)) /\
     callset_ids (out_callsets out) = range n /\
     sample_ids (out_samples out) = range n /\
     sample_names (out_samples out) = ss /\
     Forall (fun id => 0 <= id < Z.of_nat n /\
                       count_occ Z.eq_dec (callset_ids (out_callsets out)) id = 1%nat /\
                       count_occ Z.eq_dec (sample_ids (out_samples out)) id = 1%nat)
            (g_callsetId (gts (written (out_writers out))))) /\
  (forall recs dataset prefix nsamples c rnd rnd0,
     let out := snd (Gnomad.main recs dataset prefix nsamples c rnd rnd0) in
     let n := Z.to_nat nsamples in
     callset_ids (out_callsets out) = range n /\
     sample_ids (out_samples out) = range n /\
     length (sample_names (out_samples out)) = n /\
     Forall (fun id => 0 <= id < Z.of_nat n /\
                       count_occ Z.eq_dec (callset_ids (out_callsets out)) id = 1%nat /\
                       count_occ Z.eq_dec (sample_ids (out_samples out)) id = 1%nat)
            (g_callsetId (gts (written (out_writers out))))).
Proof.
  split.
  - intros vcf dataset prefix c rnd out ss n.
    pose proof (VcfFacts.tables_spec vcf dataset prefix c rnd) as H. simpl in H.
    subst out. destruct (VcfToParquet.tables vcf dataset prefix c rnd) as [e out].
    cbn [snd]. destruct H as (Hcs & Hsm & _ & H).
    destruct (sample_ids_written ss dataset prefix true rnd) as [Hids Hnames].
    fold ss in Hcs, Hsm.
    rewrite Hcs, Hsm, callset_ids_written, Hids, Hnames. fold n.
    do 5 (split; [done|]).
    assert (Hrange : Forall (fun id => 0 <= id < Z.of_nat n)
                       (g_callsetId (gts (written (out_writers out))))).
    { destruct e as [e|].
      - destruct H as (k & rows & rest & r & Hrows & Heq & _).
        apply VcfFacts.all_rows_gts in Hrows as [Hrows _].
        rewrite <- Heq in Hrows. simpl in Hrows. apply Forall_app in Hrows as [Hrows _].
        eapply Forall_impl; [exact Hrows|]. simpl.
        intros id [name Hname]. by apply VcfFacts.sample_map_range in Hname.
      - destruct H as (rows & Hrows & Hw & _).
        apply VcfFacts.all_rows_gts in Hrows as [Hrows _]. rewrite Hw.
        eapply Forall_impl; [exact Hrows|]. simpl.
        intros id [name Hname]. by apply VcfFacts.sample_map_range in Hname. }
    eapply Forall_impl; [exact Hrange|]. simpl.
    intros id Hid. by rewrite count_occ_range.
  - intros recs dataset prefix nsamples c rnd rnd0 out n. subst out.
    rewrite main_tables. cbn [snd out_callsets out_samples out_writers].
    match goal with |- context [write_callset_table ?l _ _ _] => set (ss := l) end.
    assert (Hlen : length ss = n) by (unfold ss, range; by rewrite !length_map, length_seq).
    destruct (sample_ids_written ss dataset prefix true rnd) as [Hids Hnames].
    rewrite callset_ids_written, Hids, Hnames, Hlen.
    do 3 (split; [done|]).
    destruct (gnomad_written_gts recs nsamples prefix c rnd0) as [_ H].
    eapply Forall_impl; [exact H|]. simpl.
    intros id Hid. assert (Hid' : 0 <= id < Z.of_nat n) by (unfold n; lia).
    by rewrite count_occ_range.
Qed.

(** C3: for every input on which the run with chunk size 1 completes,
    the run with chunk size equal to the total number of variants (the
    number of records of the input; in synthetic mode also the number of
    variants emitted) completes too and leaves the same rows in the same
    order in every table; only the division into row groups differs. *)
Theorem chunk_size_invisible :
  (forall vcf dataset prefix rnd out1,
     VcfToParquet.tables vcf dataset prefix 1 rnd = (None, out1) ->
     exists outN,
       VcfToParquet.tables vcf dataset prefix
         (Z.of_nat (length (VcfToParquet.records vcf))) rnd = (None, outN) /\
       written (out_writers outN) = written (out_writers out1) /\
       out_callsets outN = out_callsets out1 /\
       out_samples outN = out_samples out1) /\
  (forall recs nsamples prefix rnd0 st1,
     Gnomad.tables recs nsamples prefix 1 rnd0 = (None, st1) ->
     forall c, c = Gnomad.count st1 \/ c = Z.of_nat (length recs) ->
     exists stN,
       Gnomad.tables recs nsamples prefix c rnd0 = (None, stN) /\
       written (Gnomad.ws stN) = written (Gnomad.ws st1) /\
       Gnomad.count stN = Gnomad.count st1).
Proof.
  split.
  - intros vcf dataset prefix rnd out1 H1.
    pose proof (VcfFacts.tables_spec vcf dataset prefix 1 rnd) as H. simpl in H.
    rewrite H1 in H. destruct H as (Hcs & Hsm & _ & rows & Hrows & Hw & _).
    destruct (VcfFacts.tables_complete vcf dataset prefix
                (Z.of_nat (length (VcfToParquet.records vcf))) rnd rows Hrows)
      as (outN & HN & HwN & HcsN & HsmN & _).
    { destruct (VcfToParquet.records vcf); [by right | left; simpl; lia]. }
    exists outN. rewrite HN, HwN, Hw, HcsN, HsmN, Hcs, Hsm. done.
  - intros recs nsamples prefix rnd0 st1 H1 c Hc.
    pose proof (GnomadFacts.syn_tables_spec recs nsamples prefix 1 rnd0) as H.
    rewrite H1 in H. destruct H as (_ & rows & Hrows & Hw & _).
    destruct (GnomadFacts.syn_tables_complete recs nsamples prefix c rnd0 _ _ _ Hrows)
      as (stN & HN & HwN & HcN & _).
    { destruct Hc as [-> | ->].
      - destruct (Z.eq_dec (Gnomad.count st1) 0); auto.
      - destruct recs as [|r recs]; [ | left; simpl; lia].
        right. simpl in Hrows. by injection Hrows as _ <- _. }
    exists stN. rewrite HN, HwN, Hw, HcN. done.
Qed.

Lemma chunk_size_invisible_witness :
  written (out_writers (snd (VcfToParquet.tables ex_vcf "ds" "out" 4 ex_rnd))) =
  written (out_writers (snd (VcfToParquet.tables ex_vcf "ds" "out" 1 ex_rnd))) /\
  written (Gnomad.ws (snd (Gnomad.tables ex_sites 4 "out" 3 ex_rnd))) =
  written (Gnomad.ws (snd (Gnomad.tables ex_sites 4 "out" 1 ex_rnd))).
Proof.
  destruct chunk_size_invisible as [Hvcf Hsyn]. split.
  - destruct (Hvcf ex_vcf "ds" "out" ex_rnd
                (snd (VcfToParquet.tables ex_vcf "ds" "out" 1 ex_rnd)))
      as (outN & HN & Hw & _); [vm_compute; reflexivity|].
    change 4 with (Z.of_nat (length (VcfToParquet.records ex_vcf))).
    rewrite HN. exact Hw.
  - destruct (Hsyn ex_sites 4 "out" ex_rnd
                (snd (Gnomad.tables ex_sites 4 "out" 1 ex_rnd)))
      with (c := 3) as (stN & HN & Hw & _);
      [vm_compute; reflexivity | left; vm_compute; reflexivity |].
    rewrite HN. exact Hw.
Defined.




(** C2, as stated, fails: on a VCF without records no writer is ever
    opened, so the variants, annotations and genotype-calls files do not
    exist after the run. *)
Lemma empty_input_artifacts_counterexample :
  ~ (forall vcf dataset prefix c rnd,
       VcfToParquet.records vcf = [] ->
       opened VcfToParquet.get_schemas
         (out_writers (snd (VcfToParquet.tables vcf dataset prefix c rnd)))).
Proof.
  intros H. specialize (H ex_empty_vcf "ds" "out" 500 ex_rnd eq_refl).
  destruct H as [H _]. vm_compute in H. discriminate H.
Qed.

(** C2, amended. On an input without records the run completes; the
    callsets and samples files are written with their fixed schemas
    (one row per sample), and no variants, annotations or genotype-calls
    file is created. A completed run that emitted at least one variant
    leaves all three of these files, each with its fixed schema; in
    synthetic mode the annotations file then has zero rows. *)
Theorem empty_input_artifacts :
  (forall vcf dataset prefix c rnd,
     VcfToParquet.records vcf = [] ->
     exists out,
       VcfToParquet.tables vcf dataset prefix c rnd = (None, out) /\
       out_writers out = no_writers /\
       schema_of (out_callsets out) = Some callsets_schema /\
       schema_of (out_samples out) = Some samples_schema /\
       callset_ids (out_callsets out) = range (length (VcfToParquet.samples vcf)) /\
       sample_ids (out_samples out) = range (length (VcfToParquet.samples vcf))) /\
  (forall dataset prefix nsamples c rnd rnd0,
     exists out,
       Gnomad.main [] dataset prefix nsamples c rnd rnd0 = (None, out) /\
       out_writers out = no_writers /\
       schema_of (out_callsets out) = Some callsets_schema /\
       schema_of (out_samples out) = Some samples_schema) /\
  (forall vcf dataset prefix c rnd out,
     VcfToParquet.tables vcf dataset prefix c rnd = (None, out) ->
     VcfToParquet.records vcf <> [] ->
     opened VcfToParquet.get_schemas (out_writers out)) /\
  (forall recs nsamples prefix c rnd0 st,
     Gnomad.tables recs nsamples prefix c rnd0 = (None, st) ->
     (Gnomad.count st = 0 /\ Gnomad.ws st = no_writers) \/
     (0 < Gnomad.count st /\ opened Gnomad.get_schemas (Gnomad.ws st) /\
      annotations (written (Gnomad.ws st)) = at_nil)).
Proof.
  split; [ | split; [ | split]].
  - intros vcf dataset prefix c rnd Hnil.
    destruct (VcfFacts.tables_complete vcf dataset prefix c rnd empty_tables)
      as (out & Hout & _ & Hcs & Hsm & Hcase); [by rewrite Hnil | by right |].
    destruct Hcase as [[_ Hws] | [Hne _]]; [ | done].
    exists out. rewrite Hcs, Hsm, callset_ids_written.
    destruct (sample_ids_written (VcfToParquet.samples vcf) dataset prefix true rnd)
      as [-> _].
    do 3 (split; [done|]). split; [ | done].
    unfold write_sample_table.
    destruct (choices ethnicities None _ rnd) as [eth rnd1].
    by destruct (choices birth_sexes _ _ rnd1) as [sex rnd2].
  - intros dataset prefix nsamples c rnd rnd0. rewrite main_tables.
    eexists. split; [reflexivity|]. split; [reflexivity|]. split; [reflexivity|].
    unfold write_sample_table.
    destruct (choices ethnicities None _ rnd) as [eth rnd1].
    by destruct (choices birth_sexes _ _ rnd1) as [sex rnd2].
  - intros vcf dataset prefix c rnd out Hout Hne.
    pose proof (VcfFacts.tables_spec vcf dataset prefix c rnd) as H. simpl in H.
    rewrite Hout in H. destruct H as (_ & _ & _ & rows & _ & _ & [[Hnil _] | [_ Hop]]); done.
  - intros recs nsamples prefix c rnd0 st Hst.
    pose proof (GnomadFacts.syn_tables_spec recs nsamples prefix c rnd0) as H.
    rewrite Hst in H. destruct H as (_ & rows & Hrows & Hw & [Hcase | [Hpos Hop]]); [by left|].
    right. split; [done|]. split; [done|].
    apply GnomadFacts.all_rows_spec in Hrows as (_ & _ & _ & _ & Ha & _).
    by rewrite Hw.
Qed.

Lemma empty_input_artifacts_witness :
  (exists out, VcfToParquet.tables ex_empty_vcf "ds" "out" 500 ex_rnd = (None, out) /\
               out_writers out = no_writers) /\
  opened VcfToParquet.get_schemas
    (out_writers (snd (VcfToParquet.tables ex_vcf "ds" "out" 500 ex_rnd))) /\
  0 < Gnomad.count (snd (Gnomad.tables ex_sites 4 "out" 500 ex_rnd)).
Proof.
  destruct empty_input_artifacts as (Hempty & _ & Hvcf & Hsyn). split; [ | split].
  - destruct (Hempty ex_empty_vcf "ds" "out" 500 ex_rnd) as (out & Hout & Hws & _);
      [reflexivity|].
    exists out. split; [exact Hout | exact Hws].
  - apply (Hvcf ex_vcf "ds" "out" 500 ex_rnd); [vm_compute; reflexivity|].
    vm_compute. discriminate.
  - destruct (Hsyn ex_sites 4 "out" 500 ex_rnd
                (snd (Gnomad.tables ex_sites 4 "out" 500 ex_rnd)))
      as [[Hz _] | [Hpos _]]; [vm_compute; reflexivity | | exact Hpos].
    vm_compute in Hz. discriminate Hz.
Defined.

(** C6: a record whose INFO field has no [geneSymbol] entry does not
    yield "zero annotation rows, record otherwise processed": the
    subscript [record.INFO['geneSymbol']] raises [KeyError] and the run
    ends there, before any file is written. *)
Theorem missing_gene_symbol_raises :
  fst (VcfToParquet.tables ex_no_gene_vcf "ds" "out" 500 ex_rnd) =
    Some (KeyError "geneSymbol") /\
  out_writers (snd (VcfToParquet.tables ex_no_gene_vcf "ds" "out" 500 ex_rnd)) =
    no_writers.
Proof. split; vm_compute; reflexivity. Qed.

(** The same for any record without the entry, at any position: the
    rows of the record cannot be built. *)
Lemma record_rows_no_gene_symbol ss M vid r :
  INFO r !! "geneSymbol" = None -> ALT r <> [] ->
  VcfToParquet.record_rows ss M vid r = inl (KeyError "geneSymbol").
Proof.
  intros Hg Halt.
  unfold VcfToParquet.record_rows, VcfToParquet.append_record, append_variant,
    VcfToParquet.append_annotation, getitem, getkey.
  destruct (ALT r) as [|alt0 alts]; [done|]. simpl. by rewrite Hg.
Qed.

(** With the entry present, the record has one annotation row under its
    own variant identifier when the symbol is truthy, none otherwise. *)
Lemma record_rows_annotation ss M vid r gene d :
  INFO r !! "geneSymbol" = Some gene ->
  VcfToParquet.record_rows ss M vid r = inr d ->
  v_vId (variants d) = [vid] /\
  annotation_rows (annotations d) = if truthy gene then [(vid, gene)] else [].
Proof.
  intros Hg Hd.
  apply VcfFacts.record_rows_inv in Hd as (alt0 & gene' & g & _ & Hg' & _ & ->).
  rewrite Hg in Hg'. injection Hg' as <-. simpl. by destruct (truthy gene).
Qed.

(** C5: in synthetic mode, a record whose allele frequency lies outside
    the range from 0 to 1 ends the run with a [ValueError]: the check of
    the probabilities rejects it before a random number is drawn, so the
    state after the exception (files, buffers, count and generator) is
    the state in which the record was reached. *)
Theorem frequency_out_of_range pre r post nsamples prefix c rnd0 st af q :
  Gnomad.loop nsamples prefix c pre (Gnomad.init rnd0) = (None, st) ->
  INFO r !! "AF" = Some af ->
  Gnomad.to_float af = inr q ->
  (q < 0)%Q \/ (1 < q)%Q ->
  Gnomad.tables (pre ++ r :: post) nsamples prefix c rnd0 =
    (Some (ValueError "probabilities are not non-negative"), st).
Proof.
  intros Hpre Haf Hq Hout.
  assert (Htruthy : truthy af = true).
  { destruct af as [b|z|q'| |]; simpl in Hq; try discriminate; injection Hq as <-; simpl.
    - destruct b; [done|]. destruct Hout as [H|H]; by vm_compute in H.
    - destruct (Z.eqb_spec z 0) as [->|]; [ | done].
      destruct Hout as [H|H]; by vm_compute in H.
    - unfold Qzero. destruct (Qeq_bool q' 0) eqn:E; [ | done].
      apply Qeq_bool_iff in E. destruct Hout; lra. }
  unfold Gnomad.tables. rewrite GnomadFacts.loop_app, Hpre.
  cbn [Gnomad.loop]. unfold Gnomad.step, Gnomad.sample_genotypes.
  rewrite Haf, Htruthy, Hq. cbn [negb].
  rewrite GnomadFacts.np_random_choice_negative;
    [ | reflexivity | by apply GnomadFacts.hardy_weinberg_invalid].
  by destruct st.
Qed.

Lemma frequency_out_of_range_witness :
  Gnomad.tables ([ex_site 100 (1 # 2)] ++ ex_site 200 (3 # 2) :: [ex_site 300 1])
    4 "out" 1 ex_rnd =
  (Some (ValueError "probabilities are not non-negative"),
   snd (Gnomad.loop 4 "out" 1 [ex_site 100 (1 # 2)] (Gnomad.init ex_rnd))).
Proof.
  apply (frequency_out_of_range _ _ _ 4 "out" 1 ex_rnd _ (VFloat (3 # 2)) (3 # 2)).
  - vm_compute; reflexivity.
  - vm_compute; reflexivity.
  - reflexivity.
  - right. vm_compute; reflexivity.
Defined.

(** ** The sampler at the two ends of the frequency range *)










(** C4: the example of the specification. One record (chromosome "1",
    position 12345, reference "A", alternates "T" and "G") over three
    samples with genotypes (0,0), (0,1), (1,1), all unphased or all
    phased. As the example gives the record, without a gene symbol, the
    run does not produce the expected rows: the subscript
    [record.INFO['geneSymbol']] raises [KeyError] at the record and none
    of the three files is written (the defect of C6). Once the record
    carries a gene symbol (a string) and the samples are distinctly
    named, the run completes for any chunk size other than 0, the
    variants file has the single row (0, "1", 12345, "A", "T"), and the
    genotype-calls file has two rows, for samples 1 and 2, with the
    allele numbers joined by "/" (unphased) or "|" (phased). *)
Theorem example_scenario (s0 s1 s2 : string) (info : gmap string info_value)
    (phased : bool) (dataset prefix : string) (c : Z) (rnd : mt_state) :
  let flag := if phased then 1 else 0 in
  let r := {| CHROM := "1"; POS := 12345; REF := "A"; ALT := ["T"; "G"];
              INFO := info; gt_types := [0; 1; 3];
              genotypes := [[0; 0; flag]; [0; 1; flag]; [1; 1; flag]] |} in
  let vcf := {| VcfToParquet.samples := [s0; s1; s2]; VcfToParquet.records := [r] |} in
  (info !! "geneSymbol" = None ->
   fst (VcfToParquet.tables vcf dataset prefix c rnd) = Some (KeyError "geneSymbol") /\
   out_writers (snd (VcfToParquet.tables vcf dataset prefix c rnd)) = no_writers) /\
  (forall gene : string,
     info !! "geneSymbol" = Some (VStr gene) -> NoDup [s0; s1; s2] -> c <> 0 ->
     exists out,
       VcfToParquet.tables vcf dataset prefix c rnd = (None, out) /\
       variant_rows (variants (written (out_writers out))) = [(0, "1", 12345, "A", "T")] /\
       gt_rows (gts (written (out_writers out))) =
         if phased then [(0, 1, "0|1"); (0, 2, "1|1")]
         else [(0, 1, "0/1"); (0, 2, "1/1")]).
Proof.
  intros flag r vcf. split.
  - intros Hnone. unfold VcfToParquet.tables.
    destruct (write_sample_table _ dataset prefix true rnd) as [sf rnd1].
    cbn [VcfToParquet.records vcf VcfToParquet.loop].
    change (VcfToParquet.append_record (VcfToParquet.samples vcf)
              (VcfToParquet.sample_to_sampleId (VcfToParquet.samples vcf)) 0 r empty_tables)
      with (VcfToParquet.record_rows (VcfToParquet.samples vcf)
              (VcfToParquet.sample_to_sampleId (VcfToParquet.samples vcf)) 0 r).
    rewrite record_rows_no_gene_symbol; [done | exact Hnone | done].
  - intros gene Hgene Hnd Hc.
    set (ss := [s0; s1; s2]). set (M := VcfToParquet.sample_to_sampleId ss).
    assert (H1 : M !! s1 = Some 1)
      by (apply (VcfFacts.sample_map_nodup ss 1 s1 Hnd eq_refl)).
    assert (H2 : M !! s2 = Some 2)
      by (apply (VcfFacts.sample_map_nodup ss 2 s2 Hnd eq_refl)).
    assert (Hg1 : VcfToParquet.gt_string [0; 1; flag] =
                  inr (if phased then "0|1" else "0/1")).
    { unfold flag. destruct phased; vm_compute; reflexivity. }
    assert (Hg2 : VcfToParquet.gt_string [1; 1; flag] =
                  inr (if phased then "1|1" else "1/1")).
    { unfold flag. destruct phased; vm_compute; reflexivity. }
    assert (Hrows : exists a,
      VcfToParquet.all_rows ss M 0 [r] =
      inr {| variants := {| v_vId := [0]; v_chrom := ["1"]; v_pos := [12345];
                            v_ref := ["A"]; v_alt := ["T"] |};
             annotations := a;
             gts := {| g_vId := [0; 0]; g_callsetId := [1; 2];
                       g_genotype := [if phased then "0|1" else "0/1";
                                      if phased then "1|1" else "1/1"] |} |}).
    { cbn [VcfToParquet.all_rows].
      unfold VcfToParquet.record_rows, VcfToParquet.append_record,
        VcfToParquet.append_annotation, getkey.
      cbn [INFO r]. rewrite Hgene.
      change (np_where (fun t => t mod 2 =? 1) (gt_types r)) with [1%nat; 2%nat].
      cbn [VcfToParquet.append_calls getitem lookup list_lookup ss genotypes r bind].
      unfold getkey. rewrite H1, H2. cbn [bind]. rewrite Hg1, Hg2. cbn [bind].
      destruct (truthy (VStr gene)); eexists; reflexivity. }
    destruct Hrows as [a Hrows].
    destruct (VcfFacts.tables_complete vcf dataset prefix c rnd _ Hrows)
      as (out & Hout & Hw & _); [by left|].
    exists out. split; [exact Hout|]. rewrite Hw. split; [reflexivity|].
    by destruct phased.
Qed.

Lemma example_scenario_witness :
  (fst (VcfToParquet.tables
          {| VcfToParquet.samples := ["NA001"; "NA002"; "NA003"];
             VcfToParquet.records :=
               [ {| CHROM := "1"; POS := 12345; REF := "A"; ALT := ["T"; "G"];
                    INFO := ∅; gt_types := [0; 1; 3];
                    genotypes := [[0; 0; 0]; [0; 1; 0]; [1; 1; 0]] |} ] |}
          "ds" "out" 500 ex_rnd) = Some (KeyError "geneSymbol") /\
   out_writers (snd (VcfToParquet.tables
          {| VcfToParquet.samples := ["NA001"; "NA002"; "NA003"];
             VcfToParquet.records :=
               [ {| CHROM := "1"; POS := 12345; REF := "A"; ALT := ["T"; "G"];
                    INFO := ∅; gt_types := [0; 1; 3];
                    genotypes := [[0; 0; 0]; [0; 1; 0]; [1; 1; 0]] |} ] |}
          "ds" "out" 500 ex_rnd)) = no_writers) /\
  exists out,
    VcfToParquet.tables
      {| VcfToParquet.samples := ["NA001"; "NA002"; "NA003"];
         VcfToParquet.records :=
           [ {| CHROM := "1"; POS := 12345; REF := "A"; ALT := ["T"; "G"];
                INFO := {[ "geneSymbol" := VStr "BRCA1" ]}; gt_types := [0; 1; 3];
                genotypes := [[0; 0; 0]; [0; 1; 0]; [1; 1; 0]] |} ] |}
      "ds" "out" 500 ex_rnd = (None, out) /\
    variant_rows (variants (written (out_writers out))) = [(0, "1", 12345, "A", "T")] /\
    gt_rows (gts (written (out_writers out))) = [(0, 1, "0/1"); (0, 2, "1/1")].
Proof.
  split.
  - apply (proj1 (example_scenario "NA001" "NA002" "NA003" ∅
                    false "ds" "out" 500 ex_rnd)).
    reflexivity.
  - apply (proj2 (example_scenario "NA001" "NA002" "NA003"
                    {[ "geneSymbol" := VStr "BRCA1" ]} false "ds" "out" 500 ex_rnd)
             "BRCA1").
    + reflexivity.
    + apply (bool_decide_unpack _). vm_compute. exact I.
    + lia.
Defined.

(** * Further properties of the code *)

(** ** The sample map *)

Lemma last_position_cases name l :
  match last_position name l with
  | Some j => l !! j = Some name /\ forall j', (j < j')%nat -> l !! j' <> Some name
  | None => forall i, l !! i <> Some name
  end.
Proof.
  induction l as [|x l IH]; simpl; [done|].
  destruct (last_position name l) as [j|].
  - destruct IH as [H1 H2]. split; [done|].
    intros [|j'] Hj'; [lia|]. simpl. apply H2. lia.
  - destruct (decide (x = name)) as [->|Hne].
    + split; [done|]. intros [|j'] Hj'; [lia|]. apply IH.
    + intros [|i]; simpl; [congruence | apply IH].
Qed.

Lemma last_position_spec name l j :
  last_position name l = Some j <->
  l !! j = Some name /\ forall j', (j < j')%nat -> l !! j' <> Some name.
Proof.
  pose proof (last_position_cases name l) as H.
  destruct (last_position name l) as [k|].
  - destruct H as [H1 H2]. split.
    + by intros [= <-].
    + intros [J1 J2]. f_equal.
      destruct (Nat.lt_trichotomy k j) as [Hlt | [-> | Hlt]]; [ | done | ].
      * by apply H2 in Hlt.
      * by apply J2 in Hlt.
  - split; [done|]. intros [J1 _]. by apply H in J1.
Qed.

Lemma sample_fold_last (l : list string) : forall k (m : gmap string Z) name,
  fold_left VcfToParquet.add_sample (enumerate_from k l) m !! name =
  match last_position name l with
  | Some j => Some (k + Z.of_nat j)
  | None => m !! name
  end.
Proof.
  induction l as [|x l IH]; intros k m name; simpl; [done|].
  rewrite IH. destruct (last_position name l) as [j|].
  - f_equal. lia.
  - destruct (decide (x = name)) as [->|Hne].
    + rewrite lookup_insert_eq. f_equal. lia.
    + by rewrite lookup_insert_ne.
Qed.

Lemma sample_map_last (ss : list string) (name : string) :
  VcfToParquet.sample_to_sampleId ss !! name =
    (fun j => Z.of_nat j) <$> last_position name ss.
Proof.
  rewrite VcfFacts.sample_to_sampleId_fold. unfold enumerate.
  rewrite sample_fold_last, lookup_empty.
  by destruct (last_position name ss).
Qed.

(** X1: [sample_to_sampleId] maps a name to the position of its last
    occurrence in the sample list, and maps nothing else: a name that
    occurs twice makes the earlier sample share the later one's
    identifier. *)
Theorem sample_map_last_occurrence (ss : list string) (name : string) :
  VcfToParquet.sample_to_sampleId ss !! name =
    (fun j => Z.of_nat j) <$> last_position name ss /\
  (forall i, VcfToParquet.sample_to_sampleId ss !! name = Some i <->
     exists j, i = Z.of_nat j /\ ss !! j = Some name /\
               forall j', (j < j')%nat -> ss !! j' <> Some name) /\
  (VcfToParquet.sample_to_sampleId ss !! name = None <-> name ∉ ss).
Proof.
  pose proof (sample_map_last ss name) as E.
  split; [exact E|]. split.
  - intros i. rewrite E. split.
    + destruct (last_position name ss) as [j|] eqn:Ej; [ | done].
      intros [= <-]. exists j. split; [done|]. by apply last_position_spec.
    + intros (j & -> & Hj). apply last_position_spec in Hj. by rewrite Hj.
  - rewrite E. split.
    + pose proof (last_position_cases name ss) as Hc.
      destruct (last_position name ss) as [j|]; [done|]. intros _ Hin.
      apply list_elem_of_lookup in Hin as [i Hi]. by apply Hc in Hi.
    + intros Hnot. destruct (last_position name ss) as [j|] eqn:Ej; [ | done].
      apply last_position_spec in Ej as [Ej _].
      exfalso. apply Hnot. by eapply list_elem_of_lookup_2.
Qed.

(** X2: over distinct sample names the map is a bijection between the
    names and the positions 0 .. n-1: the name at position [j] maps to
    [j], and two names with one identifier are one name. *)
Theorem sample_map_bijection (ss : list string) :
  NoDup ss ->
  (forall j name, ss !! j = Some name ->
     VcfToParquet.sample_to_sampleId ss !! name = Some (Z.of_nat j)) /\
  (forall name i, VcfToParquet.sample_to_sampleId ss !! name = Some i ->
     0 <= i < Z.of_nat (length ss) /\ ss !! Z.to_nat i = Some name) /\
  (forall name1 name2 i,
     VcfToParquet.sample_to_sampleId ss !! name1 = Some i ->
     VcfToParquet.sample_to_sampleId ss !! name2 = Some i -> name1 = name2).
Proof.
  intros Hnd.
  assert (Hback : forall name i, VcfToParquet.sample_to_sampleId ss !! name = Some i ->
            0 <= i < Z.of_nat (length ss) /\ ss !! Z.to_nat i = Some name).
  { intros name i Hi. split; [by eapply VcfFacts.sample_map_range|].
    rewrite sample_map_last in Hi.
    destruct (last_position name ss) as [j|] eqn:Ej; [ | done].
    injection Hi as <-. apply last_position_spec in Ej as [Ej _].
    by rewrite Nat2Z.id. }
  split; [ | split; [exact Hback|]].
  - intros j name Hj. by apply VcfFacts.sample_map_nodup.
  - intros name1 name2 i H1 H2.
    apply Hback in H1 as [_ H1]. apply Hback in H2 as [_ H2]. congruence.
Qed.

Lemma sample_map_bijection_witness :
  VcfToParquet.sample_to_sampleId ["NA001"; "NA002"; "NA003"] !! "NA002" = Some 1.
Proof.
  apply (proj1 (sample_map_bijection ["NA001"; "NA002"; "NA003"]
                  ltac:(apply (bool_decide_unpack _); vm_compute; exact I)) 1%nat).
  reflexivity.
Defined.

(** ** Whatever whole records contribute, the files hold *)

(** A property of tables that holds of the rows of every record and is
    kept by concatenation holds of the files of [vcf_to_parquet.py] at
    any time, also after an exception: a flush writes whole records. *)
Lemma vcf_loop_closed (P : data_tables string -> Prop) ss M prefix c :
  P empty_tables ->
  (forall a b, P a -> P b -> P (dt_app a b)) ->
  (forall vid r d, VcfToParquet.record_rows ss M vid r = inr d -> P d) ->
  forall recs vid d ws,
    dt_ok d -> P d -> P (written ws) ->
    let res := VcfToParquet.loop ss M prefix c vid recs d ws in
    P (written (snd (snd res))) /\
    (fst res = None -> P (fst (snd res)) /\ dt_ok (fst (snd res))).
Proof.
  intros Hnil Happ Hrec.
  induction recs as [|r recs IH]; intros vid d ws Hok Hd Hw; simpl.
  - auto.
  - rewrite VcfFacts.append_record_app.
    destruct (VcfToParquet.record_rows ss M vid r) as [e|d1] eqn:Hr; simpl; [done|].
    assert (Hok1 : dt_ok (dt_app d d1)).
    { apply dt_ok_app; [done | by eapply VcfFacts.record_rows_ok]. }
    assert (Hd1 : P (dt_app d d1)) by (apply Happ; [done | by eapply Hrec]).
    unfold flush_if_due.
    destruct (c =? 0); [done|].
    destruct ((vid + 1) mod c =? 0).
    + destruct (update_files_ok VcfToParquet.get_schemas _ ws prefix Hok1)
        as (ws1 & -> & Hw1 & _).
      apply IH; [apply dt_ok_empty | done | ].
      rewrite Hw1. by apply Happ.
    + by apply IH.
Qed.

Lemma vcf_tables_closed (P : data_tables string -> Prop) vcf dataset prefix c rnd :
  P empty_tables ->
  (forall a b, P a -> P b -> P (dt_app a b)) ->
  (forall vid r d,
     VcfToParquet.record_rows (VcfToParquet.samples vcf)
       (VcfToParquet.sample_to_sampleId (VcfToParquet.samples vcf)) vid r = inr d -> P d) ->
  P (written (out_writers (snd (VcfToParquet.tables vcf dataset prefix c rnd)))).
Proof.
  intros Hnil Happ Hrec. unfold VcfToParquet.tables.
  destruct (write_sample_table _ dataset prefix true rnd) as [sf rnd1].
  pose proof (vcf_loop_closed P _ _ prefix c Hnil Happ Hrec (VcfToParquet.records vcf)
                0 empty_tables no_writers dt_ok_empty Hnil Hnil) as H.
  destruct (VcfToParquet.loop _ _ prefix c 0 _ empty_tables no_writers)
    as [[e|] [d ws]]; simpl in H.
  - simpl. apply H.
  - destruct H as [Hw Hd]. destruct (Hd eq_refl) as [Hd1 Hok].
    unfold final_flush. destruct (negb _).
    + destruct (update_files_ok VcfToParquet.get_schemas d ws prefix Hok)
        as (ws1 & -> & Hw1 & _).
      simpl. rewrite Hw1. by apply Happ.
    + done.
Qed.

(** The same for [parquet_from_gnomad.py]. *)
Lemma syn_loop_closed (P : data_tables Z -> Prop) nsamples prefix c :
  P empty_tables ->
  (forall a b, P a -> P b -> P (dt_app a b)) ->
  (forall cnt r rnd d rnd1,
     Gnomad.record_rows nsamples cnt r rnd = (inr (Some d), rnd1) -> P d) ->
  forall recs st,
    dt_ok (Gnomad.data st) -> schemas_fixed Gnomad.get_schemas (Gnomad.ws st) ->
    P (Gnomad.data st) -> P (written (Gnomad.ws st)) ->
    let res := Gnomad.loop nsamples prefix c recs st in
    P (written (Gnomad.ws (snd res))) /\
    (fst res = None ->
     P (Gnomad.data (snd res)) /\ dt_ok (Gnomad.data (snd res)) /\
     schemas_fixed Gnomad.get_schemas (Gnomad.ws (snd res))).
Proof.
  intros Hnil Happ Hrec.
  induction recs as [|r recs IH]; intros st Hok Hfix Hd Hw; simpl.
  - auto.
  - pose proof (GnomadFacts.step_spec nsamples prefix c r st Hok Hfix) as Hs.
    destruct (Gnomad.record_rows nsamples (Gnomad.count st) r (Gnomad.np_rnd st))
      as [[e|[d1|]] rnd1] eqn:Hr.
    + rewrite Hs. simpl. split; [done | discriminate].
    + destruct Hs as [(_ & st1 & -> & Hws) | (_ & d2 & ws2 & -> & Hw2 & Hok2 & _ & Hfix2 & Hcase)].
      * simpl. rewrite Hws. split; [done | discriminate].
      * apply IH; simpl; [done | done | | ].
        -- destruct Hcase as [[-> _] | [-> _]]; [ | done].
           apply Happ; [done | by eapply Hrec].
        -- destruct Hcase as [[_ ->] | [-> _]]; [done|].
           rewrite dt_app_nil_r in Hw2. rewrite Hw2.
           apply Happ; [done|]. apply Happ; [done | by eapply Hrec].
    + rewrite Hs. by apply IH.
Qed.

Lemma syn_tables_closed (P : data_tables Z -> Prop) recs nsamples prefix c rnd0 :
  P empty_tables ->
  (forall a b, P a -> P b -> P (dt_app a b)) ->
  (forall cnt r rnd d rnd1,
     Gnomad.record_rows nsamples cnt r rnd = (inr (Some d), rnd1) -> P d) ->
  P (written (Gnomad.ws (snd (Gnomad.tables recs nsamples prefix c rnd0)))).
Proof.
  intros Hnil Happ Hrec. unfold Gnomad.tables.
  pose proof (syn_loop_closed P nsamples prefix c Hnil Happ Hrec recs (Gnomad.init rnd0)
                dt_ok_empty (no_writers_fixed _) Hnil Hnil) as H.
  destruct (Gnomad.loop nsamples prefix c recs (Gnomad.init rnd0)) as [[e|] st];
    simpl in H.
  - simpl. apply H.
  - destruct H as [Hw Hd]. destruct (Hd eq_refl) as (Hd1 & Hok & _).
    unfold final_flush. destruct (negb _).
    + destruct (update_files_ok Gnomad.get_schemas (Gnomad.data st) (Gnomad.ws st)
                  prefix Hok) as (ws1 & -> & Hw1 & _).
      simpl. rewrite Hw1. by apply Happ.
    + done.
Qed.

Lemma references_resolve_app {G : Type} (a b : data_tables G) :
  references_resolve a -> references_resolve b -> references_resolve (dt_app a b).
Proof.
  intros [A1 A2] [B1 B2]. unfold references_resolve. simpl. split.
  - apply Forall_app. split.
    + eapply Forall_impl; [exact A1|]. simpl. intros; apply elem_of_app; auto.
    + eapply Forall_impl; [exact B1|]. simpl. intros; apply elem_of_app; auto.
  - apply Forall_app. split.
    + eapply Forall_impl; [exact A2|]. simpl. intros; apply elem_of_app; auto.
    + eapply Forall_impl; [exact B2|]. simpl. intros; apply elem_of_app; auto.
Qed.

(** X3: referential integrity. In every run of either script, whatever
    its outcome, every variant identifier in the annotations file and in
    the genotype-calls file is the identifier of a row of the variants
    file: a flush writes the three tables of whole records together. *)
Theorem variant_references_resolve :
  (forall vcf dataset prefix c rnd,
     references_resolve
       (written (out_writers (snd (VcfToParquet.tables vcf dataset prefix c rnd))))) /\
  (forall recs nsamples prefix c rnd0,
     references_resolve
       (written (Gnomad.ws (snd (Gnomad.tables recs nsamples prefix c rnd0))))).
Proof.
  split.
  - intros vcf dataset prefix c rnd. apply vcf_tables_closed.
    + split; constructor.
    + apply references_resolve_app.
    + intros vid r d Hd.
      apply VcfFacts.record_rows_inv in Hd as (alt0 & gene & g & _ & _ & Hg & ->).
      apply VcfFacts.append_calls_nil in Hg as (Hv & _).
      unfold references_resolve. simpl. rewrite Hv. split.
      * destruct (truthy gene); simpl; repeat constructor.
      * apply Forall_replicate. constructor.
  - intros recs nsamples prefix c rnd0. apply syn_tables_closed.
    + split; constructor.
    + apply references_resolve_app.
    + intros cnt r rnd d rnd1 Hd.
      apply GnomadFacts.syn_record_rows_inv in Hd as (g & alt0 & _ & _ & _ & ->).
      unfold references_resolve. simpl. split; [constructor|].
      apply Forall_replicate. constructor.
Qed.

(** ** The exceptions a run can end with *)





Lemma syn_choice_error q n rnd e rnd1 :
  Gnomad.np_random_choice [0; 1; 3] n (Gnomad.hardy_weinberg q) rnd = (inl e, rnd1) ->
  (e = ValueError "probabilities are not non-negative" /\ ((q < 0)%Q \/ (1 < q)%Q)) \/
  (e = ValueError "negative dimensions are not allowed" /\ n < 0).
Proof.
  intros H.
  destruct (existsb (fun x => Gnomad.Qlt_bool x 0) (Gnomad.hardy_weinberg q)) eqn:Eneg.
  - left. assert (Hq : (q < 0)%Q \/ (1 < q)%Q).
    { destruct (Qlt_le_dec q 0) as [?|H0]; [auto|].
      destruct (Qlt_le_dec 1 q) as [?|H1]; [auto|].
      destruct (GnomadFacts.hardy_weinberg_valid q H0 H1) as [E _]. congruence. }
    split; [ | done].
    rewrite GnomadFacts.np_random_choice_negative in H by done. congruence.
  - assert (H0 : (0 <= q)%Q).
    { destruct (Qlt_le_dec q 0) as [Hlt|?]; [ | done].
      rewrite GnomadFacts.hardy_weinberg_invalid in Eneg by auto. done. }
    assert (H1 : (q <= 1)%Q).
    { destruct (Qlt_le_dec 1 q) as [Hlt|?]; [ | done].
      rewrite GnomadFacts.hardy_weinberg_invalid in Eneg by auto. done. }
    destruct (Z.ltb_spec n 0) as [Hn|Hn].
    + right. split; [ | done]. unfold Gnomad.np_random_choice in H.
      destruct (GnomadFacts.hardy_weinberg_valid q H0 H1) as [E1 E2].
      rewrite E1, E2 in H.
      change (negb (length (Gnomad.hardy_weinberg q) =? length [0; 1; 3])%nat)
        with false in H.
      rewrite (proj2 (Z.ltb_lt n 0) Hn) in H. by injection H as <- _.
    + destruct (GnomadFacts.np_random_choice_hw q n rnd H0 H1 Hn) as [g Hg].
      congruence.
Qed.

Lemma syn_record_error nsamples cnt r rnd e :
  fst (Gnomad.record_rows nsamples cnt r rnd) = inl e ->
  e = TypeError \/
  e = ValueError "probabilities are not non-negative" \/
  (e = ValueError "negative dimensions are not allowed" /\ nsamples < 0) \/
  (e = IndexError /\ ALT r = []).
Proof.
  unfold Gnomad.record_rows, Gnomad.sample_genotypes.
  destruct (INFO r !! "AF") as [af|]; [ | done].
  destruct (negb (truthy af)); [done|].
  destruct (Gnomad.to_float af) as [e'|q] eqn:Ef.
  { simpl. intros [= <-]. left. destruct af; simpl in Ef; congruence. }
  destruct (Gnomad.np_random_choice [0; 1; 3] nsamples (Gnomad.hardy_weinberg q) rnd)
    as [[e'|g] rnd1] eqn:Ec.
  { simpl. intros [= <-]. apply syn_choice_error in Ec as [[-> _] | [-> Hn]]; auto. }
  rewrite GnomadFacts.append_record_eq. simpl.
  destruct (Gnomad.present g); [ | done].
  destruct (ALT r) as [|alt0 alts]; [ | done]. simpl. intros [= <-]. auto.
Qed.

(** The cause of each exception of one record. *)
Lemma syn_record_cause nsamples cnt r rnd e :
  fst (Gnomad.record_rows nsamples cnt r rnd) = inl e ->
  (e = TypeError /\
   exists af, INFO r !! "AF" = Some af /\ Gnomad.to_float af = inl TypeError) \/
  (e = ValueError "probabilities are not non-negative" /\
   exists af q, INFO r !! "AF" = Some af /\ Gnomad.to_float af = inr q /\
                ((q < 0)%Q \/ (1 < q)%Q)) \/
  (e = ValueError "negative dimensions are not allowed" /\ nsamples < 0) \/
  (e = IndexError /\ ALT r = []).
Proof.
  unfold Gnomad.record_rows, Gnomad.sample_genotypes.
  destruct (INFO r !! "AF") as [af|]; [ | done].
  destruct (negb (truthy af)); [done|].
  destruct (Gnomad.to_float af) as [e'|q] eqn:Ef.
  { simpl. intros [= <-]. left.
    assert (e' = TypeError) as -> by (destruct af; simpl in Ef; congruence). eauto. }
  destruct (Gnomad.np_random_choice [0; 1; 3] nsamples (Gnomad.hardy_weinberg q) rnd)
    as [[e'|g] rnd1] eqn:Ec.
  { simpl. intros [= <-]. apply syn_choice_error in Ec as [[-> Hq] | [-> Hn]]; eauto 10. }
  rewrite GnomadFacts.append_record_eq. simpl.
  destruct (Gnomad.present g); [ | done].
  destruct (ALT r) as [|alt0 alts]; [ | done]. simpl. intros [= <-]. auto.
Qed.

(** X5: what the exceptions of a run of [parquet_from_gnomad.py] tell
    about its input. A [TypeError] means that some record has an
    allele frequency that is not a number; the sampler's [ValueError]
    "probabilities are not non-negative" that some record has a
    frequency below 0 or above 1; its "negative dimensions are not
    allowed" that the number of samples is negative; an [IndexError]
    that some record has no alternate allele; a [ZeroDivisionError]
    that the chunk size is 0. The run never raises a [KeyError] (the
    frequency is read with [get]), the sampler never rejects the size or
    the sum of the Hardy-Weinberg probabilities, and the length check of
    [pd.DataFrame] never fails. (Frequencies are exact rationals here,
    and the conversion to the arrow types in [update_files] is not part
    of the model; the statement says nothing about other errors.) *)
Theorem synthetic_run_exceptions recs nsamples prefix c rnd0 e :
  fst (Gnomad.tables recs nsamples prefix c rnd0) = Some e ->
  (e = TypeError ->
     exists r af, r ∈ recs /\ INFO r !! "AF" = Some af /\
                  Gnomad.to_float af = inl TypeError) /\
  (e = ValueError "probabilities are not non-negative" ->
     exists r af q, r ∈ recs /\ INFO r !! "AF" = Some af /\
                    Gnomad.to_float af = inr q /\ ((q < 0)%Q \/ (1 < q)%Q)) /\
  (e = ValueError "negative dimensions are not allowed" -> nsamples < 0) /\
  (e = IndexError -> exists r, r ∈ recs /\ ALT r = []) /\
  (e = ZeroDivisionError -> c = 0) /\
  (forall key, e <> KeyError key) /\
  e <> ValueError "'a' and 'p' must have same size" /\
  e <> ValueError "probabilities do not sum to 1" /\
  e <> length_mismatch.
Proof.
  intros He.
  pose proof (GnomadFacts.syn_tables_spec recs nsamples prefix c rnd0) as H.
  destruct (Gnomad.tables recs nsamples prefix c rnd0) as [e' st].
  simpl in He. subst e'.
  destruct H as (_ & k & rows & cnt & rndk & rest & r & _ & _ & Hk & [Hr | (-> & -> & _)]).
  - assert (Hin : r ∈ recs) by (by eapply list_elem_of_lookup_2).
    apply syn_record_cause in Hr
      as [[-> (af & Haf & Hf)] | [[-> (af & q & Haf & Hf & Hq)] | [[-> Hn] | [-> Halt]]]].
    + split; [eauto 10|]. repeat (split; [done|]). done.
    + split; [done|]. split; [eauto 10|]. repeat (split; [done|]). done.
    + split; [done|]. split; [done|]. split; [done|]. repeat (split; [done|]). done.
    + split; [done|]. split; [done|]. split; [done|]. split; [eauto|].
      repeat (split; [done|]). done.
  - repeat (split; [done|]). done.
Qed.

Lemma synthetic_run_exceptions_witness :
  exists r af q, r ∈ [ex_site 100 (3 # 2)] /\ INFO r !! "AF" = Some af /\
                 Gnomad.to_float af = inr q /\ ((q < 0)%Q \/ (1 < q)%Q).
Proof.
  destruct (synthetic_run_exceptions [ex_site 100 (3 # 2)] 4 "out" 500 ex_rnd
              (ValueError "probabilities are not non-negative"))
    as (_ & Hneg & _); [vm_compute; reflexivity|].
  exact (Hneg eq_refl).
Defined.

(** ** The row groups a chunk size produces *)


Section Chunks.
Context {G : Type}.
Implicit Types (d : data_tables G) (ws : writers G).





End Chunks.


Lemma syn_step_eq nsamples prefix c r st :
  Gnomad.step nsamples prefix c r st =
  match Gnomad.record_rows nsamples (Gnomad.count st) r (Gnomad.np_rnd st) with
  | (inl e, rnd1) => (Some e, Gnomad.set_rnd st rnd1)
  | (inr None, rnd1) => (None, Gnomad.set_rnd st rnd1)
  | (inr (Some d), rnd1) =>
      let '(e, (d2, ws2)) :=
        flush_if_due Gnomad.get_schemas prefix c
          (Z.of_nat (length (v_vId (variants (dt_app (Gnomad.data st) d)))))
          (dt_app (Gnomad.data st) d) (Gnomad.ws st) in
      (e, {| Gnomad.count := Gnomad.count st + 1; Gnomad.data := d2;
             Gnomad.ws := ws2; Gnomad.np_rnd := rnd1 |})
  end.
Proof.
  unfold Gnomad.step, Gnomad.record_rows.
  destruct (Gnomad.sample_genotypes nsamples r (Gnomad.np_rnd st)) as [[e|[g|]] rnd'];
    [done | | done].
  rewrite !GnomadFacts.append_record_eq.
  destruct (Gnomad.present g); [ | done].
  destruct (ALT r !! 0%nat) as [alt0|]; [ | done].
  by rewrite dt_app_nil_l.
Qed.




(** ** Chunk sizes that are not positive *)

Lemma mod_opp_eqb (x c : Z) : (x mod (- c) =? 0) = (x mod c =? 0).
Proof.
  destruct (Z.eq_dec c 0) as [->|Hc]; [done|].
  destruct (Z.eqb_spec (x mod c) 0) as [E|E].
  - apply Z.eqb_eq. by apply Z.mod_opp_r_z.
  - apply Z.eqb_neq. intros E'. apply E.
    rewrite <- (Z.opp_involutive c). apply Z.mod_opp_r_z; [lia | done].
Qed.

Lemma flush_if_due_opp {G : Type} sch prefix c x (d : data_tables G) ws :
  flush_if_due sch prefix (- c) x d ws = flush_if_due sch prefix c x d ws.
Proof.
  unfold flush_if_due. rewrite mod_opp_eqb.
  replace (- c =? 0) with (c =? 0); [done|].
  destruct (Z.eqb_spec c 0), (Z.eqb_spec (- c) 0); (done || lia).
Qed.

(** X7: a negative chunk size is as good as its absolute value. Python's
    [%] takes the sign of the divisor, so [x % c == 0] holds exactly when
    [x % -c == 0] does, and the run with chunk size [-c] flushes at the
    same records and leaves the same files as the run with chunk size
    [c]. *)
Theorem negative_chunk_size :
  (forall vcf dataset prefix c rnd,
     VcfToParquet.tables vcf dataset prefix (- c) rnd =
     VcfToParquet.tables vcf dataset prefix c rnd) /\
  (forall recs nsamples prefix c rnd0,
     Gnomad.tables recs nsamples prefix (- c) rnd0 =
     Gnomad.tables recs nsamples prefix c rnd0).
Proof.
  split.
  - intros vcf dataset prefix c rnd. unfold VcfToParquet.tables.
    assert (E : forall ss M recs vid d ws,
              VcfToParquet.loop ss M prefix (- c) vid recs d ws =
              VcfToParquet.loop ss M prefix c vid recs d ws).
    { intros ss M. induction recs as [|r recs IH]; intros vid d ws; simpl; [done|].
      destruct (VcfToParquet.append_record ss M vid r d) as [e|d1]; [done|].
      rewrite flush_if_due_opp.
      destruct (flush_if_due _ prefix c (vid + 1) d1 ws) as [[e|] [d2 ws2]]; [done|].
      apply IH. }
    by rewrite E.
  - intros recs nsamples prefix c rnd0. unfold Gnomad.tables.
    assert (E : forall recs st,
              Gnomad.loop nsamples prefix (- c) recs st =
              Gnomad.loop nsamples prefix c recs st).
    { induction recs0 as [|r recs0 IH]; intros st; simpl; [done|].
      rewrite !syn_step_eq.
      destruct (Gnomad.record_rows nsamples (Gnomad.count st) r (Gnomad.np_rnd st))
        as [[e|[d1|]] rnd1]; [done | | apply IH].
      rewrite flush_if_due_opp.
      destruct (flush_if_due _ prefix c _ _ (Gnomad.ws st)) as [[e|] [d2 ws2]];
        [done | apply IH]. }
    by rewrite E.
Qed.

Lemma syn_loop_zero nsamples prefix recs : forall st,
  let res := Gnomad.loop nsamples prefix 0 recs st in
  Gnomad.ws (snd res) = Gnomad.ws st /\
  (fst res = None -> Gnomad.count (snd res) = Gnomad.count st).
Proof.
  induction recs as [|r recs IH]; intros st; simpl; [done|].
  rewrite syn_step_eq.
  destruct (Gnomad.record_rows nsamples (Gnomad.count st) r (Gnomad.np_rnd st))
    as [[e|[d1|]] rnd1]; [done | done | ].
  apply (IH (Gnomad.set_rnd st rnd1)).
Qed.

(** X8: with chunk size 0 nothing is ever written. The chunk test
    divides by zero as soon as a variant has been buffered, so the run
    completes only when it has no variant to emit (in
    [vcf_to_parquet.py]: no record at all), and it never opens a file
    for the three chunked tables. *)
Theorem zero_chunk_size :
  (forall vcf dataset prefix rnd,
     let res := VcfToParquet.tables vcf dataset prefix 0 rnd in
     out_writers (snd res) = no_writers /\
     (fst res = None -> VcfToParquet.records vcf = [])) /\
  (forall recs nsamples prefix rnd0,
     let res := Gnomad.tables recs nsamples prefix 0 rnd0 in
     Gnomad.ws (snd res) = no_writers /\
     (fst res = None -> Gnomad.count (snd res) = 0)).
Proof.
  split.
  - intros vcf dataset prefix rnd. unfold VcfToParquet.tables.
    destruct (write_sample_table _ dataset prefix true rnd) as [sf rnd1].
    destruct (VcfToParquet.records vcf) as [|r recs]; simpl; [done|].
    destruct (VcfToParquet.append_record _ _ 0 r empty_tables) as [e|d1]; simpl; done.
  - intros recs nsamples prefix rnd0. unfold Gnomad.tables.
    pose proof (syn_loop_zero nsamples prefix recs (Gnomad.init rnd0)) as H.
    pose proof (GnomadFacts.syn_loop_spec nsamples prefix 0 recs (Gnomad.init rnd0)
                  dt_ok_empty tied_empty (no_writers_fixed _)) as Hspec.
    destruct (Gnomad.loop nsamples prefix 0 recs (Gnomad.init rnd0)) as [[e|] st];
      simpl in H; destruct H as [Hws Hcnt]; [done|].
    specialize (Hcnt eq_refl).
    destruct Hspec as (rows & Hrows & Heq & _ & _ & _ & Hcase).
    apply GnomadFacts.all_rows_spec in Hrows as (_ & Hc & Hv & _).
    assert (Hnil : v_vId (variants (Gnomad.data st)) = []).
    { apply (f_equal (fun t => v_vId (variants t))) in Heq. simpl in Heq, Hws.
      rewrite Hws in Heq. simpl in Heq. rewrite Heq, Hv.
      rewrite Hcnt in Hc. simpl in Hc.
      change (Gnomad.np_rnd (Gnomad.init rnd0)) with rnd0.
      destruct (List.filter Gnomad.present (Gnomad.drawn nsamples recs rnd0));
        [done | simpl length in Hc; lia]. }
    unfold final_flush. rewrite Hnil. simpl. done.
Qed.

Lemma zero_chunk_size_witness :
  out_writers (snd (VcfToParquet.tables ex_vcf "ds" "out" 0 ex_rnd)) = no_writers /\
  Gnomad.count (snd (Gnomad.tables [ex_site 200 0] 4 "out" 0 ex_rnd)) = 0.
Proof.
  destruct zero_chunk_size as [Hvcf Hsyn]. split.
  - apply (Hvcf ex_vcf "ds" "out" ex_rnd).
  - apply (Hsyn [ex_site 200 0] 4 "out" ex_rnd). vm_compute; reflexivity.
Defined.

(** ** The files of the three chunked tables *)

Section Files.
Context {G : Type}.
Implicit Types (d : data_tables G) (ws : writers G).

Lemma files_ok_init sch prefix : files_ok sch prefix (@no_writers G).
Proof.
  split; [ | split].
  - by repeat split.
  - by left.
  - constructor.
Qed.

(** A flush of well-formed, non-empty buffers keeps the files as they
    should be. *)
Lemma update_files_files_ok sch prefix d ws :
  dt_ok d -> v_vId (variants d) <> [] -> files_ok sch prefix ws ->
  exists ws1, update_files sch d ws prefix = (None, ws1) /\ files_ok sch prefix ws1.
Proof.
  intros (Hv & Ha & Hg) Hne ((Pv & Pa & Pg) & Htog & Hgr).
  unfold update_files, update_file.
  rewrite (DataFrame_variants_ok _ Hv). simpl.
  rewrite (DataFrame_annotations_ok _ Ha). simpl.
  rewrite (DataFrame_gts_ok _ Hg). simpl.
  eexists. split; [reflexivity|].
  destruct Htog as [-> | (wv & wa & wg & Ev & Ea & Eg & Hpos & La & Lg)].
  - split; [ | split].
    + split; [ | split]; simpl; intros w [= <-]; by simpl.
    + right. simpl. eexists _, _, _. repeat split; simpl; lia.
    + unfold no_empty_group. simpl. by repeat constructor.
  - rewrite Ev, Ea, Eg. split; [ | split].
    + split; [ | split]; simpl; intros w [= <-]; simpl;
        [by apply Pv | by apply Pa | by apply Pg].
    + right. simpl. eexists _, _, _. repeat split; simpl; rewrite ?length_app; simpl; lia.
    + unfold no_empty_group in *. rewrite Ev in Hgr. simpl in *.
      apply Forall_app. split; [done | by repeat constructor].
Qed.

Lemma flush_if_due_files_ok sch prefix c x d ws :
  dt_ok d -> v_vId (variants d) <> [] -> files_ok sch prefix ws ->
  let res := flush_if_due sch prefix c x d ws in
  files_ok sch prefix (snd (snd res)) /\ dt_ok (fst (snd res)).
Proof.
  intros Hok Hne Hf. unfold flush_if_due.
  destruct (c =? 0); [done|].
  destruct (x mod c =? 0); [ | done].
  destruct (update_files_files_ok sch prefix d ws Hok Hne Hf) as (ws1 & -> & Hf1).
  simpl. split; [done | apply dt_ok_empty].
Qed.

Lemma final_flush_files_ok sch prefix d ws :
  dt_ok d -> files_ok sch prefix ws ->
  files_ok sch prefix (snd (final_flush sch prefix d ws)).
Proof.
  intros Hok Hf. unfold final_flush.
  destruct (v_vId (variants d)) as [|v l] eqn:E; simpl; [done|].
  destruct (update_files_files_ok sch prefix d ws Hok) as (ws1 & -> & Hf1);
    [by rewrite E | done | done].
Qed.

End Files.

Lemma vcf_loop_files_ok ss M prefix c : forall recs vid d ws,
  dt_ok d -> files_ok VcfToParquet.get_schemas prefix ws ->
  let res := VcfToParquet.loop ss M prefix c vid recs d ws in
  files_ok VcfToParquet.get_schemas prefix (snd (snd res)) /\ dt_ok (fst (snd res)).
Proof.
  induction recs as [|r recs IH]; intros vid d ws Hok Hf; simpl; [done|].
  rewrite VcfFacts.append_record_app.
  destruct (VcfToParquet.record_rows ss M vid r) as [e|d1] eqn:Hr; simpl; [done|].
  pose proof (flush_if_due_files_ok VcfToParquet.get_schemas prefix c (vid + 1)
                (dt_app d d1) ws) as Hfl.
  destruct (flush_if_due _ prefix c (vid + 1) (dt_app d d1) ws) as [[e|] [d2 ws2]];
    simpl in Hfl |- *.
  - apply Hfl; [ | | done].
    + apply dt_ok_app; [done | by eapply VcfFacts.record_rows_ok].
    + simpl. rewrite (VcfFacts.record_rows_vId _ _ _ _ _ Hr). by destruct (v_vId (variants d)).
  - destruct Hfl as [Hf2 Hok2]; [ | | done | by apply IH].
    + apply dt_ok_app; [done | by eapply VcfFacts.record_rows_ok].
    + simpl. rewrite (VcfFacts.record_rows_vId _ _ _ _ _ Hr). by destruct (v_vId (variants d)).
Qed.

Lemma syn_loop_files_ok nsamples prefix c : forall recs st,
  dt_ok (Gnomad.data st) -> files_ok Gnomad.get_schemas prefix (Gnomad.ws st) ->
  let res := Gnomad.loop nsamples prefix c recs st in
  files_ok Gnomad.get_schemas prefix (Gnomad.ws (snd res)) /\
  dt_ok (Gnomad.data (snd res)).
Proof.
  induction recs as [|r recs IH]; intros st Hok Hf; simpl; [done|].
  rewrite syn_step_eq.
  destruct (Gnomad.record_rows nsamples (Gnomad.count st) r (Gnomad.np_rnd st))
    as [[e|[d1|]] rnd1] eqn:Hr; [done | | by apply (IH (Gnomad.set_rnd st rnd1))].
  apply GnomadFacts.syn_record_rows_inv in Hr as (g & alt0 & _ & _ & _ & ->).
  pose proof (flush_if_due_files_ok Gnomad.get_schemas prefix c
                (Z.of_nat (length (v_vId (variants
                   (dt_app (Gnomad.data st)
                      (Gnomad.rows_of (Gnomad.count st + 1) r alt0 g))))))
                (dt_app (Gnomad.data st) (Gnomad.rows_of (Gnomad.count st + 1) r alt0 g))
                (Gnomad.ws st)) as Hfl.
  destruct (flush_if_due _ prefix c _ _ (Gnomad.ws st)) as [[e|] [d2 ws2]];
    simpl in Hfl |- *.
  - apply Hfl; [ | | done].
    + apply dt_ok_app; [done | apply GnomadFacts.rows_of_ok].
    + simpl. by destruct (v_vId (variants (Gnomad.data st))).
  - destruct Hfl as [Hf2 Hok2]; [ | | done | by apply IH].
    + apply dt_ok_app; [done | apply GnomadFacts.rows_of_ok].
    + simpl. by destruct (v_vId (variants (Gnomad.data st))).
Qed.

Lemma vcf_tables_files_ok vcf dataset prefix c rnd :
  files_ok VcfToParquet.get_schemas prefix
    (out_writers (snd (VcfToParquet.tables vcf dataset prefix c rnd))).
Proof.
  unfold VcfToParquet.tables.
  destruct (write_sample_table _ dataset prefix true rnd) as [sf rnd1].
  pose proof (vcf_loop_files_ok (VcfToParquet.samples vcf)
                (VcfToParquet.sample_to_sampleId (VcfToParquet.samples vcf))
                prefix c (VcfToParquet.records vcf) 0 empty_tables no_writers
                dt_ok_empty (files_ok_init _ _)) as H.
  destruct (VcfToParquet.loop _ _ prefix c 0 _ empty_tables no_writers)
    as [[e|] [d ws]]; simpl in H; destruct H as [Hf Hok]; [done|].
  pose proof (final_flush_files_ok VcfToParquet.get_schemas prefix d ws Hok Hf) as H.
  by destruct (final_flush _ prefix d ws) as [e ws1].
Qed.

Lemma syn_tables_files_ok recs nsamples prefix c rnd0 :
  files_ok Gnomad.get_schemas prefix
    (Gnomad.ws (snd (Gnomad.tables recs nsamples prefix c rnd0))).
Proof.
  unfold Gnomad.tables.
  pose proof (syn_loop_files_ok nsamples prefix c recs (Gnomad.init rnd0)
                dt_ok_empty (files_ok_init _ _)) as H.
  destruct (Gnomad.loop nsamples prefix c recs (Gnomad.init rnd0)) as [[e|] st];
    simpl in H; destruct H as [Hf Hok]; [done|].
  pose proof (final_flush_files_ok Gnomad.get_schemas prefix _ _ Hok Hf) as H.
  by destruct (final_flush _ prefix (Gnomad.data st) (Gnomad.ws st)) as [e ws1].
Qed.

(** X9: the files of the three chunked tables after a completed run of
    either script, whatever the chunk size. They exist together or
    not at all, each at [prefix_<table>.parquet] with the schema
    [get_schemas] declares for its table, and no row group of the
    variants file is empty. *)
Theorem chunked_files_together :
  (forall vcf dataset prefix c rnd out,
     VcfToParquet.tables vcf dataset prefix c rnd = (None, out) ->
     writers_at VcfToParquet.get_schemas prefix (out_writers out) /\
     all_or_none (out_writers out) /\ no_empty_group (out_writers out)) /\
  (forall recs nsamples prefix c rnd0 st,
     Gnomad.tables recs nsamples prefix c rnd0 = (None, st) ->
     writers_at Gnomad.get_schemas prefix (Gnomad.ws st) /\
     all_or_none (Gnomad.ws st) /\ no_empty_group (Gnomad.ws st)).
Proof.
  assert (Hto : forall G (ws : writers G), together ws -> all_or_none ws).
  { intros G ws [-> | (wv & wa & wg & Ev & Ea & Eg & _)]; [by left | right].
    rewrite Ev, Ea, Eg. eauto. }
  split.
  - intros vcf dataset prefix c rnd out Hrun.
    pose proof (vcf_tables_files_ok vcf dataset prefix c rnd) as (Hat & Htog & Hne).
    rewrite Hrun in Hat, Htog, Hne. auto.
  - intros recs nsamples prefix c rnd0 st Hrun.
    pose proof (syn_tables_files_ok recs nsamples prefix c rnd0) as (Hat & Htog & Hne).
    rewrite Hrun in Hat, Htog, Hne. auto.
Qed.

Lemma chunked_files_together_witness :
  all_or_none (out_writers (snd (VcfToParquet.tables ex_vcf "ds" "out" 3 ex_rnd))) /\
  no_empty_group (Gnomad.ws (snd (Gnomad.tables ex_sites 4 "out" 2 ex_rnd))).
Proof.
  destruct chunked_files_together as [Hvcf Hsyn]. split.
  - apply (Hvcf ex_vcf "ds" "out" 3 ex_rnd
             (snd (VcfToParquet.tables ex_vcf "ds" "out" 3 ex_rnd))).
    vm_compute; reflexivity.
  - apply (Hsyn ex_sites 4 "out" 2 ex_rnd
             (snd (Gnomad.tables ex_sites 4 "out" 2 ex_rnd))).
    vm_compute; reflexivity.
Defined.

(** ** The random numbers a synthetic run consumes *)

Lemma sample_genotypes_draws nsamples r rnd o rnd1 :
  Gnomad.sample_genotypes nsamples r rnd = (inr o, rnd1) ->
  mt_bits rnd1 = mt_bits rnd /\
  mt_pos rnd1 = (mt_pos rnd + (if has_frequency r then Z.to_nat nsamples else 0))%nat.
Proof.
  unfold Gnomad.sample_genotypes, has_frequency.
  destruct (INFO r !! "AF") as [af|]; [ | intros [= _ <-]; split; [done | lia]].
  destruct (truthy af); simpl; [ | intros [= _ <-]; split; [done | lia]].
  destruct (Gnomad.to_float af) as [e|q]; [discriminate|].
  destruct (Gnomad.np_random_choice [0; 1; 3] nsamples (Gnomad.hardy_weinberg q) rnd)
    as [[e|g] rnd'] eqn:E; [discriminate|].
  intros [= _ <-].
  apply GnomadFacts.np_random_choice_spec in E as (_ & _ & _ & Hp & Hb). done.
Qed.

Lemma syn_loop_draws nsamples prefix c : forall recs st st',
  Gnomad.loop nsamples prefix c recs st = (None, st') ->
  mt_bits (Gnomad.np_rnd st') = mt_bits (Gnomad.np_rnd st) /\
  mt_pos (Gnomad.np_rnd st') =
    (mt_pos (Gnomad.np_rnd st) +
     length (List.filter has_frequency recs) * Z.to_nat nsamples)%nat.
Proof.
  induction recs as [|r recs IH]; intros st st'; simpl.
  - intros [= <-]. split; [done | lia].
  - unfold Gnomad.step.
    destruct (Gnomad.sample_genotypes nsamples r (Gnomad.np_rnd st))
      as [[e|o] rnd1] eqn:Hs; [done|].
    apply sample_genotypes_draws in Hs as [Hb Hp].
    assert (Hgo : forall st1, Gnomad.np_rnd st1 = rnd1 ->
              Gnomad.loop nsamples prefix c recs st1 = (None, st') ->
              mt_bits (Gnomad.np_rnd st') = mt_bits (Gnomad.np_rnd st) /\
              mt_pos (Gnomad.np_rnd st') =
                (mt_pos (Gnomad.np_rnd st) +
                 length (List.filter has_frequency (r :: recs)) * Z.to_nat nsamples)%nat).
    { intros st1 E1 Hl. apply IH in Hl as [Hb' Hp']. rewrite E1 in Hb', Hp'.
      split; [congruence|]. rewrite Hp', Hp. simpl.
      destruct (has_frequency r); simpl; lia. }
    destruct o as [g|]; [ | by apply Hgo].
    destruct (Gnomad.append_record (Gnomad.count st + 1) r g (Gnomad.data st))
      as [e|[d1|]]; [done | | by apply Hgo].
    destruct (flush_if_due _ prefix c _ d1 (Gnomad.ws st)) as [[e|] [d2 ws2]];
      [done | by apply Hgo].
Qed.

(** X10: a completed synthetic run has drawn exactly [nsamples] random
    numbers for each record with a (non-zero) allele frequency and none
    for the others, whatever the chunk size: the records whose draw
    leaves no sample present are skipped after their numbers were
    consumed. *)
Theorem synthetic_random_draws recs nsamples prefix c rnd0 st :
  Gnomad.tables recs nsamples prefix c rnd0 = (None, st) ->
  mt_bits (Gnomad.np_rnd st) = mt_bits rnd0 /\
  mt_pos (Gnomad.np_rnd st) =
    (mt_pos rnd0 + length (List.filter has_frequency recs) * Z.to_nat nsamples)%nat.
Proof.
  unfold Gnomad.tables.
  destruct (Gnomad.loop nsamples prefix c recs (Gnomad.init rnd0)) as [[e|] st1] eqn:Hl;
    [done|].
  apply syn_loop_draws in Hl. simpl in Hl.
  destruct (final_flush _ prefix (Gnomad.data st1) (Gnomad.ws st1)) as [e ws1].
  by intros [= -> <-].
Qed.

Lemma synthetic_random_draws_witness :
  mt_pos (Gnomad.np_rnd (snd (Gnomad.tables ex_sites 4 "out" 2 ex_rnd))) = 16%nat.
Proof.
  destruct (synthetic_random_draws ex_sites 4 "out" 2 ex_rnd
              (snd (Gnomad.tables ex_sites 4 "out" 2 ex_rnd))) as [_ Hp];
    [vm_compute; reflexivity | ].
  rewrite Hp. vm_compute. reflexivity.
Defined.

(** ** The samples table *)

Lemma ethnicity_draw (u : Q) :
  (0 <= u)%Q -> (u < 1)%Q ->
  let i := Z.to_nat (Qfloor (u * inject_Z (Z.of_nat (length ethnicities)))) in
  (i < 7)%nat /\ ethnicities !! i = Some (ethnicities !!! i).
Proof.
  intros H0 H1.
  change (inject_Z (Z.of_nat (length ethnicities))) with (7 # 1)%Q.
  assert (Hlo : 0 <= Qfloor (u * (7 # 1))).
  { change 0 with (Qfloor 0). apply Qfloor_resp_le. lra. }
  assert (Hhi : Qfloor (u * (7 # 1)) < 7).
  { rewrite Zlt_Qlt. eapply Qle_lt_trans; [apply Qfloor_le|].
    change (inject_Z 7) with (7 # 1)%Q. lra. }
  cbv zeta. split; [lia|]. apply list_lookup_lookup_total_lt.
  change (length ethnicities) with 7%nat. lia.
Qed.

Lemma birth_sex_draw (u : Q) :
  (0 <= u)%Q -> (u < 1)%Q ->
  let cum_weights := cumsum [1000 # 1; 1000 # 1; 1 # 1]%Q in
  let s := birth_sexes !!!
             bisect_right (take (length birth_sexes - 1) cum_weights)
               (u * List.last cum_weights 0)%Q in
  ((u * (2001 # 1) < 1000 # 1)%Q /\ s = "male") \/
  ((1000 # 1 <= u * (2001 # 1))%Q /\ (u * (2001 # 1) < 2000 # 1)%Q /\ s = "female") \/
  ((2000 # 1 <= u * (2001 # 1))%Q /\ s = "other").
Proof.
  intros H0 H1. cbv zeta.
  unfold cumsum. cbn [cumsum_from List.last length birth_sexes Nat.sub firstn bisect_right].
  set (c1 := (0 + (1000 # 1))%Q). set (c2 := (c1 + (1000 # 1))%Q).
  set (c3 := (c2 + (1 # 1))%Q).
  assert (E1 : (c1 == 1000 # 1)%Q) by (unfold c1; lra).
  assert (E2 : (c2 == 2000 # 1)%Q) by (unfold c2, c1; lra).
  assert (E3 : (c3 == 2001 # 1)%Q) by (unfold c3, c2, c1; lra).
  destruct (Qle_bool c1 (u * c3)) eqn:B1.
  - apply Qle_bool_iff in B1.
    destruct (Qle_bool c2 (u * c3)) eqn:B2.
    + apply Qle_bool_iff in B2. right; right. split; [ | done].
      rewrite E2, E3 in B2. done.
    + right; left. split; [by rewrite E1, E3 in B1 | split; [ | done]].
      apply Qnot_le_lt. intros B. rewrite <- E2, <- E3 in B.
      apply Qle_bool_iff in B. congruence.
  - left. split; [ | done].
    apply Qnot_le_lt. intros B. rewrite <- E1, <- E3 in B.
    apply Qle_bool_iff in B. congruence.
Qed.

Lemma birth_sex_member (u : Q) :
  (0 <= u)%Q -> (u < 1)%Q ->
  birth_sexes !!!
    bisect_right (take (length birth_sexes - 1) (cumsum [1000 # 1; 1000 # 1; 1 # 1]%Q))
      (u * List.last (cumsum [1000 # 1; 1000 # 1; 1 # 1]%Q) 0)%Q ∈ birth_sexes.
Proof.
  intros H0 H1.
  destruct (birth_sex_draw u H0 H1) as [[_ ->] | [(_ & _ & ->) | [_ ->]]];
    apply list_elem_of_In; simpl; auto.
Qed.

(** X11: the samples table both scripts write for [n] sample names. It
    is one row group of [n] rows, numbered from 0, with the names as
    they come as sample name and as patient identifier. The call draws
    [2n] random numbers, and every ethnicity and every birth sex it
    writes is a member of its list: the position computed from a
    random number is never out of range. *)
Theorem sample_table_content ss dataset prefix consent rnd :
  let res := write_sample_table ss dataset prefix consent rnd in
  let n := length ss in
  exists t,
    pq_row_groups (fst res) = [t] /\
    sm_sampleId t = range n /\ sm_sample_name t = ss /\ sm_patientId t = ss /\
    sm_dataset t = replicate n dataset /\ sm_consent t = replicate n consent /\
    length (sm_ethnicity t) = n /\ length (sm_birth_sex t) = n /\
    Forall (fun s => s ∈ ethnicities) (sm_ethnicity t) /\
    Forall (fun s => s ∈ birth_sexes) (sm_birth_sex t) /\
    mt_pos (snd res) = (mt_pos rnd + 2 * n)%nat /\ mt_bits (snd res) = mt_bits rnd.
Proof.
  cbv zeta. unfold write_sample_table, choices.
  destruct (GnomadFacts.random_sample_spec (length ss) rnd) as (L1 & P1 & B1 & U1).
  destruct (random_sample (length ss) rnd) as [us1 rnd1]. simpl in L1, P1, B1, U1.
  destruct (GnomadFacts.random_sample_spec (length ss) rnd1) as (L2 & P2 & B2 & U2).
  destruct (random_sample (length ss) rnd1) as [us2 rnd2]. simpl in L2, P2, B2, U2.
  cbn [fst snd]. eexists. split; [reflexivity|]. cbn [sm_sampleId sm_sample_name
    sm_patientId sm_dataset sm_consent sm_ethnicity sm_birth_sex].
  repeat (split; [reflexivity|]).
  split; [by rewrite length_map|]. split; [by rewrite length_map|].
  split; [ | split; [ | split; [lia | congruence]]].
  - apply Forall_fmap. eapply Forall_impl; [exact U1|].
    intros u [H0 H1]. simpl. destruct (ethnicity_draw u H0 H1) as [_ E].
    cbv zeta in E. by eapply list_elem_of_lookup_2.
  - apply Forall_fmap. eapply Forall_impl; [exact U2|].
    intros u [H0 H1]. simpl. exact (birth_sex_member u H0 H1).
Qed.

(** ** Strings: [str] of an integer and [join] *)

Lemma chars_app s1 s2 : chars (s1 +:+ s2) = (chars s1 ++ chars s2)%list.
Proof. induction s1 as [|a s1 IH]; simpl; [done | by rewrite IH]. Qed.

Lemma chars_inj s1 s2 : chars s1 = chars s2 -> s1 = s2.
Proof.
  revert s2. induction s1 as [|a s1 IH]; intros [|b s2]; simpl; try done.
  intros [= -> H]. by rewrite (IH _ H).
Qed.

Lemma append_snoc t a s : (t +:+ String a "") +:+ s = t +:+ String a s.
Proof.
  induction t as [|b t IH]; [done|].
  change (String b ((t +:+ String a "") +:+ s) = String b (t +:+ String a s)).
  by rewrite IH.
Qed.

Lemma pretty_N_char_digit x : pretty_N_char x ∈ chars "0123456789".
Proof.
  apply list_elem_of_In. unfold pretty_N_char.
  repeat case_match; simpl; auto 20.
Qed.

Lemma pretty_N_go_chars x : forall s c,
  c ∈ chars (pretty_N_go x s) -> c ∈ chars "0123456789" \/ c ∈ chars s.
Proof.
  induction (N.lt_wf_0 x) as [x _ IH]; intros s c.
  assert (x = 0 \/ 0 < x)%N as [->|Hx] by lia.
  - rewrite pretty_N_go_0. auto.
  - rewrite pretty_N_go_step by done. intros H.
    apply IH in H; [ | by apply N.div_lt].
    destruct H as [H|H]; [auto|]. simpl in H.
    apply elem_of_cons in H as [->|H]; [left; apply pretty_N_char_digit | auto].
Qed.

(** The decimal digits of a positive number start with a digit other
    than 0. *)
Lemma pretty_N_go_lead x : forall s,
  (0 < x)%N ->
  exists d t, pretty_N_go x s = String d (t +:+ s) /\ d ∈ chars "123456789".
Proof.
  induction (N.lt_wf_0 x) as [x _ IH]; intros s Hx.
  rewrite pretty_N_go_step by done.
  destruct (N.eq_dec (x `div` 10)%N 0%N) as [E|Hd%N.neq_0_lt_0].
  - rewrite E, pretty_N_go_0. exists (pretty_N_char (x `mod` 10)), "".
    split; [done|].
    assert (Hlt : (x < 10)%N) by (by apply N.div_small_iff in E).
    rewrite N.mod_small by done.
    assert (x = 1 \/ x = 2 \/ x = 3 \/ x = 4 \/ x = 5 \/ x = 6 \/ x = 7 \/ x = 8 \/ x = 9)%N
      as Hc by lia.
    apply list_elem_of_In.
    destruct Hc as [->|[->|[->|[->|[->|[->|[->|[->| ->]]]]]]]]; simpl; auto 20.
  - destruct (IH (x `div` 10)%N (N.div_lt x 10 Hx eq_refl)
                (String (pretty_N_char (x `mod` 10)) s) Hd) as (d & t & -> & Hdig).
    exists d, (t +:+ String (pretty_N_char (x `mod` 10)) "").
    by rewrite append_snoc.
Qed.

Lemma str_pos p : str (Z.pos p) = pretty_N_go (N.pos p) "".
Proof. done. Qed.

Lemma str_neg p : str (Z.neg p) = "-" +:+ pretty_N_go (N.pos p) "".
Proof. done. Qed.

Lemma str_chars z c : c ∈ chars (str z) -> c ∈ chars "0123456789-".
Proof.
  assert (Hsub : forall a, a ∈ chars "0123456789" -> a ∈ chars "0123456789-").
  { intros a Ha. apply list_elem_of_In in Ha. apply list_elem_of_In.
    simpl in *. repeat (destruct Ha as [Ha|Ha]; [auto 20|]). done. }
  destruct z as [|p|p].
  - intros H. apply Hsub. change (str 0) with "0" in H. simpl in H.
    apply list_elem_of_singleton in H as ->. apply list_elem_of_In. simpl. auto.
  - rewrite str_pos. intros H. apply pretty_N_go_chars in H as [H|H]; [auto|].
    simpl in H. by apply elem_of_nil in H.
  - rewrite str_neg. simpl. intros H. apply elem_of_cons in H as [->|H].
    + apply list_elem_of_In. simpl. auto 20.
    + apply pretty_N_go_chars in H as [H|H]; [auto|].
      simpl in H. by apply elem_of_nil in H.
Qed.

Lemma str_nonempty z : str z <> "".
Proof.
  destruct z as [|p|p]; [done | | done].
  rewrite str_pos. destruct (pretty_N_go_lead (N.pos p) "") as (d & t & -> & _); done.
Qed.

Lemma str_inj z1 z2 : str z1 = str z2 -> z1 = z2.
Proof. apply pretty_Z_inj. Qed.

(** [join] on characters. *)
Lemma chars_join (c : ascii) (l : list string) :
  chars (join (String c "") l) = joinl c (map chars l).
Proof.
  unfold join. induction l as [|x l IH]; [done|].
  destruct l as [|y l]; [done|].
  change (String.concat (String c "") (x :: y :: l))
    with (x +:+ String c "" +:+ String.concat (String c "") (y :: l)).
  rewrite !chars_app, IH. done.
Qed.

Lemma joinl_elem c sep (l : list (list ascii)) :
  c ∈ joinl sep l -> c = sep \/ exists x, x ∈ l /\ c ∈ x.
Proof.
  induction l as [|x l IH]; simpl; [by intros ?%elem_of_nil|].
  destruct l as [|y l].
  - intros H. right. exists x. split; [apply list_elem_of_here | done].
  - intros H. apply elem_of_app in H as [H|H].
    + right. exists x. split; [apply list_elem_of_here | done].
    + apply elem_of_cons in H as [->|H]; [by left|].
      destruct (IH H) as [->|(x' & Hx' & Hc)]; [by left|].
      right. exists x'. split; [by apply list_elem_of_further | done].
Qed.

Lemma joinl_sep c (x y : list ascii) l : c ∈ joinl c (x :: y :: l).
Proof.
  change (joinl c (x :: y :: l)) with (x ++ c :: joinl c (y :: l))%list.
  apply elem_of_app. right. apply list_elem_of_here.
Qed.

(** The text before the first separator. *)
Lemma split_at_sep (c : ascii) (x x' r r' : list ascii) :
  c ∉ x -> c ∉ x' -> (x ++ c :: r = x' ++ c :: r')%list -> x = x' /\ r = r'.
Proof.
  revert x'. induction x as [|a x IH]; intros [|a' x'] Hx Hx'; simpl.
  - by intros [= ->].
  - intros [= <- _]. exfalso. apply Hx'. apply list_elem_of_here.
  - intros [= -> _]. exfalso. apply Hx. apply list_elem_of_here.
  - intros [= -> H]. destruct (IH x') as [-> ->]; [ | | done | done].
    + intros Hc. apply Hx. by apply list_elem_of_further.
    + intros Hc. apply Hx'. by apply list_elem_of_further.
Qed.

Lemma joinl_inj (c : ascii) (l1 : list (list ascii)) : forall l2,
  Forall (fun x => (c ∉ x) /\ x <> []) l1 -> Forall (fun x => (c ∉ x) /\ x <> []) l2 ->
  joinl c l1 = joinl c l2 -> l1 = l2.
Proof.
  induction l1 as [|x l1 IH]; intros l2 H1 H2.
  - destruct l2 as [|y l2]; [done|]. simpl.
    apply Forall_cons in H2 as [[_ Hy] _].
    destruct l2 as [|z l2]; [by intros <- | by destruct y].
  - apply Forall_cons in H1 as [[Hx Hxn] H1].
    destruct l2 as [|y l2].
    { simpl. destruct l1; [by intros -> | by destruct x]. }
    apply Forall_cons in H2 as [[Hy Hyn] H2].
    destruct l1 as [|x1 l1], l2 as [|y1 l2].
    + simpl. by intros ->.
    + intros E. exfalso. apply Hx. simpl in E. rewrite E.
      apply (joinl_sep c y y1 l2).
    + intros E. exfalso. apply Hy. simpl in E. rewrite <- E.
      apply (joinl_sep c x x1 l1).
    + change (joinl c (x :: x1 :: l1)) with (x ++ c :: joinl c (x1 :: l1))%list.
      change (joinl c (y :: y1 :: l2)) with (y ++ c :: joinl c (y1 :: l2))%list.
      intros E. apply split_at_sep in E as [-> E]; [ | done | done].
      by rewrite (IH _ H1 H2 E).
Qed.

Lemma str_parts (c : ascii) (a : list Z) :
  c ∉ chars "0123456789-" ->
  Forall (fun x => (c ∉ x) /\ x <> []) (map chars (map str a)).
Proof.
  intros Hc. induction a as [|z a IH]; simpl; constructor; [ | done].
  split.
  - intros H. by apply Hc, (str_chars z).
  - intros H. apply (str_nonempty z). by apply chars_inj.
Qed.

Lemma str_parts_inj (a1 a2 : list Z) :
  map chars (map str a1) = map chars (map str a2) -> a1 = a2.
Proof.
  revert a2. induction a1 as [|x a1 IH]; intros [|y a2]; simpl; try done.
  intros [= H1 H2]. apply chars_inj, str_inj in H1 as ->. by rewrite (IH _ H2).
Qed.

Lemma gt_string_snoc (a : list Z) (f : Z) :
  VcfToParquet.gt_string (a ++ [f]) =
  inr (join (if negb (f =? 0) then "|" else "/") (map str a)).
Proof.
  unfold VcfToParquet.gt_string. by rewrite last_snoc, removelast_last.
Qed.

(** Two joins of decimal numbers with different separators are equal
    only when neither uses its separator. *)
Lemma joinl_str_seps (c1 c2 : ascii) (a1 a2 : list Z) :
  c1 <> c2 -> c1 ∉ chars "0123456789-" -> c2 ∉ chars "0123456789-" ->
  joinl c1 (map chars (map str a1)) = joinl c2 (map chars (map str a2)) ->
  a1 = a2 /\ (length a1 <= 1)%nat.
Proof.
  intros Hne H1 H2 E.
  assert (L1 : (length a1 <= 1)%nat).
  { destruct a1 as [|x [|y a1]]; simpl; [lia | lia | exfalso].
    pose proof (joinl_sep c1 (chars (str x)) (chars (str y)) (map chars (map str a1)))
      as Hin.
    change (map chars (map str (x :: y :: a1)))
      with (chars (str x) :: chars (str y) :: map chars (map str a1)) in E.
    rewrite E in Hin. apply joinl_elem in Hin as [? | (p & Hp & Hc)]; [done|].
    pose proof (str_parts c1 a2 H1) as F. rewrite List.Forall_forall in F.
    apply list_elem_of_In in Hp. by destruct (F _ Hp). }
  assert (L2 : (length a2 <= 1)%nat).
  { destruct a2 as [|x [|y a2]]; simpl; [lia | lia | exfalso].
    pose proof (joinl_sep c2 (chars (str x)) (chars (str y)) (map chars (map str a2)))
      as Hin.
    change (map chars (map str (x :: y :: a2)))
      with (chars (str x) :: chars (str y) :: map chars (map str a2)) in E.
    rewrite <- E in Hin. apply joinl_elem in Hin as [? | (p & Hp & Hc)]; [done|].
    pose proof (str_parts c2 a1 H2) as F. rewrite List.Forall_forall in F.
    apply list_elem_of_In in Hp. by destruct (F _ Hp). }
  split; [ | done].
  destruct a1 as [|x [|? ?]], a2 as [|y [|? ?]]; simpl in *; try lia; try done.
  - exfalso. apply (str_nonempty y). by apply chars_inj.
  - exfalso. apply (str_nonempty x). by apply chars_inj.
  - by apply chars_inj, str_inj in E as ->.
Qed.

(** X12: what the genotype string keeps. For allele numbers [a1], [a2]
    and phase flags [f1], [f2], the strings of [a1 + [f1]] and
    [a2 + [f2]] are equal exactly when the allele numbers are equal
    and, unless there are fewer than two of them, the flags are both
    true or both false: the string determines the alleles, and the
    phase only when a separator is printed (a haploid call loses it). *)
Theorem gt_string_injective (a1 a2 : list Z) (f1 f2 : Z) :
  VcfToParquet.gt_string (a1 ++ [f1]) = VcfToParquet.gt_string (a2 ++ [f2]) <->
  a1 = a2 /\ ((length a1 <= 1)%nat \/ (f1 =? 0) = (f2 =? 0)).
Proof.
  rewrite !gt_string_snoc. split.
  - intros [= E]. apply (f_equal chars) in E.
    assert (Hbar : "|"%char ∉ chars "0123456789-").
    { intros H. apply list_elem_of_In in H. simpl in H.
      repeat (destruct H as [H|H]; [discriminate|]). done. }
    assert (Hsl : "/"%char ∉ chars "0123456789-").
    { intros H. apply list_elem_of_In in H. simpl in H.
      repeat (destruct H as [H|H]; [discriminate|]). done. }
    destruct (f1 =? 0), (f2 =? 0); simpl in E;
      rewrite !chars_join in E.
    + apply joinl_inj in E; [ | by apply str_parts..].
      apply str_parts_inj in E. auto.
    + apply joinl_str_seps in E as [-> L]; auto; discriminate.
    + apply joinl_str_seps in E as [-> L]; auto; discriminate.
    + apply joinl_inj in E; [ | by apply str_parts..].
      apply str_parts_inj in E. auto.
  - intros [-> [L | ->]]; [ | done].
    by destruct a2 as [|x [|? ?]]; simpl in L; [ | destruct (f1 =? 0), (f2 =? 0) | lia].
Qed.

(** ** The sample names of a synthetic run *)

Lemma zeros_S (k : nat) :
  String.concat "" (replicate (S k) "0") =
  String "0" (String.concat "" (replicate k "0")).
Proof. by destruct k. Qed.

Lemma str_lead (i : Z) :
  0 < i -> exists d t, str i = String d t /\ d <> "0"%char.
Proof.
  destruct i as [|p|p]; [lia | intros _ | lia].
  rewrite str_pos. destruct (pretty_N_go_lead (N.pos p) "") as (d & t & -> & Hd); [done|].
  exists d, (t +:+ ""). split; [done|]. intros ->.
  apply list_elem_of_In in Hd. simpl in Hd.
  repeat (destruct Hd as [Hd|Hd]; [discriminate|]). done.
Qed.

Lemma zeros_lead_inj (k1 : nat) : forall (k2 : nat) d1 t1 d2 t2,
  d1 <> "0"%char -> d2 <> "0"%char ->
  String.concat "" (replicate k1 "0") +:+ String d1 t1 =
  String.concat "" (replicate k2 "0") +:+ String d2 t2 ->
  String d1 t1 = String d2 t2.
Proof.
  induction k1 as [|k1 IH]; intros [|k2] d1 t1 d2 t2 H1 H2; rewrite ?zeros_S.
  - done.
  - intros [= -> _]. done.
  - intros [= <- _]. done.
  - intros [= E]. by apply (IH k2).
Qed.

Lemma zeros_chars (k : nat) c :
  c ∈ chars (String.concat "" (replicate k "0")) -> c = "0"%char.
Proof.
  induction k as [|k IH]; [by intros ?%elem_of_nil|].
  rewrite zeros_S. simpl. intros [->|H]%elem_of_cons; auto.
Qed.

Lemma pad5_inj (i j : Z) : 0 <= i -> 0 <= j -> Gnomad.pad5 i = Gnomad.pad5 j -> i = j.
Proof.
  assert (Hzero : forall j, 0 < j -> Gnomad.pad5 0 <> Gnomad.pad5 j).
  { intros j' Hj E. destruct (str_lead j' Hj) as (d & t & Es & Hd).
    unfold Gnomad.pad5 in E. cbv zeta in E. rewrite Es in E.
    change (str 0) with "0" in E.
    apply (f_equal chars) in E. apply Hd.
    assert (Hin : d ∈ chars (String.concat "" (replicate (5 - String.length "0") "0")
                             +:+ "0")).
    { rewrite E, chars_app. apply elem_of_app. right. apply list_elem_of_here. }
    rewrite chars_app in Hin. apply elem_of_app in Hin as [Hin|Hin].
    - by apply zeros_chars in Hin.
    - simpl in Hin. by apply list_elem_of_singleton in Hin. }
  intros Hi Hj E.
  destruct (Z.eq_dec i 0) as [->|Hi0], (Z.eq_dec j 0) as [->|Hj0]; [done | | | ].
  - exfalso. apply (Hzero j); [lia | done].
  - exfalso. apply (Hzero i); [lia | done].
  - destruct (str_lead i) as (d1 & t1 & E1 & H1); [lia|].
    destruct (str_lead j) as (d2 & t2 & E2 & H2); [lia|].
    unfold Gnomad.pad5 in E. cbv zeta in E. rewrite E1, E2 in E.
    apply zeros_lead_inj in E; [ | done | done].
    apply str_inj. by rewrite E1, E2.
Qed.

(** X13: the sample names a synthetic run makes up,
    [<dataset>_<i padded to five digits>] for [i] below [nsamples], are
    pairwise distinct, also beyond 99999 samples where the padding no
    longer applies; there are [nsamples] of them (none when [nsamples]
    is negative). *)
Theorem synthetic_sample_names_distinct recs dataset prefix nsamples c rnd rnd0 :
  let names :=
    sample_names (out_samples (snd (Gnomad.main recs dataset prefix nsamples c rnd rnd0))) in
  length names = Z.to_nat nsamples /\ NoDup names.
Proof.
  cbv zeta. rewrite main_tables. cbn [snd out_samples].
  destruct (sample_ids_written
              (map (fun i => dataset +:+ "_" +:+ Gnomad.pad5 i) (range (Z.to_nat nsamples)))
              dataset prefix true rnd) as [_ ->].
  split.
  - unfold range. by rewrite !length_map, length_seq.
  - apply (NoDup_fmap_2_strong (fun i => dataset +:+ "_" +:+ Gnomad.pad5 i)).
    + intros i j Hi Hj E.
      apply String.app_inj in E. apply (String.app_inj "_") in E.
      unfold range in Hi, Hj.
      apply list_elem_of_fmap in Hi as (a & -> & _).
      apply list_elem_of_fmap in Hj as (b & -> & _).
      apply pad5_inj in E; [done | lia | lia].
    + apply NoDup_range.
Qed.

(** ** The key of the genotype table *)

Lemma keys_sorted_app (l1 l2 : list (Z * Z)) :
  keys_sorted l1 -> keys_sorted l2 ->
  (forall p q, p ∈ l1 -> q ∈ l2 -> key_lt p q) ->
  keys_sorted (l1 ++ l2).
Proof.
  induction l1 as [|p l1 IH]; simpl; [done|].
  intros [Hp H1] H2 Hx. split.
  - apply Forall_app. split; [done|].
    apply List.Forall_forall. intros q Hq.
    apply Hx; [apply list_elem_of_here | by apply list_elem_of_In].
  - apply IH; [done | done | ].
    intros p' q Hp' Hq. apply Hx; [by apply list_elem_of_further | done].
Qed.

Lemma keys_sorted_prefix (l1 l2 : list (Z * Z)) : keys_sorted (l1 ++ l2) -> keys_sorted l1.
Proof.
  induction l1 as [|p l1 IH]; simpl; [done|].
  intros [Hp H]. apply Forall_app in Hp as [Hp _]. auto.
Qed.

Lemma keys_sorted_NoDup (l : list (Z * Z)) : keys_sorted l -> NoDup l.
Proof.
  induction l as [|p l IH]; simpl; [constructor|].
  intros [Hp H]. constructor; [ | auto].
  intros Hin. rewrite List.Forall_forall in Hp.
  apply list_elem_of_In, Hp in Hin. destruct Hin as [? | [_ ?]]; lia.
Qed.

(** The rows of one variant: positions found by [np.where], in order. *)
Lemma keys_one_variant {A : Type} (P : A -> bool) (vid : Z) (l : list A) : forall i,
  let idx := where_from P i l in
  keys_sorted (zip (replicate (length idx) vid) (map Z.of_nat idx)) /\
  Forall (fun p => fst p = vid /\ Z.of_nat i <= snd p)
    (zip (replicate (length idx) vid) (map Z.of_nat idx)).
Proof.
  induction l as [|x l IH]; intros i; simpl; [split; [done | constructor]|].
  destruct (IH (S i)) as [Hs Hb]. cbv zeta in Hs, Hb.
  destruct (P x); simpl.
  - split; [split; [ | done] | constructor; [simpl; lia | ]].
    + eapply Forall_impl; [exact Hb|]. intros [v s] [Hv Hlt]. simpl in *.
      right. simpl. lia.
    + eapply Forall_impl; [exact Hb|]. intros [v s] [Hv Hlt]. simpl in *. lia.
  - split; [done|].
    eapply Forall_impl; [exact Hb|]. intros [v s] [Hv Hlt]. simpl in *. lia.
Qed.

Lemma gt_keys_app {G : Type} (a b : gt_table G) :
  gt_ok a -> gt_keys (gt_app a b) = (gt_keys a ++ gt_keys b)%list.
Proof.
  intros [Hc _]. unfold gt_keys, gt_app. simpl.
  apply zip_with_app. by rewrite Hc.
Qed.

(** With distinct sample names a call gets the position of its sample. *)
Lemma vcf_calls_ids ss vid r hs :
  NoDup ss -> forall t d,
  VcfToParquet.append_calls ss (VcfToParquet.sample_to_sampleId ss) vid r hs t = inr d ->
  g_callsetId d = (g_callsetId t ++ map Z.of_nat hs)%list.
Proof.
  intros Hnd. induction hs as [|idx hs IH]; intros t d; simpl.
  - intros [= <-]. by rewrite app_nil_r.
  - intros H. apply bind_inr_inv in H as (name & Hname & H).
    apply bind_inr_inv in H as (sid & Hsid & H).
    apply bind_inr_inv in H as (genotype & _ & H).
    apply bind_inr_inv in H as (gt & _ & H).
    apply IH in H. simpl in H. rewrite H, <- app_assoc. simpl.
    unfold getitem in Hname. destruct (ss !! idx) as [n|] eqn:E; [ | done].
    injection Hname as ->.
    unfold getkey in Hsid.
    rewrite (VcfFacts.sample_map_nodup ss idx name Hnd E) in Hsid.
    by injection Hsid as <-.
Qed.

Lemma vcf_all_rows_keys ss recs :
  NoDup ss -> forall vid rows,
  VcfToParquet.all_rows ss (VcfToParquet.sample_to_sampleId ss) vid recs = inr rows ->
  keys_sorted (gt_keys (gts rows)) /\
  Forall (fun p => vid <= fst p) (gt_keys (gts rows)).
Proof.
  intros Hnd. induction recs as [|r recs IH]; intros vid rows; simpl.
  - intros [= <-]. split; [done | constructor].
  - intros H. apply bind_inr_inv in H as (d & Hd & H).
    apply bind_inr_inv in H as (ds & Hds & [= <-]).
    destruct (IH _ _ Hds) as [Hs Hb].
    pose proof (VcfFacts.record_rows_ok _ _ _ _ _ Hd) as (_ & _ & Hok).
    apply VcfFacts.record_rows_inv in Hd as (alt0 & gene & g & _ & _ & Hg & ->).
    simpl in Hok |- *.
    pose proof (vcf_calls_ids ss vid r _ Hnd _ _ Hg) as Hc. simpl in Hc.
    apply VcfFacts.append_calls_nil in Hg as (Hv & _).
    destruct (keys_one_variant (fun t => t mod 2 =? 1) vid (gt_types r) 0) as [K1 K2].
    cbv zeta in K1, K2. fold (np_where (fun t => t mod 2 =? 1) (gt_types r)) in K1, K2.
    assert (Ek : gt_keys g =
                 zip (replicate (length (np_where (fun t => t mod 2 =? 1) (gt_types r))) vid)
                     (map Z.of_nat (np_where (fun t => t mod 2 =? 1) (gt_types r)))).
    { unfold gt_keys. by rewrite Hv, Hc. }
    rewrite gt_keys_app by done. rewrite Ek. split.
    + apply keys_sorted_app; [done | done | ].
      intros p q Hp Hq. left.
      rewrite List.Forall_forall in K2, Hb.
      apply list_elem_of_In, K2 in Hp. apply list_elem_of_In, Hb in Hq. lia.
    + apply Forall_app. split.
      * eapply Forall_impl; [exact K2|]. simpl. intros p [? _]. lia.
      * eapply Forall_impl; [exact Hb|]. simpl. intros p ?. lia.
Qed.

Lemma syn_all_rows_keys nsamples recs : forall cnt rnd rows cnt' rnd',
  Gnomad.all_rows nsamples cnt recs rnd = (inr (rows, cnt'), rnd') ->
  keys_sorted (gt_keys (gts rows)) /\
  Forall (fun p => cnt < fst p) (gt_keys (gts rows)).
Proof.
  induction recs as [|r recs IH]; intros cnt rnd rows cnt' rnd'; simpl.
  - intros [= <- _ _]. split; [done | constructor].
  - destruct (Gnomad.record_rows nsamples cnt r rnd) as [[e|[d|]] rnd1] eqn:Hr;
      [done | | by apply IH].
    destruct (Gnomad.all_rows nsamples (cnt + 1) recs rnd1) as [[e|[ds c2]] rnd2] eqn:Ha;
      [done|].
    intros [= <- _ _]. destruct (IH _ _ _ _ _ Ha) as [Hs Hb].
    apply GnomadFacts.syn_record_rows_inv in Hr as (g & alt0 & _ & _ & _ & ->).
    pose proof (GnomadFacts.rows_of_ok (cnt + 1) r alt0 g) as (_ & _ & Hok).
    destruct (keys_one_variant (fun x => 0 <? x) (cnt + 1) g 0) as [K1 K2].
    cbv zeta in K1, K2. fold (np_where (fun x => 0 <? x) g) in K1, K2.
    simpl gts. rewrite gt_keys_app by done.
    change (gt_keys (gts (Gnomad.rows_of (cnt + 1) r alt0 g)))
      with (zip (replicate (length (np_where (fun x => 0 <? x) g)) (cnt + 1))
                (map Z.of_nat (np_where (fun x => 0 <? x) g))).
    split.
    + apply keys_sorted_app; [done | done | ].
      intros p q Hp Hq. left.
      rewrite List.Forall_forall in K2, Hb.
      apply list_elem_of_In, K2 in Hp. apply list_elem_of_In, Hb in Hq. lia.
    + apply Forall_app. split.
      * eapply Forall_impl; [exact K2|]. simpl. intros p [? _]. lia.
      * eapply Forall_impl; [exact Hb|]. simpl. intros p ?. lia.
Qed.

(** X14: the genotype-calls file is sorted by its key. In every run of
    the synthetic script, and in every run of [vcf_to_parquet.py] on a
    header with distinct sample names, whatever the outcome and the
    chunk size, the rows of the genotype file are in strictly
    increasing order of (vId, callsetId): no variant has two rows for
    one callset. *)
Theorem genotype_keys_sorted :
  (forall vcf dataset prefix c rnd,
     NoDup (VcfToParquet.samples vcf) ->
     let keys := gt_keys (gts (written (out_writers
                   (snd (VcfToParquet.tables vcf dataset prefix c rnd))))) in
     keys_sorted keys /\ NoDup keys) /\
  (forall recs nsamples prefix c rnd0,
     let keys := gt_keys (gts (written (Gnomad.ws
                   (snd (Gnomad.tables recs nsamples prefix c rnd0))))) in
     keys_sorted keys /\ NoDup keys).
Proof.
  split.
  - intros vcf dataset prefix c rnd Hnd. cbv zeta.
    assert (Hs : keys_sorted (gt_keys (gts (written (out_writers
                   (snd (VcfToParquet.tables vcf dataset prefix c rnd))))))).
    { pose proof (vcf_tables_closed dt_ok vcf dataset prefix c rnd dt_ok_empty
                    (fun a b => dt_ok_app a b)
                    (fun vid r d => VcfFacts.record_rows_ok _ _ vid r d)) as (_ & _ & Hok).
      pose proof (VcfFacts.tables_spec vcf dataset prefix c rnd) as H. simpl in H.
      destruct (VcfToParquet.tables vcf dataset prefix c rnd) as [[e|] out];
        cbn [snd] in Hok |- *.
      - destruct H as (_ & _ & _ & k & rows & rest & r & Hrows & Heq & _).
        apply (vcf_all_rows_keys _ _ Hnd) in Hrows as [Hs _].
        rewrite <- Heq in Hs. cbn [dt_app gts] in Hs.
        rewrite gt_keys_app in Hs by done.
        by apply keys_sorted_prefix in Hs.
      - destruct H as (_ & _ & _ & rows & Hrows & -> & _).
        by apply (vcf_all_rows_keys _ _ Hnd) in Hrows as [Hs _]. }
    split; [done | by apply keys_sorted_NoDup].
  - intros recs nsamples prefix c rnd0. cbv zeta.
    assert (Hs : keys_sorted (gt_keys (gts (written (Gnomad.ws
                   (snd (Gnomad.tables recs nsamples prefix c rnd0))))))).
    { pose proof (syn_tables_closed dt_ok recs nsamples prefix c rnd0 dt_ok_empty
                    (fun a b => dt_ok_app a b)) as Hok.
      destruct Hok as (_ & _ & Hok).
      { intros cnt r rnd d rnd1 Hd.
        apply GnomadFacts.syn_record_rows_inv in Hd as (g & alt0 & _ & _ & _ & ->).
        apply GnomadFacts.rows_of_ok. }
      pose proof (GnomadFacts.syn_tables_spec recs nsamples prefix c rnd0) as H.
      destruct (Gnomad.tables recs nsamples prefix c rnd0) as [[e|] st];
        cbn [snd] in Hok |- *.
      - destruct H as (_ & k & rows & cnt & rndk & rest & r & Hrows & Heq & _).
        apply syn_all_rows_keys in Hrows as [Hs _].
        rewrite <- Heq in Hs. cbn [dt_app gts] in Hs.
        rewrite gt_keys_app in Hs by done.
        by apply keys_sorted_prefix in Hs.
      - destruct H as (_ & rows & Hrows & -> & _).
        by apply syn_all_rows_keys in Hrows as [Hs _]. }
    split; [done | by apply keys_sorted_NoDup].
Qed.

Lemma genotype_keys_sorted_witness :
  NoDup (gt_keys (gts (written (out_writers
           (snd (VcfToParquet.tables ex_vcf "ds" "out" 3 ex_rnd)))))).
Proof.
  destruct genotype_keys_sorted as [Hvcf _].
  apply (Hvcf ex_vcf "ds" "out" 3 ex_rnd).
  apply (bool_decide_unpack _). vm_compute. exact I.
Defined.

(** ** Loading the files into a database *)

Section Sql.
Context {V : Type}.
Import SqliteFromParquet.
Implicit Types (con : gmap string V) (tables : list (string * V)).

Lemma pd_to_sql_cons name t tables con :
  pd_to_sql ((name, t) :: tables) con =
  match to_sql name t con with
  | inl e => (Some e, con)
  | inr con1 => pd_to_sql tables con1
  end.
Proof. reflexivity. Qed.

Lemma to_sql_inr name t con con1 :
  to_sql name t con = inr con1 -> con !! name = None /\ con1 = <[name := t]> con.
Proof. unfold to_sql. destruct (con !! name); [done | by intros [= <-]]. Qed.

Lemma to_sql_inl name t con e :
  to_sql name t con = inl e ->
  is_Some (con !! name) /\ e = ValueError ("Table '" +:+ name +:+ "' already exists.").
Proof. unfold to_sql. destruct (con !! name); [intros [= <-]; eauto | done]. Qed.

(** A call that completes has found none of the tables and stored all
    of them, keeping what was there. *)
Lemma pd_to_sql_success tables : forall con con',
  pd_to_sql tables con = (None, con') ->
  Forall (fun p => con !! fst p = None) tables /\
  con ⊆ con' /\
  (forall name t, (name, t) ∈ tables -> con' !! name = Some t).
Proof.
  induction tables as [|[name t] tables IH]; intros con con'.
  - intros [= <-]. split; [constructor|]. split; [done|].
    by intros name t ?%elem_of_nil.
  - rewrite pd_to_sql_cons.
    destruct (to_sql name t con) as [e|con1] eqn:E; [done|].
    apply to_sql_inr in E as [Hnone ->].
    intros H. apply IH in H as (Hall & Hsub & Hin).
    assert (Hsub0 : con ⊆ con').
    { etrans; [ | exact Hsub]. by apply insert_subseteq. }
    split; [ | split; [done|]].
    + constructor; [done|].
      eapply Forall_impl; [exact Hall|]. simpl. intros [k v] Hk. simpl in *.
      destruct (decide (k = name)) as [->|Hne]; [done|].
      by rewrite lookup_insert_ne in Hk.
    + intros k v [[= -> ->]|Hk]%elem_of_cons; [ | by apply Hin].
      eapply lookup_weaken; [ | exact Hsub]. apply lookup_insert_eq.
Qed.

(** A call that raises has found one of the tables. *)
Lemma pd_to_sql_failure tables : forall con con' e,
  NoDup (map fst tables) ->
  pd_to_sql tables con = (Some e, con') ->
  exists name, name ∈ map fst tables /\ is_Some (con !! name) /\
               e = ValueError ("Table '" +:+ name +:+ "' already exists.").
Proof.
  induction tables as [|[name t] tables IH]; intros con con' e Hnd; [done|].
  rewrite pd_to_sql_cons. simpl in Hnd. apply NoDup_cons in Hnd as [Hnotin Hnd].
  destruct (to_sql name t con) as [e1|con1] eqn:E.
  - intros [= <- <-]. apply to_sql_inl in E as [Hs ->].
    exists name. split; [apply list_elem_of_here | done].
  - apply to_sql_inr in E as [Hnone ->]. intros H.
    apply IH in H as (k & Hk & Hs & ->); [ | done].
    exists k. split; [by apply list_elem_of_further|]. split; [ | done].
    rewrite lookup_insert_ne in Hs; [done|]. by intros ->.
Qed.

Lemma pd_to_sql_fresh tables : forall con,
  NoDup (map fst tables) ->
  Forall (fun p => con !! fst p = None) tables ->
  exists con', pd_to_sql tables con = (None, con').
Proof.
  intros con Hnd Hall.
  destruct (pd_to_sql tables con) as [[e|] con'] eqn:E; [ | eauto].
  apply pd_to_sql_failure in E as (k & Hk & [v Hs] & _); [ | done].
  rewrite List.Forall_forall in Hall.
  apply list_elem_of_fmap in Hk as ([k' v'] & -> & Hin).
  apply list_elem_of_In, Hall in Hin. simpl in *. congruence.
Qed.

End Sql.



Section Load.
Context {G : Type}.
Import SqliteFromParquet.

Lemma read_parquet_at {T : Type} (nil : T) (app : T -> T -> T) path w :
  pq_path w = path -> read_parquet nil app path (Some w) = inr (content nil app (Some w)).
Proof. intros <-. unfold read_parquet. by rewrite String.eqb_refl. Qed.

(** Without a variants file the loader stops at its first read. *)
Lemma main_no_variants prefix (disk : outputs G) con :
  out_writers disk = no_writers ->
  main prefix disk con = (inl (FileNotFoundError (prefix +:+ "_variants.parquet")), con).
Proof. intros E. unfold main, read_tables. by rewrite E. Qed.

(** With the five files of a converter run and an empty database the
    loader stores the five tables. *)
Lemma main_fresh sch prefix (disk : outputs G) ss dataset consent rnd :
  files_ok sch prefix (out_writers disk) -> out_writers disk <> no_writers ->
  out_callsets disk = Some (write_callset_table ss dataset prefix consent) ->
  out_samples disk = Some (fst (write_sample_table ss dataset prefix consent rnd)) ->
  exists db, main prefix disk ∅ = (inr None, db) /\
             loaded (written (out_writers disk)) ss db.
Proof.
  intros ((Pv & Pa & Pg) & Htog & _) Hne Hcs Hsm.
  destruct Htog as [? | (wv & wa & wg & Ev & Ea & Eg & _)]; [done|].
  destruct (Pv _ Ev) as [Pv' _]. destruct (Pa _ Ea) as [Pa' _].
  destruct (Pg _ Eg) as [Pg' _].
  assert (Hpath : pq_path (fst (write_sample_table ss dataset prefix consent rnd)) =
                  prefix +:+ "_samples.parquet").
  { unfold write_sample_table.
    destruct (choices ethnicities None (length ss) rnd) as [eth rnd1].
    by destruct (choices birth_sexes _ (length ss) rnd1) as [sex rnd2]. }
  unfold main, read_tables. rewrite Ev, Ea, Eg, Hcs, Hsm.
  rewrite !read_parquet_at by done.
  set (fr := {| f_variants := _; f_callsets := _; f_samples := _; f_gts := _;
                f_annotations := _ |}).
  destruct (pd_to_sql_fresh (items fr) ∅) as [db Hdb].
  { apply (bool_decide_unpack _). vm_compute. exact I. }
  { repeat constructor. }
  rewrite Hdb. exists db. split; [done|].
  apply pd_to_sql_success in Hdb as (_ & _ & Hin).
  assert (Hitem : forall i p, items fr !! i = Some p -> db !! fst p = Some (snd p)).
  { intros i [k v] Hi. apply Hin. by eapply list_elem_of_lookup_2. }
  unfold loaded, written. rewrite Ev, Ea, Eg. cbn [variants annotations gts].
  split; [exact (Hitem 0%nat _ eq_refl)|].
  split; [exact (Hitem 4%nat _ eq_refl)|].
  split; [exact (Hitem 3%nat _ eq_refl)|].
  split.
  - eexists. split; [exact (Hitem 1%nat _ eq_refl)|]. by unfold fr.
  - eexists. split; [exact (Hitem 2%nat _ eq_refl)|]. unfold fr. cbn [f_samples snd].
    unfold write_sample_table.
    destruct (choices ethnicities None (length ss) rnd) as [eth rnd1].
    by destruct (choices birth_sexes _ (length ss) rnd1) as [sex rnd2].
Qed.

End Load.

(** X16: the loader after a converter. Run on the files of a completed
    conversion and an empty database, [sqlite_from_parquet.py] stores
    the five tables, the three chunked ones with exactly the rows of the
    unchunked conversion, provided the conversion emitted a variant. If
    it emitted none (for [vcf_to_parquet.py]: the input has no record)
    the variants file does not exist and the loader ends with
    [FileNotFoundError] at its first read, leaving the database
    empty. *)
Theorem sqlite_after_conversion :
  (forall vcf dataset prefix c rnd out,
     VcfToParquet.tables vcf dataset prefix c rnd = (None, out) ->
     match VcfToParquet.records vcf with
     | [] =>
         SqliteFromParquet.main prefix out ∅ =
         (inl (SqliteFromParquet.FileNotFoundError (prefix +:+ "_variants.parquet")), ∅)
     | _ :: _ =>
         exists rows db,
           VcfToParquet.all_rows (VcfToParquet.samples vcf)
             (VcfToParquet.sample_to_sampleId (VcfToParquet.samples vcf)) 0
             (VcfToParquet.records vcf) = inr rows /\
           SqliteFromParquet.main prefix out ∅ = (inr None, db) /\
           loaded rows (VcfToParquet.samples vcf) db
     end) /\
  (forall recs dataset prefix nsamples c rnd rnd0 out,
     Gnomad.main recs dataset prefix nsamples c rnd rnd0 = (None, out) ->
     let st := snd (Gnomad.tables recs nsamples prefix c rnd0) in
     if Gnomad.count st =? 0 then
       SqliteFromParquet.main prefix out ∅ =
       (inl (SqliteFromParquet.FileNotFoundError (prefix +:+ "_variants.parquet")), ∅)
     else
       exists rows db,
         Gnomad.all_rows nsamples 0 recs rnd0 =
           (inr (rows, Gnomad.count st), Gnomad.np_rnd st) /\
         SqliteFromParquet.main prefix out ∅ = (inr None, db) /\
         loaded rows
           (map (fun i => dataset +:+ "_" +:+ Gnomad.pad5 i) (range (Z.to_nat nsamples)))
           db).
Proof.
  split.
  - intros vcf dataset prefix c rnd out Hrun.
    pose proof (VcfFacts.tables_spec vcf dataset prefix c rnd) as S.
    pose proof (vcf_tables_files_ok vcf dataset prefix c rnd) as F.
    rewrite Hrun in S, F. cbn [snd] in F. cbv zeta in S.
    destruct S as (Hcs & Hsm & _ & rows & Hrows & Hw & Hcase).
    destruct Hcase as [[E Hnone] | [Hne Hop]].
    + rewrite E. by apply main_no_variants.
    + destruct (VcfToParquet.records vcf) as [|r recs] eqn:E; [done|].
      destruct (main_fresh _ prefix out (VcfToParquet.samples vcf) dataset true rnd F)
        as (db & Hdb & Hl);
        [ | done | done | ].
      * intros Hn. rewrite Hn in Hop. by destruct Hop as [? _].
      * subst rows. by exists (written (out_writers out)), db.
  - intros recs dataset prefix nsamples c rnd rnd0 out Hrun. cbv zeta.
    rewrite main_tables in Hrun. injection Hrun as He <-.
    pose proof (GnomadFacts.syn_tables_spec recs nsamples prefix c rnd0) as S.
    pose proof (syn_tables_files_ok recs nsamples prefix c rnd0) as F.
    destruct (Gnomad.tables recs nsamples prefix c rnd0) as [e st].
    cbn [fst snd] in *. subst e.
    destruct S as (_ & rows & Hrows & Hw & Hcase).
    destruct Hcase as [[E Hnone] | [Hpos Hop]].
    + rewrite E. simpl. by apply main_no_variants.
    + destruct (Z.eqb_spec (Gnomad.count st) 0) as [?|_]; [lia|].
      set (ss := map (fun i => dataset +:+ "_" +:+ Gnomad.pad5 i)
                   (range (Z.to_nat nsamples))).
      destruct (main_fresh _ prefix
                  {| out_callsets := Some (write_callset_table ss dataset prefix true);
                     out_samples := Some (fst (write_sample_table ss dataset prefix true rnd));
                     out_writers := Gnomad.ws st |}
                  ss dataset true rnd F) as (db & Hdb & Hl); [ | done | done | ].
      * cbn [out_writers]. intros Hn. rewrite Hn in Hop. by destruct Hop as [? _].
      * subst rows. cbn [out_writers] in Hl. by exists (written (Gnomad.ws st)), db.
Qed.

Lemma sqlite_after_conversion_witness :
  exists rows db,
    VcfToParquet.all_rows (VcfToParquet.samples ex_vcf)
      (VcfToParquet.sample_to_sampleId (VcfToParquet.samples ex_vcf)) 0
      (VcfToParquet.records ex_vcf) = inr rows /\
    SqliteFromParquet.main "out"
      (snd (VcfToParquet.tables ex_vcf "ds" "out" 3 ex_rnd)) ∅ = (inr None, db) /\
    loaded rows (VcfToParquet.samples ex_vcf) db.
Proof.
  destruct sqlite_after_conversion as [Hvcf _].
  apply (Hvcf ex_vcf "ds" "out" 3 ex_rnd).
  vm_compute; reflexivity.
Defined.

(** ** [tables_from_vcfs.py] *)

Module FromVcfsFacts.
Import TablesFromVcfs.

Section Calls.
Variable M : gmap string Z.

Lemma calls_inv vid calls : forall t d,
  append_calls M vid calls t = inr d ->
  g_vId d = (g_vId t ++ replicate (length (List.filter called calls)) vid)%list /\
  g_genotype d = (g_genotype t ++ map gt_nums (List.filter called calls))%list /\
  exists sids,
    g_callsetId d = (g_callsetId t ++ sids)%list /\
    Forall2 (fun c sid => M !! sample c = Some sid) (List.filter called calls) sids.
Proof.
  induction calls as [|c calls IH]; intros t d; simpl.
  - intros [= <-]. rewrite !app_nil_r. split; [done|]. split; [done|].
    exists []. rewrite app_nil_r. split; [done | constructor].
  - destruct (called c) eqn:Ec; [ | apply IH].
    intros H. apply bind_inr_inv in H as (sid & Hsid & H).
    apply IH in H as (Hv & Hg & sids & Hc & Hf). simpl in Hv, Hg, Hc.
    rewrite Hv, Hg, Hc, <- !app_assoc. simpl.
    split; [done|]. split; [done|].
    exists (sid :: sids). split; [done|]. constructor; [ | done].
    unfold getkey in Hsid. destruct (M !! sample c); [ | done]. by injection Hsid as ->.
Qed.

Lemma calls_err vid calls : forall t e,
  append_calls M vid calls t = inl e ->
  exists c, c ∈ calls /\ called c = true /\ M !! sample c = None /\
            e = KeyError (sample c).
Proof.
  induction calls as [|c calls IH]; intros t e; simpl; [done|].
  destruct (called c) eqn:Ec.
  - intros H. apply bind_inl_inv in H as [H | (sid & _ & H)].
    + exists c. split; [apply list_elem_of_here|]. split; [done|].
      unfold getkey in H. destruct (M !! sample c); [done|]. by injection H as <-.
    + apply IH in H as (c' & Hin & H). exists c'.
      split; [by apply list_elem_of_further | done].
  - intros H. apply IH in H as (c' & Hin & H). exists c'.
    split; [by apply list_elem_of_further | done].
Qed.

Lemma calls_inr_ok vid calls : forall t d,
  append_calls M vid calls t = inr d -> forallb (call_ok M) calls = true.
Proof.
  induction calls as [|c calls IH]; intros t d; simpl; [done|].
  unfold call_ok at 1. destruct (called c); simpl.
  - intros H. apply bind_inr_inv in H as (sid & Hsid & H).
    unfold getkey in Hsid. destruct (M !! sample c) eqn:E; [ | done].
    rewrite bool_decide_true by eauto. simpl. by eapply IH.
  - apply IH.
Qed.

Lemma calls_inl_bad vid calls t e :
  append_calls M vid calls t = inl e -> forallb (call_ok M) calls = false.
Proof.
  intros H. apply calls_err in H as (c & Hin & Hc & Hn & _).
  destruct (forallb (call_ok M) calls) eqn:E; [ | done].
  rewrite forallb_forall in E. apply list_elem_of_In, E in Hin.
  unfold call_ok in Hin. rewrite Hc, Hn in Hin. simpl in Hin. done.
Qed.

(** What one record appends. *)
Lemma record_inv vid r dt dt' :
  append_record M vid r dt = inr dt' ->
  well_formed M r = true /\
  (dt_ok dt -> dt_ok dt') /\
  (exists alt0, ALT r !! 0%nat = Some alt0 /\
     variants dt' = vt_app (variants dt)
       {| v_vId := [vid]; v_chrom := [CHROM r]; v_pos := [POS r]; v_ref := [REF r];
          v_alt := [alt0] |}) /\
  (exists avs, a_vId (annotations dt') = (a_vId (annotations dt) ++ avs)%list /\
               Forall (fun v => v = vid) avs) /\
  g_vId (gts dt') =
    (g_vId (gts dt) ++ replicate (length (List.filter called (samples r))) vid)%list /\
  g_genotype (gts dt') =
    (g_genotype (gts dt) ++ map gt_nums (List.filter called (samples r)))%list /\
  exists sids,
    g_callsetId (gts dt') = (g_callsetId (gts dt) ++ sids)%list /\
    Forall2 (fun c sid => M !! sample c = Some sid) (List.filter called (samples r)) sids.
Proof.
  unfold append_record. intros H.
  apply bind_inr_inv in H as (v & Hv & H).
  apply bind_inr_inv in H as (a & Ha & H).
  apply bind_inr_inv in H as (g & Hg & [= <-]).
  pose proof (calls_inr_ok _ _ _ _ Hg) as Hcalls.
  apply calls_inv in Hg as (Gv & Gg & sids & Gc & Gf).
  unfold append_variant, getitem in Hv. simpl in Hv.
  destruct (ALT r !! 0%nat) as [alt0|] eqn:Ealt; simpl in Hv; [ | done].
  injection Hv as <-.
  unfold VcfToParquet.append_annotation, getkey in Ha. simpl in Ha.
  destruct (INFO r !! "geneSymbol") as [gene|] eqn:Egene; simpl in Ha; [ | done].
  assert (Hwf : well_formed M r = true).
  { unfold well_formed. rewrite Egene, bool_decide_true by eauto.
    rewrite Hcalls. destruct (ALT r) as [|? ?]; [done | done]. }
  pose proof (Forall2_length _ _ _ Gf) as Hlen.
  assert (Ha' : exists avs ags, a_vId a = (a_vId (annotations dt) ++ avs)%list /\
                  a_geneSymbol a = (a_geneSymbol (annotations dt) ++ ags)%list /\
                  length avs = length ags /\ Forall (fun v => v = vid) avs).
  { destruct (truthy gene); injection Ha as <-; simpl.
    - exists [vid], [gene]. repeat split; repeat constructor.
    - exists [], []. rewrite !app_nil_r. repeat split; constructor. }
  destruct Ha' as (avs & ags & A1 & A2 & A3 & A4).
  split; [done|]. split; [ | split; [by exists alt0 | split; [by exists avs|]]].
  - intros ((V1 & V2 & V3 & V4) & A & (G1 & G2)).
    unfold dt_ok, vt_ok, at_ok, gt_ok in *. simpl.
    rewrite A1, A2, Gv, Gg, Gc, !length_app, length_replicate, length_map. simpl.
    lia.
  - simpl. split; [done|]. split; [done|]. by exists sids.
Qed.

Lemma record_err vid r dt e :
  append_record M vid r dt = inl e ->
  well_formed M r = false /\
  (e = IndexError \/ e = KeyError "geneSymbol" \/
   exists name, e = KeyError name /\ M !! name = None).
Proof.
  unfold append_record, well_formed. intros H.
  apply bind_inl_inv in H as [H | (v & Hv & H)].
  { unfold append_variant, getitem in H. simpl in H.
    destruct (ALT r) as [|? ?]; simpl in H; [ | done].
    injection H as <-. auto. }
  assert (Halt : negb (length (ALT r) =? 0)%nat = true).
  { unfold append_variant, getitem in Hv. simpl in Hv. by destruct (ALT r). }
  rewrite Halt. simpl.
  apply bind_inl_inv in H as [H | (a & Ha & H)].
  { unfold VcfToParquet.append_annotation, getkey in H. simpl in H.
    destruct (INFO r !! "geneSymbol") as [gene|] eqn:Egene; simpl in H.
    - by destruct (truthy gene).
    - injection H as <-. rewrite bool_decide_false by (by intros [? ?]). auto. }
  apply bind_inl_inv in H as [H | (g & _ & H)]; [ | done].
  pose proof (calls_inl_bad _ _ _ _ H) as Hbad.
  apply calls_err in H as (c & _ & _ & Hn & ->).
  split; [ | eauto 10].
  rewrite Hbad. apply andb_false_r.
Qed.

Lemma called_calls_cons vid r recs :
  called_calls vid (r :: recs) =
  (map (pair vid) (List.filter called (samples r)) ++ called_calls (vid + 1) recs)%list.
Proof. reflexivity. Qed.

(** What the loop appends on success. *)
Lemma loop_inv recs : forall vid dt dt',
  loop M vid recs dt = inr dt' ->
  Forall (fun r => well_formed M r = true) recs /\
  (dt_ok dt -> dt_ok dt') /\
  v_vId (variants dt') =
    (v_vId (variants dt) ++ map (fun k => vid + Z.of_nat k) (seq 0 (length recs)))%list /\
  v_chrom (variants dt') = (v_chrom (variants dt) ++ map CHROM recs)%list /\
  v_pos (variants dt') = (v_pos (variants dt) ++ map POS recs)%list /\
  v_ref (variants dt') = (v_ref (variants dt) ++ map REF recs)%list /\
  (exists alts, v_alt (variants dt') = (v_alt (variants dt) ++ alts)%list /\
                Forall2 (fun r alt0 => ALT r !! 0%nat = Some alt0) recs alts) /\
  (exists avs, a_vId (annotations dt') = (a_vId (annotations dt) ++ avs)%list /\
               Forall (fun v => vid <= v < vid + Z.of_nat (length recs)) avs) /\
  g_vId (gts dt') = (g_vId (gts dt) ++ map fst (called_calls vid recs))%list /\
  g_genotype (gts dt') =
    (g_genotype (gts dt) ++ map (fun p => gt_nums (snd p)) (called_calls vid recs))%list /\
  exists sids,
    g_callsetId (gts dt') = (g_callsetId (gts dt) ++ sids)%list /\
    Forall2 (fun p sid => M !! sample (snd p) = Some sid) (called_calls vid recs) sids.
Proof.
  induction recs as [|r recs IH]; intros vid dt dt'; simpl.
  - intros [= <-]. rewrite !app_nil_r. split; [constructor|]. split; [done|].
    repeat (split; [done|]).
    split; [exists []; rewrite app_nil_r; split; [done | constructor]|].
    split; [exists []; rewrite app_nil_r; split; [done | constructor]|].
    split; [done|]. split; [done|].
    exists []. rewrite app_nil_r. split; [done | constructor].
  - intros H. apply bind_inr_inv in H as (dt1 & H1 & H).
    apply IH in H as (Hwf & Hok & Hv & Hc & Hp & Hr & (alts & Ha & Fa) &
                      (avs & Hav & Fav) & Gv & Gg & sids & Gc & Gf).
    apply record_inv in H1 as (Hwf1 & Hok1 & (alt0 & Ealt & V1) & (avs1 & A1 & FA1) &
                               G1 & G2 & sids1 & G3 & F3).
    rewrite V1 in Hv, Hc, Hp, Hr, Ha. simpl in Hv, Hc, Hp, Hr, Ha.
    rewrite A1 in Hav. rewrite G1 in Gv. rewrite G2 in Gg. rewrite G3 in Gc.
    rewrite called_calls_cons, !map_app, !map_map. simpl.
    split; [by constructor|]. split; [auto|].
    split.
    { rewrite Hv, <- app_assoc. simpl. do 2 f_equal.
      - lia.
      - rewrite <- seq_shift, map_map. apply map_ext. intros k. lia. }
    split; [by rewrite Hc, <- app_assoc|].
    split; [by rewrite Hp, <- app_assoc|].
    split; [by rewrite Hr, <- app_assoc|].
    split.
    { exists (alt0 :: alts). rewrite Ha, <- app_assoc. split; [done | by constructor]. }
    split.
    { exists (avs1 ++ avs)%list. rewrite Hav, <- app_assoc. split; [done|].
      apply Forall_app. split.
      - eapply Forall_impl; [exact FA1|]. simpl. intros v ->. lia.
      - eapply Forall_impl; [exact Fav|]. simpl. intros v ?. lia. }
    split.
    { rewrite Gv, <- app_assoc. do 2 f_equal.
      clear. induction (List.filter called (samples r)) as [|c l IHl]; simpl; [done|].
      by rewrite IHl. }
    split.
    { rewrite Gg, <- app_assoc. done. }
    exists (sids1 ++ sids)%list. rewrite Gc, <- app_assoc. split; [done|].
    apply Forall2_app; [ | done].
    clear -F3. induction F3; simpl; by constructor.
Qed.

Lemma loop_err recs : forall vid dt e,
  loop M vid recs dt = inl e ->
  (exists r, r ∈ recs /\ well_formed M r = false) /\
  (e = IndexError \/ e = KeyError "geneSymbol" \/
   exists name, e = KeyError name /\ M !! name = None).
Proof.
  induction recs as [|r recs IH]; intros vid dt e; simpl; [done|].
  intros H. apply bind_inl_inv in H as [H | (dt1 & _ & H)].
  - apply record_err in H as [Hbad He]. split; [ | done].
    exists r. split; [apply list_elem_of_here | done].
  - apply IH in H as [(r' & Hin & Hbad) He]. split; [ | done].
    exists r'. split; [by apply list_elem_of_further | done].
Qed.

End Calls.

End FromVcfsFacts.

Lemma DataFrame_variants_inr t t' : DataFrame_variants t = inr t' -> t' = t.
Proof. unfold DataFrame_variants. destruct (_ && _); [by intros [= <-] | done]. Qed.

Lemma DataFrame_annotations_inr t t' : DataFrame_annotations t = inr t' -> t' = t.
Proof. unfold DataFrame_annotations. destruct (_ =? _)%nat; [by intros [= <-] | done]. Qed.

Lemma DataFrame_gts_inr {G : Type} (t t' : gt_table G) : DataFrame_gts t = inr t' -> t' = t.
Proof. unfold DataFrame_gts. destruct (_ && _); [by intros [= <-] | done]. Qed.

(** X17: the tables [tables_from_vcfs.py] returns. The variants table
    has one row per record, numbered from 0 in input order, with the
    record's chromosome, position, reference and first alternate
    allele; every variant identifier of the annotations table is one of
    them. The genotype table has one row for exactly the calls of type
    1 or 2 (het, hom-alt: a hom-ref or uncalled sample gets none), in
    record and then sample order, with the index of the record, the GT
    text of the call and the identifier the sample map gives its
    sample. *)
Theorem tables_from_vcfs_rows vcf dataset rnd fr :
  TablesFromVcfs.tables vcf dataset rnd = inr fr ->
  let recs := TablesFromVcfs.records vcf in
  let M := TablesFromVcfs.sample_to_sampleId (TablesFromVcfs.reader_samples vcf) in
  let cc := TablesFromVcfs.called_calls 0 recs in
  let v := TablesFromVcfs.fr_variants fr in
  let g := TablesFromVcfs.fr_gts fr in
  v_vId v = range (length recs) /\
  v_chrom v = map TablesFromVcfs.CHROM recs /\
  v_pos v = map TablesFromVcfs.POS recs /\
  v_ref v = map TablesFromVcfs.REF recs /\
  Forall2 (fun r alt0 => TablesFromVcfs.ALT r !! 0%nat = Some alt0) recs (v_alt v) /\
  Forall (fun x => x ∈ v_vId v) (a_vId (TablesFromVcfs.fr_annotations fr)) /\
  g_vId g = map fst cc /\
  g_genotype g = map (fun p => TablesFromVcfs.gt_nums (snd p)) cc /\
  Forall2 (fun p sid => M !! TablesFromVcfs.sample (snd p) = Some sid) cc (g_callsetId g).
Proof.
  unfold TablesFromVcfs.tables.
  destruct (TablesFromVcfs.sample_table _ dataset true rnd) as [sf rnd1].
  intros H. apply bind_inr_inv in H as (dt & Hloop & H).
  apply bind_inr_inv in H as (a & Ha & H).
  apply bind_inr_inv in H as (v & Hv & H).
  apply bind_inr_inv in H as (g & Hg & [= <-]).
  apply DataFrame_annotations_inr in Ha as ->.
  apply DataFrame_variants_inr in Hv as ->.
  apply DataFrame_gts_inr in Hg as ->.
  apply FromVcfsFacts.loop_inv in Hloop
    as (_ & _ & Hv & Hc & Hp & Hr & (alts & Ha & Fa) & (avs & Hav & Fav) &
        Gv & Gg & sids & Gc & Gf).
  simpl in Hv, Hc, Hp, Hr, Ha, Hav, Gv, Gg, Gc. cbv zeta. simpl.
  assert (Hrange : v_vId (variants dt) = range (length (TablesFromVcfs.records vcf))).
  { rewrite Hv. unfold range. apply map_ext. intros k. lia. }
  rewrite Hrange, Hc, Hp, Hr, Ha, Hav, Gv, Gg, Gc.
  repeat (split; [done|]). split; [ | done].
  eapply Forall_impl; [exact Fav|]. simpl. intros x Hx.
  unfold range. apply list_elem_of_fmap. exists (Z.to_nat x).
  split; [lia|]. apply elem_of_seq. lia.
Qed.

Lemma tables_from_vcfs_rows_witness :
  exists fr,
    TablesFromVcfs.tables ex_pyvcf "ds" ex_rnd = inr fr /\
    v_vId (TablesFromVcfs.fr_variants fr) = [0; 1] /\
    zip (g_vId (TablesFromVcfs.fr_gts fr)) (g_genotype (TablesFromVcfs.fr_gts fr)) =
      [(0, Some "0/1"); (1, Some "1|1")].
Proof.
  destruct (TablesFromVcfs.tables ex_pyvcf "ds" ex_rnd) as [e|fr] eqn:E;
    [vm_compute in E; discriminate|].
  exists fr. split; [done|].
  destruct (tables_from_vcfs_rows ex_pyvcf "ds" ex_rnd fr E)
    as (Hv & _ & _ & _ & _ & _ & Gv & Gg & _).
  rewrite Hv, Gv, Gg. split; vm_compute; reflexivity.
Defined.

Lemma from_vcfs_cases vcf dataset rnd :
  let M := TablesFromVcfs.sample_to_sampleId (TablesFromVcfs.reader_samples vcf) in
  match TablesFromVcfs.tables vcf dataset rnd with
  | inr _ =>
      Forall (fun r => TablesFromVcfs.well_formed M r = true) (TablesFromVcfs.records vcf)
  | inl e =>
      (exists r, r ∈ TablesFromVcfs.records vcf /\ TablesFromVcfs.well_formed M r = false) /\
      (e = IndexError \/ e = KeyError "geneSymbol" \/
       exists name, e = KeyError name /\ name ∉ TablesFromVcfs.reader_samples vcf)
  end.
Proof.
  cbv zeta. unfold TablesFromVcfs.tables.
  destruct (TablesFromVcfs.sample_table _ dataset true rnd) as [sf rnd1].
  destruct (TablesFromVcfs.loop _ 0 (TablesFromVcfs.records vcf) empty_tables)
    as [e|dt] eqn:Hloop; simpl.
  - apply FromVcfsFacts.loop_err in Hloop as [Hbad He]. split; [done|].
    destruct He as [-> | [-> | (name & -> & Hn)]]; auto.
    right; right. exists name. split; [done|].
    intros Hin. apply VcfFacts.sample_map_total in Hin as [v Hv].
    unfold TablesFromVcfs.sample_to_sampleId in Hn. congruence.
  - apply FromVcfsFacts.loop_inv in Hloop as (Hwf & Hok & _).
    destruct (Hok dt_ok_empty) as (Hv & Ha & Hg).
    rewrite (DataFrame_annotations_ok _ Ha). simpl.
    rewrite (DataFrame_variants_ok _ Hv). simpl.
    rewrite (DataFrame_gts_ok _ Hg). simpl. done.
Qed.

(** X18: when [tables_from_vcfs.py] returns. The call returns its
    tables exactly when every record has an alternate allele, a
    [geneSymbol] INFO entry and, for each call of type 1 or 2, a sample
    named in the header. Otherwise it raises [IndexError],
    [KeyError('geneSymbol')] or [KeyError] of a sample name that is not
    in the header; building the data frames never raises. *)
Theorem tables_from_vcfs_outcome vcf dataset rnd :
  let M := TablesFromVcfs.sample_to_sampleId (TablesFromVcfs.reader_samples vcf) in
  match TablesFromVcfs.tables vcf dataset rnd with
  | inr _ =>
      Forall (fun r => TablesFromVcfs.well_formed M r = true) (TablesFromVcfs.records vcf)
  | inl e =>
      (exists r, r ∈ TablesFromVcfs.records vcf /\ TablesFromVcfs.well_formed M r = false) /\
      (e = IndexError \/ e = KeyError "geneSymbol" \/
       exists name, e = KeyError name /\ name ∉ TablesFromVcfs.reader_samples vcf)
  end.
Proof. exact (from_vcfs_cases vcf dataset rnd). Qed.

(** ** The rows do not depend on the chunk size *)

(** X19: the chunk size decides only where the row groups end. If a
    run of a script completes with some chunk size, then the run on the
    same input with any other chunk size except 0 completes too and
    leaves the same rows in the same order in every table, and the same
    callsets and samples files (in synthetic mode also the same count
    of variants and the same state of the generator). *)
Theorem chunk_size_outcome :
  (forall vcf dataset prefix c1 c2 rnd out1,
     c2 <> 0 ->
     VcfToParquet.tables vcf dataset prefix c1 rnd = (None, out1) ->
     exists out2,
       VcfToParquet.tables vcf dataset prefix c2 rnd = (None, out2) /\
       written (out_writers out2) = written (out_writers out1) /\
       out_callsets out2 = out_callsets out1 /\
       out_samples out2 = out_samples out1) /\
  (forall recs nsamples prefix c1 c2 rnd0 st1,
     c2 <> 0 ->
     Gnomad.tables recs nsamples prefix c1 rnd0 = (None, st1) ->
     exists st2,
       Gnomad.tables recs nsamples prefix c2 rnd0 = (None, st2) /\
       written (Gnomad.ws st2) = written (Gnomad.ws st1) /\
       Gnomad.count st2 = Gnomad.count st1 /\
       Gnomad.np_rnd st2 = Gnomad.np_rnd st1).
Proof.
  split.
  - intros vcf dataset prefix c1 c2 rnd out1 Hc2 H1.
    pose proof (VcfFacts.tables_spec vcf dataset prefix c1 rnd) as H. simpl in H.
    rewrite H1 in H. destruct H as (Hcs & Hsm & _ & rows & Hrows & Hw & _).
    destruct (VcfFacts.tables_complete vcf dataset prefix c2 rnd rows Hrows)
      as (out2 & H2 & Hw2 & Hcs2 & Hsm2 & _); [by left|].
    exists out2. rewrite H2, Hw2, Hw, Hcs2, Hsm2, Hcs, Hsm. done.
  - intros recs nsamples prefix c1 c2 rnd0 st1 Hc2 H1.
    pose proof (GnomadFacts.syn_tables_spec recs nsamples prefix c1 rnd0) as H.
    rewrite H1 in H. destruct H as (_ & rows & Hrows & Hw & _).
    destruct (GnomadFacts.syn_tables_complete recs nsamples prefix c2 rnd0 _ _ _ Hrows)
      as (st2 & H2 & Hw2 & Hcnt & Hrnd & _); [by left|].
    exists st2. rewrite H2, Hw2, Hw, Hcnt, Hrnd. done.
Qed.

Lemma chunk_size_outcome_witness :
  (exists out2,
     VcfToParquet.tables ex_vcf "ds" "out" (-2) ex_rnd = (None, out2) /\
     written (out_writers out2) =
     written (out_writers (snd (VcfToParquet.tables ex_vcf "ds" "out" 3 ex_rnd)))) /\
  (exists st2,
     Gnomad.tables ex_sites 4 "out" 500 ex_rnd = (None, st2) /\
     written (Gnomad.ws st2) =
     written (Gnomad.ws (snd (Gnomad.tables ex_sites 4 "out" 2 ex_rnd)))).
Proof.
  destruct chunk_size_outcome as [Hvcf Hsyn]. split.
  - destruct (Hvcf ex_vcf "ds" "out" 3 (-2) ex_rnd
                (snd (VcfToParquet.tables ex_vcf "ds" "out" 3 ex_rnd)))
      as (out2 & H2 & Hw & _); [lia | vm_compute; reflexivity | eauto].
  - destruct (Hsyn ex_sites 4 "out" 2 500 ex_rnd
                (snd (Gnomad.tables ex_sites 4 "out" 2 ex_rnd)))
      as (st2 & H2 & Hw & _); [lia | vm_compute; reflexivity | eauto].
Defined.

(** ** No sample at all *)

Lemma mt_state_eq (a b : mt_state) :
  mt_bits a = mt_bits b -> mt_pos a = mt_pos b -> a = b.
Proof. destruct a, b; simpl; by intros -> ->. Qed.

Lemma syn_record_zero cnt r rnd :
  match Gnomad.record_rows 0 cnt r rnd with
  | (inl e, _) => e = TypeError \/ e = ValueError "probabilities are not non-negative"
  | (inr (Some _), _) => False
  | (inr None, rnd1) => rnd1 = rnd
  end.
Proof.
  pose proof (syn_record_error 0 cnt r rnd) as Herr.
  destruct (Gnomad.record_rows 0 cnt r rnd) as [[e|[d|]] rnd1] eqn:Hr.
  - destruct (Herr e eq_refl) as [He | [He | [[_ ?] | [He Halt]]]]; [auto | auto | lia | ].
    exfalso. subst e. unfold Gnomad.record_rows in Hr.
    destruct (Gnomad.sample_genotypes 0 r rnd) as [[e|[g|]] rnd2] eqn:Hs;
      [ | | done].
    + injection Hr as -> _.
      unfold Gnomad.sample_genotypes in Hs.
      destruct (INFO r !! "AF") as [af|]; [ | done].
      destruct (negb (truthy af)); [done|].
      destruct (Gnomad.to_float af) as [e'|q] eqn:Ef.
      { injection Hs as He' _. destruct af; simpl in Ef; congruence. }
      destruct (Gnomad.np_random_choice [0; 1; 3] 0 (Gnomad.hardy_weinberg q) rnd)
        as [[e'|g] rnd3] eqn:Ec; [ | done].
      injection Hs as He' _.
      apply syn_choice_error in Ec as [[? _] | [? ?]]; [congruence | lia].
    + apply GnomadFacts.sample_genotypes_spec in Hs as (_ & Hl & _).
      destruct g; [ | done].
      rewrite GnomadFacts.append_record_eq in Hr. simpl in Hr. congruence.
  - apply GnomadFacts.syn_record_rows_inv in Hr as (g & alt0 & Hs & Hp & _).
    apply GnomadFacts.sample_genotypes_spec in Hs as (_ & Hl & _).
    by destruct g.
  - unfold Gnomad.record_rows in Hr.
    destruct (Gnomad.sample_genotypes 0 r rnd) as [[e|[g|]] rnd2] eqn:Hs; [done | | ].
    + assert (rnd2 = rnd1) as -> by (by injection Hr).
      apply GnomadFacts.sample_genotypes_spec in Hs as (_ & _ & _ & Hp & Hb).
      apply mt_state_eq; [done | simpl in Hp; lia].
    + injection Hr as <-.
      apply sample_genotypes_draws in Hs as [Hb Hp].
      apply mt_state_eq; [done | destruct (has_frequency r); simpl in Hp; lia].
Qed.

Lemma syn_loop_zero_samples prefix c recs : forall st,
  let res := Gnomad.loop 0 prefix c recs st in
  Gnomad.ws (snd res) = Gnomad.ws st /\
  Gnomad.count (snd res) = Gnomad.count st /\
  Gnomad.data (snd res) = Gnomad.data st /\
  match fst res with
  | None => Gnomad.np_rnd (snd res) = Gnomad.np_rnd st
  | Some e => e = TypeError \/ e = ValueError "probabilities are not non-negative"
  end.
Proof.
  induction recs as [|r recs IH]; intros st; simpl; [done|].
  rewrite syn_step_eq.
  pose proof (syn_record_zero (Gnomad.count st) r (Gnomad.np_rnd st)) as H.
  destruct (Gnomad.record_rows 0 (Gnomad.count st) r (Gnomad.np_rnd st))
    as [[e|[d|]] rnd1]; [done | done | subst rnd1].
  apply (IH (Gnomad.set_rnd st (Gnomad.np_rnd st))).
Qed.

(** X20: a synthetic run for zero samples. No record can have a
    present sample, so whatever the input and the chunk size (0
    included) no variant is counted and none of the three chunked files
    is created. A run that completes has drawn no random number; a run
    that raises does so at the allele frequency of a record, never with
    the [IndexError] of a missing alternate allele and never with the
    [ZeroDivisionError] of the chunk test, which are not reached. *)
Theorem zero_samples recs prefix c rnd0 :
  let res := Gnomad.tables recs 0 prefix c rnd0 in
  Gnomad.ws (snd res) = no_writers /\
  Gnomad.count (snd res) = 0 /\
  match fst res with
  | None => Gnomad.np_rnd (snd res) = rnd0
  | Some e => e <> IndexError /\ e <> ZeroDivisionError
  end.
Proof.
  cbv zeta. unfold Gnomad.tables.
  pose proof (syn_loop_zero_samples prefix c recs (Gnomad.init rnd0)) as H.
  cbv zeta in H.
  destruct (Gnomad.loop 0 prefix c recs (Gnomad.init rnd0)) as [[e|] st];
    cbn [fst snd] in H |- *; destruct H as (Hws & Hcnt & Hd & H).
  - split; [done|]. split; [done|]. by destruct H as [-> | ->].
  - unfold final_flush. rewrite Hd. simpl. done.
Qed.

(** ** The first converter writing to a database *)

(** X21: [tables_from_vcfs.py] with the [--sqlite] option on an empty
    database. Whenever every record is well formed and has cells the
    database can store (a gene symbol that is a string, a position that
    fits a 64-bit integer), in particular for an input without any
    record, the call stores all five tables: the tables it built, under
    the names callsets, samples, annotations, variants and gts. Unlike
    the path through [vcf_to_parquet.py] and [sqlite_from_parquet.py],
    an empty input gives a database with five tables, three of them
    without rows. *)
Theorem from_vcfs_to_sqlite vcf dataset rnd :
  let M := TablesFromVcfs.sample_to_sampleId (TablesFromVcfs.reader_samples vcf) in
  Forall (fun r => TablesFromVcfs.well_formed M r = true /\
                   TablesFromVcfs.storable r = true) (TablesFromVcfs.records vcf) ->
  exists fr db,
    TablesFromVcfs.tables vcf dataset rnd = inr fr /\
    TablesFromVcfs.main_sqlite vcf dataset rnd ∅ = (None, db) /\
    db !! "callsets" = Some (TablesFromVcfs.FCallsets (TablesFromVcfs.fr_callsets fr)) /\
    db !! "samples" = Some (TablesFromVcfs.FSamples (TablesFromVcfs.fr_samples fr)) /\
    db !! "annotations" =
      Some (TablesFromVcfs.FAnnotations (TablesFromVcfs.fr_annotations fr)) /\
    db !! "variants" = Some (TablesFromVcfs.FVariants (TablesFromVcfs.fr_variants fr)) /\
    db !! "gts" = Some (TablesFromVcfs.FGts (TablesFromVcfs.fr_gts fr)) /\
    length (v_vId (TablesFromVcfs.fr_variants fr)) = length (TablesFromVcfs.records vcf).
Proof.
  cbv zeta. intros Hboth.
  assert (Hwf : Forall (fun r => TablesFromVcfs.well_formed
                          (TablesFromVcfs.sample_to_sampleId
                             (TablesFromVcfs.reader_samples vcf)) r = true)
                  (TablesFromVcfs.records vcf)).
  { eapply Forall_impl; [exact Hboth|]. by intros r [? _]. }
  clear Hboth.
  pose proof (from_vcfs_cases vcf dataset rnd) as Hc. cbv zeta in Hc.
  unfold TablesFromVcfs.main_sqlite.
  destruct (TablesFromVcfs.tables vcf dataset rnd) as [e|fr] eqn:Ht.
  { exfalso. destruct Hc as [(r & Hin & Hbad) _].
    rewrite List.Forall_forall in Hwf. apply list_elem_of_In, Hwf in Hin. congruence. }
  destruct (pd_to_sql_fresh (TablesFromVcfs.items fr) ∅) as [db Hdb].
  { apply (bool_decide_unpack _). vm_compute. exact I. }
  { repeat constructor. }
  exists fr, db. split; [done|]. split; [done|].
  apply pd_to_sql_success in Hdb as (_ & _ & Hin).
  assert (Hitem : forall i p, TablesFromVcfs.items fr !! i = Some p ->
                    db !! fst p = Some (snd p)).
  { intros i [k v] Hi. apply Hin. by eapply list_elem_of_lookup_2. }
  split; [exact (Hitem 0%nat _ eq_refl)|].
  split; [exact (Hitem 1%nat _ eq_refl)|].
  split; [exact (Hitem 2%nat _ eq_refl)|].
  split; [exact (Hitem 3%nat _ eq_refl)|].
  split; [exact (Hitem 4%nat _ eq_refl)|].
  unfold TablesFromVcfs.tables in Ht.
  destruct (TablesFromVcfs.sample_table _ dataset true rnd) as [sf rnd1].
  apply bind_inr_inv in Ht as (dt & Hloop & H).
  apply bind_inr_inv in H as (a & Ha & H).
  apply bind_inr_inv in H as (v & Hv & H).
  apply bind_inr_inv in H as (g & Hg & [= <-]).
  apply DataFrame_variants_inr in Hv as ->.
  apply FromVcfsFacts.loop_inv in Hloop as (_ & _ & Hv & _).
  simpl in Hv |- *. by rewrite Hv, length_map, length_seq.
Qed.

Lemma from_vcfs_to_sqlite_witness :
  exists fr db,
    TablesFromVcfs.tables ex_pyvcf "ds" ex_rnd = inr fr /\
    TablesFromVcfs.main_sqlite ex_pyvcf "ds" ex_rnd ∅ = (None, db) /\
    db !! "callsets" = Some (TablesFromVcfs.FCallsets (TablesFromVcfs.fr_callsets fr)) /\
    db !! "samples" = Some (TablesFromVcfs.FSamples (TablesFromVcfs.fr_samples fr)) /\
    db !! "annotations" =
      Some (TablesFromVcfs.FAnnotations (TablesFromVcfs.fr_annotations fr)) /\
    db !! "variants" = Some (TablesFromVcfs.FVariants (TablesFromVcfs.fr_variants fr)) /\
    db !! "gts" = Some (TablesFromVcfs.FGts (TablesFromVcfs.fr_gts fr)) /\
    length (v_vId (TablesFromVcfs.fr_variants fr)) = 2%nat.
Proof.
  apply (from_vcfs_to_sqlite ex_pyvcf "ds" ex_rnd).
  apply (bool_decide_unpack _). vm_compute. exact I.
Defined.
